(** * ComInterface: serial port and TCP socket transports

    A shallow embedding of [comserial.cpp] and [comsocket.cpp].

    The two classes are thin layers over boost::asio.  Everything the
    classes ask of asio or of the operating system is a [request]; a method
    is a program in the monad [prog], a tree of requests whose
    continuations receive the answers.  The members of an object that the
    methods read and write (timeouts, line configuration, address, port and
    whether the handle is open) are fields of a record that the methods
    pass along.

    Every method but Abort holds the mutex of the object for its whole
    body, so the calls on one object follow one another; what an Abort from
    another thread does to a blocking call shows in the completions the
    environment reports to that call. *)

From Stdlib Require Import ZArith List String Ascii Bool Lia.
From Stdlib Require DecimalString HexadecimalString.
Import ListNotations.

Local Open Scope Z_scope.
Local Open Scope bool_scope.

Set Implicit Arguments.

(** ** Machine integers *)

Definition INT_MAX : Z := 2147483647.
Definition UINT_MAX : Z := 4294967295.

(** Conversion to [int] (32 bits, two's complement). *)
Definition to_int (z : Z) : Z := (z + 2147483648) mod 4294967296 - 2147483648.

(** Conversion to [unsigned int] (32 bits). *)
Definition to_uint (z : Z) : Z := z mod 4294967296.

(** ** boost::system::error_code *)

Inductive error_code : Type :=
| success
| operation_aborted
| would_block
| operation_not_supported
| bad_descriptor
| invalid_argument
| already_open
| system_error (errno : positive).

Definition error_code_eqb (a b : error_code) : bool :=
  match a, b with
  | success, success => true
  | operation_aborted, operation_aborted => true
  | would_block, would_block => true
  | operation_not_supported, operation_not_supported => true
  | bad_descriptor, bad_descriptor => true
  | invalid_argument, invalid_argument => true
  | already_open, already_open => true
  | system_error x, system_error y => Pos.eqb x y
  | _, _ => false
  end.

(** [if (ec)]: the code holds an error. *)
Definition failed (ec : error_code) : bool := negb (error_code_eqb ec success).

(** ** boost::posix_time::time_duration

    A duration is a count of ticks; with the default resolution a tick is a
    microsecond. *)

Definition time_duration : Type := Z.

Definition ticks_per_millisecond : Z := 1000.

Definition milliseconds (ms : Z) : time_duration := ms * ticks_per_millisecond.

Definition total_milliseconds (d : time_duration) : Z := d / ticks_per_millisecond.

(** ** boost::asio::ip::address

    An address is an IPv4 address of four octets or an IPv6 address of eight
    16-bit groups.  The default-constructed address is the IPv4 address
    0.0.0.0.  [from_string] follows asio over inet_pton: the text is passed
    as a C string, so it ends at its first NUL character; the IPv6 syntax
    is tried first, on the text before the first percent sign, which
    separates a zone suffix (an interface name or index); then the
    dotted-quad IPv4 syntax, on the whole text.  The scope id that a zone
    suffix selects depends on the interfaces of the host and is left out:
    an IPv6 address here is its sixteen bytes, which is all that
    is_unspecified() looks at, and [to_string] gives the text of an address
    whose scope id is 0. *)

Inductive address : Type :=
| address_v4 (octets : list Z)
| address_v6 (groups : list Z).

Definition default_address : address := address_v4 [0; 0; 0; 0].

Definition is_unspecified (a : address) : bool :=
  match a with
  | address_v4 o => forallb (Z.eqb 0) o
  | address_v6 g => forallb (Z.eqb 0) g
  end.

Definition digit_value (c : ascii) : option Z :=
  let n := Z.of_nat (nat_of_ascii c) in
  if (48 <=? n) && (n <=? 57) then Some (n - 48) else None.

Definition hex_digit_value (c : ascii) : option Z :=
  let n := Z.of_nat (nat_of_ascii c) in
  if (48 <=? n) && (n <=? 57) then Some (n - 48)
  else if (97 <=? n) && (n <=? 102) then Some (n - 87)
  else if (65 <=? n) && (n <=? 70) then Some (n - 55)
  else None.

(** inet_pton for AF_INET.  [done] holds the finished octets, [cur] the
    octet being read, [saw_digit] whether it has a digit yet. *)
Fixpoint inet_pton4_loop (src : list ascii) (done : list Z) (cur : Z)
         (saw_digit : bool) : option (list Z) :=
  match src with
  | [] =>
      if saw_digit && (Z.of_nat (List.length done) =? 3)
      then Some (done ++ [cur]) else None
  | ch :: rest =>
      match digit_value ch with
      | Some d =>
          let new := cur * 10 + d in
          if saw_digit && (cur =? 0) then None
          else if 255 <? new then None
          else if negb saw_digit && (3 <? Z.of_nat (List.length done)) then None
          else inet_pton4_loop rest done new true
      | None =>
          if (Ascii.eqb ch "."%char) && saw_digit then
            if Z.of_nat (List.length done) =? 3 then None
            else inet_pton4_loop rest (done ++ [cur]) 0 false
          else None
      end
  end.

Definition inet_pton4 (src : list ascii) : option (list Z) :=
  inet_pton4_loop src [] 0 false.

(** inet_pton for AF_INET6, on 16-bit groups.  [tp] holds the groups
    written so far, [colonp] the position of the double colon if one was
    seen, [val] and [xdigits] the group being read, [curtok] the text of the
    current token (for a trailing dotted quad). *)
Definition quad_groups (o : list Z) : list Z :=
  match o with
  | [a; b; c; d] => [a * 256 + b; c * 256 + d]
  | _ => []
  end.

Definition expand_gap (tp : list Z) (colonp : option nat) : option (list Z) :=
  match colonp with
  | None => if Nat.eqb (List.length tp) 8 then Some tp else None
  | Some p =>
      if Nat.leb 8 (List.length tp) then None
      else Some (firstn p tp ++ repeat 0 (8 - List.length tp) ++ skipn p tp)
  end.

Fixpoint inet_pton6_loop (src curtok : list ascii) (tp : list Z)
         (colonp : option nat) (val : Z) (xdigits : nat) : option (list Z) :=
  match src with
  | [] =>
      if Nat.eqb xdigits 0 then expand_gap tp colonp
      else if Nat.leb 8 (List.length tp) then None
      else expand_gap (tp ++ [val]) colonp
  | ch :: rest =>
      match hex_digit_value ch with
      | Some d =>
          if Nat.eqb xdigits 4 then None
          else inet_pton6_loop rest curtok tp colonp (val * 16 + d) (S xdigits)
      | None =>
          if Ascii.eqb ch ":"%char then
            if Nat.eqb xdigits 0 then
              match colonp with
              | Some _ => None
              | None => inet_pton6_loop rest rest tp (Some (List.length tp)) 0 0%nat
              end
            else
              match rest with
              | [] => None
              | _ =>
                  if Nat.leb 8 (List.length tp) then None
                  else inet_pton6_loop rest rest (tp ++ [val]) colonp 0 0%nat
              end
          else if Ascii.eqb ch "."%char then
            if Nat.leb (List.length tp) 6 then
              match inet_pton4 curtok with
              | Some o => expand_gap (tp ++ quad_groups o) colonp
              | None => None
              end
            else None
          else None
      end
  end.

Definition inet_pton6 (src : list ascii) : option (list Z) :=
  match src with
  | [] => None
  | c :: rest =>
      if Ascii.eqb c ":"%char then
        match rest with
        | c' :: _ =>
            if Ascii.eqb c' ":"%char then inet_pton6_loop rest rest [] None 0 0%nat
            else None
        | [] => None
        end
      else inet_pton6_loop src src [] None 0 0%nat
  end.

(** [str.c_str()] as the parser reads it: the characters before the first
    NUL. *)
Fixpoint until_nul (src : list ascii) : list ascii :=
  match src with
  | [] => []
  | ch :: rest => if Ascii.eqb ch Ascii.zero then [] else ch :: until_nul rest
  end.

Definition c_str (str : string) : list ascii :=
  until_nul (list_ascii_of_string str).

(** The text before the zone suffix: the characters before the first
    percent sign. *)
Fixpoint before_zone (src : list ascii) : list ascii :=
  match src with
  | [] => []
  | ch :: rest =>
      if Ascii.eqb ch "%"%char then [] else ch :: before_zone rest
  end.

(** [address::from_string(str, ec)]: the parsed address and a clear code, or
    the default-constructed address and an error. *)
Definition from_string (str : string) : address * error_code :=
  let src := c_str str in
  match inet_pton6 (before_zone src) with
  | Some g => (address_v6 g, success)
  | None =>
      match inet_pton4 src with
      | Some o => (address_v4 o, success)
      | None => (default_address, invalid_argument)
      end
  end.

(** [address::to_string()], after inet_ntop: dotted decimal for IPv4; for
    IPv6 lower-case hexadecimal groups with the longest run of at least two
    zero groups written as a double colon. *)
Definition decimal (n : Z) : string :=
  DecimalString.NilZero.string_of_uint (N.to_uint (Z.to_N n)).

Definition hexadecimal (n : Z) : string :=
  HexadecimalString.NilZero.string_of_uint (N.to_hex_uint (Z.to_N n)).

Definition inet_ntop4 (o : list Z) : string :=
  String.concat "." (map decimal o).

Definition longer_run (cur best : option (nat * nat)) : option (nat * nat) :=
  match cur, best with
  | None, _ => best
  | Some _, None => cur
  | Some (_, l), Some (_, bl) => if Nat.ltb bl l then cur else best
  end.

Fixpoint longest_zero_run (ws : list Z) (i : nat) (cur best : option (nat * nat))
  : option (nat * nat) :=
  match ws with
  | [] => longer_run cur best
  | w :: rest =>
      if w =? 0 then
        longest_zero_run rest (S i)
          (match cur with None => Some (i, 1%nat) | Some (b, l) => Some (b, S l) end)
          best
      else longest_zero_run rest (S i) None (longer_run cur best)
  end.

Definition in_run (i : nat) (best : option (nat * nat)) : bool :=
  match best with
  | Some (b, l) => Nat.leb b i && Nat.ltb i (b + l)
  | None => false
  end.

Definition quad_of_groups (hi lo : Z) : list Z :=
  [hi / 256; hi mod 256; lo / 256; lo mod 256].

Fixpoint inet_ntop6_loop (ws all : list Z) (i : nat) (best : option (nat * nat))
  : string :=
  match ws with
  | [] =>
      match best with
      | Some (b, l) => if Nat.eqb (b + l) 8 then ":"%string else ""%string
      | None => ""%string
      end
  | w :: rest =>
      if in_run i best then
        let colon :=
          match best with
          | Some (b, _) => if Nat.eqb i b then ":"%string else ""%string
          | None => ""%string
          end in
        String.append colon (inet_ntop6_loop rest all (S i) best)
      else
        let colon := if Nat.eqb i 0 then ""%string else ":"%string in
        let dotted_tail :=
          Nat.eqb i 6
          && match best with
             | Some (0%nat, l) =>
                 Nat.eqb l 6 || (Nat.eqb l 5 && (nth 5%nat all 0 =? 65535))
             | _ => false
             end in
        String.append colon
          (if dotted_tail
           then inet_ntop4 (quad_of_groups (nth 6%nat all 0) (nth 7%nat all 0))
           else String.append (hexadecimal w) (inet_ntop6_loop rest all (S i) best))
  end.

Definition inet_ntop6 (g : list Z) : string :=
  let best :=
    match longest_zero_run g 0 None None with
    | Some (b, l) => if Nat.ltb l 2 then None else Some (b, l)
    | None => None
    end in
  inet_ntop6_loop g g 0 best.

Definition to_string (a : address) : string :=
  match a with
  | address_v4 o => inet_ntop4 o
  | address_v6 g => inet_ntop6 g
  end.

(** ** Requests to asio and to the operating system *)

Inductive platform : Type := posix | windows.

Inductive handle : Type := serial_port | tcp_socket | tcp_acceptor.

(** The option objects of [serial_port_base], as passed to [set_option]. *)
Inductive serial_option : Type :=
| opt_baud_rate (v : Z)
| opt_character_size (v : Z)
| opt_stop_bits (v : Z)
| opt_parity (v : Z)
| opt_flow_control (v : Z).

(** Which of the two pending operations of a blocking call the io_service
    dispatches first. *)
Inductive winner : Type := io_first | timer_first.

Inductive request : Type -> Type :=
(* io_service: reset, the completions that run() dispatches, its result *)
| io_service_reset : request unit
| next_completion : request winner
| transfer_completion : request (error_code * Z)
| open_completion : request error_code
| timer_completion : request error_code
| io_service_run : request error_code
(* deadline_timer *)
| timer_expires_from_now (d : time_duration) : request unit
| timer_async_wait : request unit
| timer_cancel : request unit
(* operations on an open handle *)
| close (h : handle) : request error_code
| cancel (h : handle) : request error_code
| read_some (h : handle) (len : Z) : request (Z * error_code)
| write_some (h : handle) (len : Z) : request (Z * error_code)
| async_read (h : handle) (len : Z) : request unit
| async_write (h : handle) (len : Z) : request unit
(* serial port *)
| serial_open (device : string) : request error_code
| set_option (o : serial_option) : request error_code
| ioctl_TIOCEXCL : request Z
| flock_LOCK_EX_NB : request Z
| ioctl_FIONREAD : request (Z * Z)
| ioctl_TIOCOUTQ : request (Z * Z)
| ClearCommError : request (Z * Z * Z)
| tcflush_TCIOFLUSH : request Z
| PurgeComm : request Z
(* socket and acceptor *)
| socket_open : request error_code
| socket_non_blocking (mode : bool) : request error_code
| async_connect (a : address) (port : Z) : request unit
| acceptor_open : request error_code
| acceptor_reuse_address : request error_code
| acceptor_bind (port : Z) : request error_code
| acceptor_listen : request error_code
| async_accept : request unit.

(** A program: a result, or a request and what to do with its answer. *)
Inductive prog (A : Type) : Type :=
| Ret (a : A)
| Call (R : Type) (c : request R) (k : R -> prog A).

Arguments Ret {A} a.
Arguments Call {A R} c k.

Fixpoint bind {A B : Type} (p : prog A) (f : A -> prog B) : prog B :=
  match p with
  | Ret a => f a
  | Call c k => Call c (fun r => bind (k r) f)
  end.

Definition ask {R : Type} (c : request R) : prog R := Call c Ret.

Declare Scope prog_scope.
Delimit Scope prog_scope with prog.
Notation "x <- p ;; q" := (bind p (fun x => q))
  (at level 61, p at next level, right associativity) : prog_scope.
Notation "' pat <- p ;; q" := (bind p (fun x => match x with pat => q end))
  (at level 61, pat pattern, p at next level, right associativity) : prog_scope.
Notation "p ;; q" := (bind p (fun _ => q))
  (at level 61, right associativity) : prog_scope.
Local Open Scope prog_scope.

(** An environment answers requests; it has a state of its own, so the same
    request may be answered differently each time. *)
Record environment : Type := {
  world : Type;
  answer : forall R : Type, request R -> world -> R * world
}.

(** One request with the answer it got. *)
Inductive event : Type :=
| Ev (R : Type) (c : request R) (r : R).

Arguments Ev {R} c r.

(** Running a program in an environment: the result, the final state of the
    environment and the requests made, in order. *)
Fixpoint exec (E : environment) {A : Type} (p : prog A) (w : world E)
  : A * world E * list event :=
  match p with
  | Ret a => (a, w, [])
  | Call c k =>
      let (r, w1) := answer E c w in
      let '(a, w2, tr) := exec E (k r) w1 in
      (a, w2, Ev c r :: tr)
  end.

Definition result {A W : Type} (x : A * W * list event) : A := fst (fst x).
Definition final {A W : Type} (x : A * W * list event) : W := snd (fst x).
Definition trace {A W : Type} (x : A * W * list event) : list event := snd x.

(** *** Observations on traces *)

Definition is_read_some (e : event) : bool :=
  match e with Ev c _ => match c with read_some _ _ => true | _ => false end end.

Definition is_write_some (e : event) : bool :=
  match e with Ev c _ => match c with write_some _ _ => true | _ => false end end.

Definition is_cancel (h : handle) (e : event) : bool :=
  match e with
  | Ev c _ =>
      match c with
      | cancel serial_port => match h with serial_port => true | _ => false end
      | cancel tcp_socket => match h with tcp_socket => true | _ => false end
      | cancel tcp_acceptor => match h with tcp_acceptor => true | _ => false end
      | _ => false
      end
  end.

Definition is_async_accept (e : event) : bool :=
  match e with Ev c _ => match c with async_accept => true | _ => false end end.

Definition is_async_connect (e : event) : bool :=
  match e with Ev c _ => match c with async_connect _ _ => true | _ => false end end.

(** The answer a trace records for the completion of the transfer, of the
    connect or accept, of the timer, and for the result of run(). *)
Definition transfer_answer (e : event) : option (error_code * Z) :=
  match e with
  | Ev c r =>
      match c in request R return R -> option (error_code * Z) with
      | transfer_completion => fun r => Some r
      | _ => fun _ => None
      end r
  end.

Definition open_answer (e : event) : option error_code :=
  match e with
  | Ev c r =>
      match c in request R return R -> option error_code with
      | open_completion => fun r => Some r
      | _ => fun _ => None
      end r
  end.

Definition timer_answer (e : event) : option error_code :=
  match e with
  | Ev c r =>
      match c in request R return R -> option error_code with
      | timer_completion => fun r => Some r
      | _ => fun _ => None
      end r
  end.

Definition run_answer (e : event) : option error_code :=
  match e with
  | Ev c r =>
      match c in request R return R -> option error_code with
      | io_service_run => fun r => Some r
      | _ => fun _ => None
      end r
  end.

Definition first_answer (e : event) : option winner :=
  match e with
  | Ev c r =>
      match c in request R return R -> option winner with
      | next_completion => fun r => Some r
      | _ => fun _ => None
      end r
  end.

Definition non_blocking_answer (e : event) : option error_code :=
  match e with
  | Ev c r =>
      match c in request R return R -> option error_code with
      | socket_non_blocking _ => fun r => Some r
      | _ => fun _ => None
      end r
  end.

Fixpoint observe {A : Type} (f : event -> option A) (tr : list event) : option A :=
  match tr with
  | [] => None
  | e :: rest => match f e with Some a => Some a | None => observe f rest end
  end.

(** ** asio handles

    A handle is open or not.  Closing an open handle asks the operating
    system and leaves the handle closed whatever the answer; closing a closed
    handle does nothing and succeeds.  Synchronous operations on a closed
    handle fail with [bad_descriptor] without reaching the operating
    system. *)

Definition handle_close (h : handle) (is_open : bool) : prog error_code :=
  if is_open then ask (close h) else Ret success.

Definition handle_read_some (h : handle) (is_open : bool) (len : Z)
  : prog (Z * error_code) :=
  if is_open then ask (read_some h len) else Ret (0, bad_descriptor).

Definition handle_write_some (h : handle) (is_open : bool) (len : Z)
  : prog (Z * error_code) :=
  if is_open then ask (write_some h len) else Ret (0, bad_descriptor).

(** [io_service::run(ec)] with two operations pending, the transfer (or the
    connect or accept) and the timer: each handler is called once, in the
    order the completions arrive.  [completion] yields the arguments of the
    first handler. *)
Definition io_service_run_pending {C A : Type} (completion : prog C)
           (io_handler : C -> prog A) (timer_handler : error_code -> prog unit)
  : prog (A * error_code) :=
  first <- ask next_completion ;;
  match first with
  | io_first =>
      c <- completion ;;
      a <- io_handler c ;;
      t <- ask timer_completion ;;
      timer_handler t ;;
      ec <- ask io_service_run ;;
      Ret (a, ec)
  | timer_first =>
      t <- ask timer_completion ;;
      timer_handler t ;;
      c <- completion ;;
      a <- io_handler c ;;
      ec <- ask io_service_run ;;
      Ret (a, ec)
  end.

(** ** serial_port_base option classes

    The values of the enumerations, and the constructors, which throw
    (here: [None]) on a value outside the enumeration. *)

Module stop_bits.
Definition one : Z := 0.
Definition onepointfive : Z := 1.
Definition two : Z := 2.
Definition make (t : Z) : option Z :=
  if (t =? one) || (t =? onepointfive) || (t =? two) then Some t else None.
End stop_bits.

Module parity.
Definition none : Z := 0.
Definition odd : Z := 1.
Definition even : Z := 2.
Definition make (t : Z) : option Z :=
  if (t =? none) || (t =? odd) || (t =? even) then Some t else None.
End parity.

Module flow_control.
Definition none : Z := 0.
Definition software : Z := 1.
Definition hardware : Z := 2.
Definition make (t : Z) : option Z :=
  if (t =? none) || (t =? software) || (t =? hardware) then Some t else None.
End flow_control.

Module character_size.
Definition make (t : Z) : option Z :=
  if (t <? 5) || (8 <? t) then None else Some t.
End character_size.

(** What a constructor yields: the object, or the message of the
    [std::invalid_argument] it throws. *)
Inductive constructed (T : Type) : Type :=
| object (x : T)
| throws (what : string).

Arguments object {T} x.
Arguments throws {T} what.

(** ** ComSerial *)

Module ComSerial.

Record t : Type := {
  m_port : bool;                   (* m_port.is_open() *)
  m_write_timeout : time_duration;
  m_read_timeout : time_duration;
  m_device : string;
  m_baud_rate : Z;
  m_data_bits : Z;
  m_stop_bits : Z;
  m_parity : Z;
  m_flow_control : Z
}.

Definition with_port (b : bool) (s : t) : t :=
  {| m_port := b; m_write_timeout := m_write_timeout s;
     m_read_timeout := m_read_timeout s; m_device := m_device s;
     m_baud_rate := m_baud_rate s; m_data_bits := m_data_bits s;
     m_stop_bits := m_stop_bits s; m_parity := m_parity s;
     m_flow_control := m_flow_control s |}.

Definition with_write_timeout (d : time_duration) (s : t) : t :=
  {| m_port := m_port s; m_write_timeout := d;
     m_read_timeout := m_read_timeout s; m_device := m_device s;
     m_baud_rate := m_baud_rate s; m_data_bits := m_data_bits s;
     m_stop_bits := m_stop_bits s; m_parity := m_parity s;
     m_flow_control := m_flow_control s |}.

Definition with_read_timeout (d : time_duration) (s : t) : t :=
  {| m_port := m_port s; m_write_timeout := m_write_timeout s;
     m_read_timeout := d; m_device := m_device s;
     m_baud_rate := m_baud_rate s; m_data_bits := m_data_bits s;
     m_stop_bits := m_stop_bits s; m_parity := m_parity s;
     m_flow_control := m_flow_control s |}.

Definition with_device (d : string) (s : t) : t :=
  {| m_port := m_port s; m_write_timeout := m_write_timeout s;
     m_read_timeout := m_read_timeout s; m_device := d;
     m_baud_rate := m_baud_rate s; m_data_bits := m_data_bits s;
     m_stop_bits := m_stop_bits s; m_parity := m_parity s;
     m_flow_control := m_flow_control s |}.

Definition with_baud_rate (v : Z) (s : t) : t :=
  {| m_port := m_port s; m_write_timeout := m_write_timeout s;
     m_read_timeout := m_read_timeout s; m_device := m_device s;
     m_baud_rate := v; m_data_bits := m_data_bits s;
     m_stop_bits := m_stop_bits s; m_parity := m_parity s;
     m_flow_control := m_flow_control s |}.

Definition with_data_bits (v : Z) (s : t) : t :=
  {| m_port := m_port s; m_write_timeout := m_write_timeout s;
     m_read_timeout := m_read_timeout s; m_device := m_device s;
     m_baud_rate := m_baud_rate s; m_data_bits := v;
     m_stop_bits := m_stop_bits s; m_parity := m_parity s;
     m_flow_control := m_flow_control s |}.

Definition with_stop_bits (v : Z) (s : t) : t :=
  {| m_port := m_port s; m_write_timeout := m_write_timeout s;
     m_read_timeout := m_read_timeout s; m_device := m_device s;
     m_baud_rate := m_baud_rate s; m_data_bits := m_data_bits s;
     m_stop_bits := v; m_parity := m_parity s;
     m_flow_control := m_flow_control s |}.

Definition with_parity (v : Z) (s : t) : t :=
  {| m_port := m_port s; m_write_timeout := m_write_timeout s;
     m_read_timeout := m_read_timeout s; m_device := m_device s;
     m_baud_rate := m_baud_rate s; m_data_bits := m_data_bits s;
     m_stop_bits := m_stop_bits s; m_parity := v;
     m_flow_control := m_flow_control s |}.

Definition with_flow_control (v : Z) (s : t) : t :=
  {| m_port := m_port s; m_write_timeout := m_write_timeout s;
     m_read_timeout := m_read_timeout s; m_device := m_device s;
     m_baud_rate := m_baud_rate s; m_data_bits := m_data_bits s;
     m_stop_bits := m_stop_bits s; m_parity := m_parity s;
     m_flow_control := v |}.

(** The members as their default constructors leave them, before the body
    of the constructor runs. *)
Definition members_default : t :=
  {| m_port := false; m_write_timeout := 0; m_read_timeout := 0;
     m_device := ""; m_baud_rate := 0; m_data_bits := 8;
     m_stop_bits := stop_bits.one; m_parity := parity.none;
     m_flow_control := flow_control.none |}.

(** *** Timeouts *)

Definition SetWriteTimeout (write_timeout : Z) (s : t) : bool * t :=
  if write_timeout =? 0 then (false, s)
  else (true, with_write_timeout (milliseconds write_timeout) s).

Definition GetWriteTimeout (s : t) : Z :=
  to_uint (total_milliseconds (m_write_timeout s)).

Definition SetReadTimeout (read_timeout : Z) (s : t) : bool * t :=
  if read_timeout =? 0 then (false, s)
  else (true, with_read_timeout (milliseconds read_timeout) s).

Definition GetReadTimeout (s : t) : Z :=
  to_uint (total_milliseconds (m_read_timeout s)).

(** *** Line configuration *)

Definition SetDevice (device : string) (s : t) : bool * t :=
  if String.eqb device "" then (false, s)
  else (true, with_device device s).

Definition GetDevice (s : t) : string := m_device s.

Definition SetBaudRate (baud_rate : Z) (s : t) : bool * t :=
  if baud_rate =? 0 then (false, s)
  else (true, with_baud_rate baud_rate s).

Definition GetBaudRate (s : t) : Z := m_baud_rate s.

Definition SetDataBits (data_bits : Z) (s : t) : bool * t :=
  match character_size.make data_bits with
  | Some v => (true, with_data_bits v s)
  | None => (false, s)
  end.

Definition GetDataBits (s : t) : Z := m_data_bits s.

Definition SetStopBits (stop_bits : Z) (s : t) : bool * t :=
  let store (v : Z) :=
    match stop_bits.make v with
    | Some o => (true, with_stop_bits o s)
    | None => (false, s)
    end in
  if stop_bits =? 1 then store stop_bits.one
  else if stop_bits =? 2 then store stop_bits.two
  else if stop_bits =? 3 then store stop_bits.onepointfive
  else (false, s).

Definition GetStopBits (s : t) : Z :=
  let v := m_stop_bits s in
  if v =? stop_bits.one then 1
  else if v =? stop_bits.two then 2
  else if v =? stop_bits.onepointfive then 3
  else 0.

Definition SetParity (parity : ascii) (s : t) : bool * t :=
  let store (v : Z) :=
    match parity.make v with
    | Some o => (true, with_parity o s)
    | None => (false, s)
    end in
  if Ascii.eqb parity "e" || Ascii.eqb parity "E" then store parity.even
  else if Ascii.eqb parity "o" || Ascii.eqb parity "O" then store parity.odd
  else if Ascii.eqb parity "n" || Ascii.eqb parity "N" then store parity.none
  else (false, s).

Definition GetParity (s : t) : ascii :=
  let v := m_parity s in
  if v =? parity.even then "e"
  else if v =? parity.odd then "o"
  else if v =? parity.none then "n"
  else Ascii.zero.

(** No try block in this setter: each constructor call is on an
    enumerator, for which [flow_control.make] is the identity. *)
Definition SetFlowControl (flow_control : ascii) (s : t) : bool * t :=
  if Ascii.eqb flow_control "h" || Ascii.eqb flow_control "H"
  then (true, with_flow_control flow_control.hardware s)
  else if Ascii.eqb flow_control "s" || Ascii.eqb flow_control "S"
  then (true, with_flow_control flow_control.software s)
  else if Ascii.eqb flow_control "n" || Ascii.eqb flow_control "N"
  then (true, with_flow_control flow_control.none s)
  else (false, s).

Definition GetFlowControl (s : t) : ascii :=
  let v := m_flow_control s in
  if v =? flow_control.hardware then "h"
  else if v =? flow_control.software then "s"
  else if v =? flow_control.none then "n"
  else Ascii.zero.

(** *** Constructor *)

Definition ComSerial (device : string) (baud_rate data_bits stop_bits : Z)
           (parity flow_control : ascii) (timeout : Z) : constructed t :=
  let (ok, s) := SetDevice device members_default in
  if negb ok then throws "invalid device name" else
  let (ok, s) := SetBaudRate baud_rate s in
  if negb ok then throws "invalid baud rate" else
  let (ok, s) := SetDataBits data_bits s in
  if negb ok then throws "invalid data bits value" else
  let (ok, s) := SetStopBits stop_bits s in
  if negb ok then throws "invalid stop bits value" else
  let (ok, s) := SetParity parity s in
  if negb ok then throws "invalid parity value" else
  let (ok, s) := SetFlowControl flow_control s in
  if negb ok then throws "invalid flow control value" else
  let (ok, s) := SetWriteTimeout timeout s in
  if negb ok then throws "invalid timeout value" else
  let (ok, s) := SetReadTimeout timeout s in
  if negb ok then throws "invalid timeout value" else
  object s.

(** *** Open, Close, Opened *)

(** The five [set_option] calls of the try block; the first that throws
    ends the block. *)
Fixpoint set_options (opts : list serial_option) : prog bool :=
  match opts with
  | [] => Ret true
  | o :: rest =>
      ec <- ask (set_option o) ;;
      if failed ec then Ret false else set_options rest
  end.

(** Exclusive access, outside Windows: TIOCEXCL, then a non-blocking
    exclusive flock. *)
Definition claim_exclusive (pf : platform) : prog bool :=
  match pf with
  | windows => Ret true
  | posix =>
      rc <- ask ioctl_TIOCEXCL ;;
      if negb (rc =? 0) then Ret false
      else
        rc' <- ask flock_LOCK_EX_NB ;;
        Ret (rc' =? 0)
  end.

Definition Open (pf : platform) (s : t) : prog (bool * t) :=
  s <- (if m_port s
        then handle_close serial_port (m_port s) ;; Ret (with_port false s)
        else Ret s) ;;
  ec <- ask (serial_open (m_device s)) ;;
  if failed ec then Ret (false, s)
  else
    let s := with_port true s in
    exclusive <- claim_exclusive pf ;;
    if negb exclusive then
      handle_close serial_port (m_port s) ;; Ret (false, with_port false s)
    else
      configured <- set_options [opt_baud_rate (m_baud_rate s);
                                 opt_character_size (m_data_bits s);
                                 opt_stop_bits (m_stop_bits s);
                                 opt_parity (m_parity s);
                                 opt_flow_control (m_flow_control s)] ;;
      if negb configured then
        handle_close serial_port (m_port s) ;; Ret (false, with_port false s)
      else Ret (true, s).

Definition Close (s : t) : prog (bool * t) :=
  '(ec, s) <- (if m_port s
               then ec <- handle_close serial_port (m_port s) ;;
                    Ret (ec, with_port false s)
               else Ret (success, s)) ;;
  if failed ec then Ret (false, s) else Ret (true, s).

Definition Opened (s : t) : bool := m_port s.

(** *** Kernel buffer queries *)

Definition available_for_read (pf : platform) : prog Z :=
  match pf with
  | windows =>
      '(ok, cbInQue, _) <- ask ClearCommError ;;
      if negb (ok =? 0) then Ret (to_int cbInQue) else Ret (-1)
  | posix =>
      '(rc, value) <- ask ioctl_FIONREAD ;;
      if rc <? 0 then Ret (-1) else Ret value
  end.

Definition pending_for_write (pf : platform) : prog Z :=
  match pf with
  | windows =>
      '(ok, _, cbOutQue) <- ask ClearCommError ;;
      if negb (ok =? 0) then Ret (to_int cbOutQue) else Ret (-1)
  | posix =>
      '(rc, value) <- ask ioctl_TIOCOUTQ ;;
      if rc <? 0 then Ret (-1) else Ret value
  end.

(** *** Non-blocking transfers *)

Definition ReadSome (pf : platform) (s : t) (len : Z) : prog Z :=
  ret_code <- available_for_read pf ;;
  if ret_code <=? 0 then Ret ret_code
  else
    '(n, ec) <- handle_read_some serial_port (m_port s) len ;;
    if failed ec then Ret (-1) else Ret (to_int n).

Definition WriteSome (pf : platform) (s : t) (len : Z) : prog Z :=
  ret_code <- pending_for_write pf ;;
  if negb (ret_code =? 0) then
    if 0 <? ret_code then Ret 0 else Ret (-1)
  else
    '(n, ec) <- handle_write_some serial_port (m_port s) len ;;
    if failed ec then Ret (-1) else Ret (to_int n).

(** *** Completion handlers *)

(** The value the handler stores through [ret_code]. *)
Definition read_write_handler (error : error_code) (bytes_transferred : Z)
  : prog Z :=
  let ret_code :=
    if failed error && negb (error_code_eqb error operation_aborted)
    then -1 else to_int bytes_transferred in
  ask timer_cancel ;;
  Ret ret_code.

Definition timeout_handler (error : error_code) : prog unit :=
  if error_code_eqb error operation_aborted then Ret tt
  else ask (cancel serial_port) ;; Ret tt.

(** *** Blocking transfers *)

Definition Read (s : t) (len : Z) : prog Z :=
  ask io_service_reset ;;
  ask (timer_expires_from_now (m_read_timeout s)) ;;
  ask timer_async_wait ;;
  ask (async_read serial_port len) ;;
  '(ret_code, ec) <- io_service_run_pending (ask transfer_completion)
                       (fun c => read_write_handler (fst c) (snd c))
                       timeout_handler ;;
  if failed ec then Ret (-1) else Ret ret_code.

Definition Write (s : t) (len : Z) : prog Z :=
  ask io_service_reset ;;
  ask (timer_expires_from_now (m_write_timeout s)) ;;
  ask timer_async_wait ;;
  ask (async_write serial_port len) ;;
  '(ret_code, ec) <- io_service_run_pending (ask transfer_completion)
                       (fun c => read_write_handler (fst c) (snd c))
                       timeout_handler ;;
  if failed ec then Ret (-1) else Ret ret_code.

Definition Abort (s : t) : prog unit :=
  ask timer_cancel ;;
  ask (cancel serial_port) ;;
  Ret tt.

Definition Flush (pf : platform) (s : t) : prog bool :=
  match pf with
  | windows => r <- ask PurgeComm ;; Ret (negb (r =? 0))
  | posix => r <- ask tcflush_TCIOFLUSH ;; Ret (r =? 0)
  end.

End ComSerial.

(** ** ComSocket *)

Module ComSocket.

Record t : Type := {
  m_socket : bool;                 (* m_socket.is_open() *)
  m_acceptor : bool;               (* m_acceptor.is_open() *)
  m_write_timeout : time_duration;
  m_read_timeout : time_duration;
  m_open_timeout : time_duration;
  m_address : address;
  m_port : Z
}.

Definition with_socket (b : bool) (s : t) : t :=
  {| m_socket := b; m_acceptor := m_acceptor s;
     m_write_timeout := m_write_timeout s; m_read_timeout := m_read_timeout s;
     m_open_timeout := m_open_timeout s; m_address := m_address s;
     m_port := m_port s |}.

Definition with_acceptor (b : bool) (s : t) : t :=
  {| m_socket := m_socket s; m_acceptor := b;
     m_write_timeout := m_write_timeout s; m_read_timeout := m_read_timeout s;
     m_open_timeout := m_open_timeout s; m_address := m_address s;
     m_port := m_port s |}.

Definition with_write_timeout (d : time_duration) (s : t) : t :=
  {| m_socket := m_socket s; m_acceptor := m_acceptor s;
     m_write_timeout := d; m_read_timeout := m_read_timeout s;
     m_open_timeout := m_open_timeout s; m_address := m_address s;
     m_port := m_port s |}.

Definition with_read_timeout (d : time_duration) (s : t) : t :=
  {| m_socket := m_socket s; m_acceptor := m_acceptor s;
     m_write_timeout := m_write_timeout s; m_read_timeout := d;
     m_open_timeout := m_open_timeout s; m_address := m_address s;
     m_port := m_port s |}.

Definition with_open_timeout (d : time_duration) (s : t) : t :=
  {| m_socket := m_socket s; m_acceptor := m_acceptor s;
     m_write_timeout := m_write_timeout s; m_read_timeout := m_read_timeout s;
     m_open_timeout := d; m_address := m_address s;
     m_port := m_port s |}.

Definition with_address (a : address) (s : t) : t :=
  {| m_socket := m_socket s; m_acceptor := m_acceptor s;
     m_write_timeout := m_write_timeout s; m_read_timeout := m_read_timeout s;
     m_open_timeout := m_open_timeout s; m_address := a;
     m_port := m_port s |}.

Definition with_port (p : Z) (s : t) : t :=
  {| m_socket := m_socket s; m_acceptor := m_acceptor s;
     m_write_timeout := m_write_timeout s; m_read_timeout := m_read_timeout s;
     m_open_timeout := m_open_timeout s; m_address := m_address s;
     m_port := p |}.

(** The members as their default constructors leave them, before the body
    of the constructor runs ([m_port] has no initialiser; the body sets it
    before anything reads it). *)
Definition members_default : t :=
  {| m_socket := false; m_acceptor := false;
     m_write_timeout := 0; m_read_timeout := 0; m_open_timeout := 0;
     m_address := default_address; m_port := 0 |}.

(** *** Timeouts *)

Definition SetWriteTimeout (write_timeout : Z) (s : t) : bool * t :=
  if write_timeout =? 0 then (false, s)
  else (true, with_write_timeout (milliseconds write_timeout) s).

Definition GetWriteTimeout (s : t) : Z :=
  to_uint (total_milliseconds (m_write_timeout s)).

Definition SetReadTimeout (read_timeout : Z) (s : t) : bool * t :=
  if read_timeout =? 0 then (false, s)
  else (true, with_read_timeout (milliseconds read_timeout) s).

Definition GetReadTimeout (s : t) : Z :=
  to_uint (total_milliseconds (m_read_timeout s)).

Definition SetOpenTimeout (open_timeout : Z) (s : t) : bool * t :=
  if open_timeout =? 0 then (false, s)
  else (true, with_open_timeout (milliseconds open_timeout) s).

Definition GetOpenTimeout (s : t) : Z :=
  to_uint (total_milliseconds (m_open_timeout s)).

(** *** Address and port *)

Definition SetAddress (address : string) (s : t) : bool * t :=
  let (a, ec) :=
    if String.eqb address "" then (default_address, success)
    else from_string address in
  if failed ec then (false, with_address a s) else (true, with_address a s).

Definition GetAddress (s : t) : string :=
  if is_unspecified (m_address s) then ""%string
  else to_string (m_address s).

Definition SetPort (port : Z) (s : t) : bool * t :=
  if 65535 <? port then (false, s) else (true, with_port port s).

Definition GetPort (s : t) : Z := m_port s.

(** *** Constructor *)

Definition ComSocket (address : string) (port timeout : Z) : constructed t :=
  let (ok, s) := SetAddress address members_default in
  if negb ok then throws "invalid IP address" else
  let (ok, s) := SetPort port s in
  if negb ok then throws "invalid TCP port" else
  let (ok, s) := SetOpenTimeout timeout s in
  if negb ok then throws "invalid timeout value" else
  let (ok, s) := SetWriteTimeout timeout s in
  if negb ok then throws "invalid timeout value" else
  let (ok, s) := SetReadTimeout timeout s in
  if negb ok then throws "invalid timeout value" else
  object s.

(** *** Completion handlers *)

(** The value the handler stores through [ret_code]. *)
Definition open_handler (error : error_code) : prog bool :=
  let ret_code :=
    if failed error && negb (error_code_eqb error operation_aborted)
    then false else true in
  ask timer_cancel ;;
  Ret ret_code.

Definition read_write_handler (error : error_code) (bytes_transferred : Z)
  : prog Z :=
  let ret_code :=
    if failed error && negb (error_code_eqb error operation_aborted)
    then -1 else to_int bytes_transferred in
  ask timer_cancel ;;
  Ret ret_code.

Definition timeout_handler (error : error_code) : prog unit :=
  if error_code_eqb error operation_aborted then Ret tt
  else ask (cancel tcp_socket) ;; Ret tt.

Definition timeout_accept_handler (error : error_code) : prog unit :=
  if error_code_eqb error operation_aborted then Ret tt
  else ask (cancel tcp_acceptor) ;; Ret tt.

(** *** Open, Close, Opened *)

(** The try block of the server branch: open, reuse_address, bind,
    listen; the first that throws ends the block.  The result is whether
    the block ran to its end, and whether the acceptor is open. *)
Definition acceptor_setup (was_open : bool) (port : Z) : prog (bool * bool) :=
  ec <- ask acceptor_open ;;
  if failed ec then Ret (false, was_open) else
  ec <- ask acceptor_reuse_address ;;
  if failed ec then Ret (false, true) else
  ec <- ask (acceptor_bind port) ;;
  if failed ec then Ret (false, true) else
  ec <- ask acceptor_listen ;;
  if failed ec then Ret (false, true) else
  Ret (true, true).

(** [m_socket.async_connect]: a closed socket is opened first; if that
    fails the handler is called with the error of the open ([Some]). *)
Definition socket_async_connect (s : t) : prog (t * option error_code) :=
  if m_socket s then
    ask (async_connect (m_address s) (m_port s)) ;; Ret (s, None)
  else
    ec <- ask socket_open ;;
    if failed ec then Ret (s, Some ec)
    else
      ask (async_connect (m_address s) (m_port s)) ;;
      Ret (with_socket true s, None).

(** [m_socket.non_blocking(true, ec)]. *)
Definition socket_set_non_blocking (s : t) : prog error_code :=
  if m_socket s then ask (socket_non_blocking true) else Ret bad_descriptor.

(** The end of Open, common to both branches. *)
Definition Open_finish (s : t) (ret_code : bool) (ec : error_code)
  : prog (bool * t) :=
  if failed ec then Ret (false, s)
  else
    ec <- socket_set_non_blocking s ;;
    if failed ec then
      handle_close tcp_socket (m_socket s) ;;
      Ret (false, with_socket false s)
    else Ret (ret_code, s).

Definition Open (s : t) : prog (bool * t) :=
  ask io_service_reset ;;
  s <- (if m_socket s
        then handle_close tcp_socket (m_socket s) ;; Ret (with_socket false s)
        else Ret s) ;;
  if is_unspecified (m_address s) then
    ask (timer_expires_from_now (m_open_timeout s)) ;;
    ask timer_async_wait ;;
    '(ok, acceptor_is_open) <- acceptor_setup (m_acceptor s) (m_port s) ;;
    if negb ok then
      handle_close tcp_acceptor acceptor_is_open ;;
      Ret (false, with_acceptor false s)
    else
      ask async_accept ;;
      '(ret_code, error, ec) <-
        io_service_run_pending (ask open_completion)
          (fun error => ret_code <- open_handler error ;; Ret (ret_code, error))
          timeout_accept_handler ;;
      (* the accepted connection, if any, is now m_socket *)
      let s := with_socket (negb (failed error)) s in
      ec_acceptor_close <- handle_close tcp_acceptor acceptor_is_open ;;
      let s := with_acceptor false s in
      let ec := if failed ec_acceptor_close then ec_acceptor_close else ec in
      Open_finish s ret_code ec
  else
    ask (timer_expires_from_now (m_open_timeout s)) ;;
    ask timer_async_wait ;;
    '(s, open_error) <- socket_async_connect s ;;
    '(ret_code, ec) <-
      io_service_run_pending
        (match open_error with
         | Some e => Ret e
         | None => ask open_completion
         end)
        open_handler timeout_handler ;;
    Open_finish s ret_code ec.

Definition Close (s : t) : prog (bool * t) :=
  '(ec, s) <- (if m_socket s
               then ec <- handle_close tcp_socket (m_socket s) ;;
                    Ret (ec, with_socket false s)
               else Ret (success, s)) ;;
  if failed ec then Ret (false, s) else Ret (true, s).

Definition Opened (s : t) : bool := m_socket s.

(** *** Non-blocking transfers *)

Definition ReadSome (s : t) (len : Z) : prog Z :=
  '(n, ec) <- handle_read_some tcp_socket (m_socket s) len ;;
  if failed ec then
    if error_code_eqb ec would_block then Ret 0 else Ret (-1)
  else Ret (to_int n).

Definition WriteSome (s : t) (len : Z) : prog Z :=
  '(n, ec) <- handle_write_some tcp_socket (m_socket s) len ;;
  if failed ec then
    if error_code_eqb ec would_block then Ret 0 else Ret (-1)
  else Ret (to_int n).

(** *** Blocking transfers *)

Definition Read (s : t) (len : Z) : prog Z :=
  ask io_service_reset ;;
  ask (timer_expires_from_now (m_read_timeout s)) ;;
  ask timer_async_wait ;;
  ask (async_read tcp_socket len) ;;
  '(ret_code, ec) <- io_service_run_pending (ask transfer_completion)
                       (fun c => read_write_handler (fst c) (snd c))
                       timeout_handler ;;
  if failed ec then Ret (-1) else Ret ret_code.

Definition Write (s : t) (len : Z) : prog Z :=
  ask io_service_reset ;;
  ask (timer_expires_from_now (m_write_timeout s)) ;;
  ask timer_async_wait ;;
  ask (async_write tcp_socket len) ;;
  '(ret_code, ec) <- io_service_run_pending (ask transfer_completion)
                       (fun c => read_write_handler (fst c) (snd c))
                       timeout_handler ;;
  if failed ec then Ret (-1) else Ret ret_code.

Definition Abort (s : t) : prog t :=
  ask timer_cancel ;;
  ec <- ask (cancel tcp_socket) ;;
  s <- (if error_code_eqb ec operation_not_supported
        then handle_close tcp_socket (m_socket s) ;; Ret (with_socket false s)
        else Ret s) ;;
  ec <- ask (cancel tcp_acceptor) ;;
  if error_code_eqb ec operation_not_supported
  then handle_close tcp_acceptor (m_acceptor s) ;; Ret (with_acceptor false s)
  else Ret s.

End ComSocket.

(** ** Sequences of calls on a ComSerial *)

Module SerialSession.
Import ComSerial.

(** The methods that can change the object, with their arguments. *)
Inductive method : Type :=
| call_Open
| call_Close
| call_ReadSome (len : Z)
| call_WriteSome (len : Z)
| call_Read (len : Z)
| call_Write (len : Z)
| call_Abort
| call_Flush
| call_SetWriteTimeout (write_timeout : Z)
| call_SetReadTimeout (read_timeout : Z)
| call_SetDevice (device : string)
| call_SetBaudRate (baud_rate : Z)
| call_SetDataBits (data_bits : Z)
| call_SetStopBits (stop_bits : Z)
| call_SetParity (parity : ascii)
| call_SetFlowControl (flow_control : ascii).

(** The object after one call; the value the call returns is dropped. *)
Definition invoke (pf : platform) (m : method) (s : t) : prog t :=
  match m with
  | call_Open => r <- Open pf s ;; Ret (snd r)
  | call_Close => r <- Close s ;; Ret (snd r)
  | call_ReadSome len => ReadSome pf s len ;; Ret s
  | call_WriteSome len => WriteSome pf s len ;; Ret s
  | call_Read len => Read s len ;; Ret s
  | call_Write len => Write s len ;; Ret s
  | call_Abort => Abort s ;; Ret s
  | call_Flush => Flush pf s ;; Ret s
  | call_SetWriteTimeout x => Ret (snd (SetWriteTimeout x s))
  | call_SetReadTimeout x => Ret (snd (SetReadTimeout x s))
  | call_SetDevice x => Ret (snd (SetDevice x s))
  | call_SetBaudRate x => Ret (snd (SetBaudRate x s))
  | call_SetDataBits x => Ret (snd (SetDataBits x s))
  | call_SetStopBits x => Ret (snd (SetStopBits x s))
  | call_SetParity x => Ret (snd (SetParity x s))
  | call_SetFlowControl x => Ret (snd (SetFlowControl x s))
  end.

(** The states of an object: what the constructor returns, and what any
    call in any environment makes of a reachable state. *)
Inductive reachable (pf : platform) : t -> Prop :=
| reach_constructed :
    forall device baud_rate data_bits stop_bits parity flow_control timeout s,
      ComSerial device baud_rate data_bits stop_bits parity flow_control timeout
      = object s ->
      reachable pf s
| reach_invoke :
    forall (E : environment) (w : world E) (m : method) (s : t),
      reachable pf s ->
      reachable pf (result (exec E (invoke pf m s) w)).

End SerialSession.

(** ** Which side of a connection Open works on *)

Definition is_accept_side (e : event) : bool :=
  match e with
  | Ev c _ =>
      match c with
      | acceptor_open | acceptor_reuse_address | acceptor_bind _
      | acceptor_listen | async_accept => true
      | _ => false
      end
  end.

Definition is_connect_side (e : event) : bool :=
  match e with
  | Ev c _ =>
      match c with
      | socket_open | async_connect _ _ => true
      | _ => false
      end
  end.

(** ** Concrete environments *)

(** An environment without state, answering by a fixed table. *)
Definition scripted (table : forall R : Type, request R -> R) : environment :=
  {| world := unit; answer := fun R c w => (table R c, w) |}.

(** Everything succeeds at once: transfers complete in full before the
    deadline, the kernel buffers are empty. *)
Definition all_well (R : Type) (c : request R) : R :=
  match c in request R return R with
  | io_service_reset => tt
  | next_completion => io_first
  | transfer_completion => (success, 0)
  | open_completion => success
  | timer_completion => operation_aborted
  | io_service_run => success
  | timer_expires_from_now _ => tt
  | timer_async_wait => tt
  | timer_cancel => tt
  | close _ => success
  | cancel _ => success
  | read_some _ len => (len, success)
  | write_some _ len => (len, success)
  | async_read _ _ => tt
  | async_write _ _ => tt
  | serial_open _ => success
  | set_option _ => success
  | ioctl_TIOCEXCL => 0
  | flock_LOCK_EX_NB => 0
  | ioctl_FIONREAD => (0, 0)
  | ioctl_TIOCOUTQ => (0, 0)
  | ClearCommError => (1, 0, 0)
  | tcflush_TCIOFLUSH => 0
  | PurgeComm => 1
  | socket_open => success
  | socket_non_blocking _ => success
  | async_connect _ _ => tt
  | acceptor_open => success
  | acceptor_reuse_address => success
  | acceptor_bind _ => success
  | acceptor_listen => success
  | async_accept => tt
  end.

(** The deadline passes first: the timer completes without error, the
    pending operation is cancelled after [n] bytes and completes with
    [operation_aborted]. *)
Definition deadline_passes (n : Z) (R : Type) (c : request R) : R :=
  match c in request R return R with
  | next_completion => timer_first
  | timer_completion => success
  | transfer_completion => (operation_aborted, n)
  | open_completion => operation_aborted
  | c' => all_well c'
  end.

(** The deadline passes first and the transfer is cancelled after [n]
    bytes, as in [deadline_passes], but run() itself reports an error. *)
Definition run_fails_after_deadline (n : Z) (R : Type) (c : request R) : R :=
  match c in request R return R with
  | io_service_run => system_error 22
  | c' => deadline_passes n c'
  end.

(** The kernel reports [inq] bytes to read and [outq] bytes still to write
    (a negative number: the query fails). *)
Definition kernel_buffers (inq outq : Z) (R : Type) (c : request R) : R :=
  match c in request R return R with
  | ioctl_FIONREAD => if inq <? 0 then (-1, 0) else (0, inq)
  | ioctl_TIOCOUTQ => if outq <? 0 then (-1, 0) else (0, outq)
  | ClearCommError => if (inq <? 0) || (outq <? 0) then (0, 0, 0) else (1, inq, outq)
  | c' => all_well c'
  end.

(** Closing fails with an error of the operating system. *)
Definition close_fails (R : Type) (c : request R) : R :=
  match c in request R return R with
  | close _ => system_error 5
  | c' => all_well c'
  end.

(** The objects of the example program. *)
Definition example_serial : ComSerial.t :=
  match ComSerial.ComSerial "COM1" 38400 8 1 "n" "h" 1000 with
  | object s => s
  | throws _ => ComSerial.members_default
  end.

Definition example_client : ComSocket.t :=
  match ComSocket.ComSocket "192.168.1.100" 3444 1000 with
  | object s => s
  | throws _ => ComSocket.members_default
  end.

Definition example_server : ComSocket.t :=
  match ComSocket.ComSocket "" 3444 1000 with
  | object s => s
  | throws _ => ComSocket.members_default
  end.

(** ** What holds of every run

    [always P p]: whatever the answers, the result of [p] and the events of
    the run satisfy [P]. *)
Fixpoint always {A : Type} (P : A -> list event -> Prop) (p : prog A) : Prop :=
  match p with
  | Ret a => P a []
  | Call c k => forall r, always (fun a tr => P a (Ev c r :: tr)) (k r)
  end.

(** ** Vocabulary of the statements *)

(** The characters SetParity has a case label for. *)
Definition parity_code (c : ascii) : Prop :=
  c = "e"%char \/ c = "E"%char \/ c = "o"%char \/ c = "O"%char \/
  c = "n"%char \/ c = "N"%char.

(** The line configuration reads back as one of the documented codes. *)
Definition valid_line_codes (s : ComSerial.t) : Prop :=
  (ComSerial.GetStopBits s = 1 \/ ComSerial.GetStopBits s = 2 \/
   ComSerial.GetStopBits s = 3) /\
  (ComSerial.GetParity s = "e"%char \/ ComSerial.GetParity s = "o"%char \/
   ComSerial.GetParity s = "n"%char) /\
  (ComSerial.GetFlowControl s = "h"%char \/ ComSerial.GetFlowControl s = "s"%char \/
   ComSerial.GetFlowControl s = "n"%char).

(** The stored option values are enumerators. *)
Definition enumerators_stored (s : ComSerial.t) : Prop :=
  (ComSerial.m_stop_bits s = stop_bits.one \/
   ComSerial.m_stop_bits s = stop_bits.onepointfive \/
   ComSerial.m_stop_bits s = stop_bits.two) /\
  (ComSerial.m_parity s = parity.none \/ ComSerial.m_parity s = parity.odd \/
   ComSerial.m_parity s = parity.even) /\
  (ComSerial.m_flow_control s = flow_control.none \/
   ComSerial.m_flow_control s = flow_control.software \/
   ComSerial.m_flow_control s = flow_control.hardware).

(** Two objects with the same line configuration. *)
Definition same_line (s s' : ComSerial.t) : Prop :=
  ComSerial.m_stop_bits s' = ComSerial.m_stop_bits s /\
  ComSerial.m_parity s' = ComSerial.m_parity s /\
  ComSerial.m_flow_control s' = ComSerial.m_flow_control s.

(** The four blocking transfers. *)
Inductive blocking_transfer : Type :=
| serial_Read (s : ComSerial.t)
| serial_Write (s : ComSerial.t)
| socket_Read (s : ComSocket.t)
| socket_Write (s : ComSocket.t).

Definition transfer_program (c : blocking_transfer) (len : Z) : prog Z :=
  match c with
  | serial_Read s => ComSerial.Read s len
  | serial_Write s => ComSerial.Write s len
  | socket_Read s => ComSocket.Read s len
  | socket_Write s => ComSocket.Write s len
  end.

Definition transfer_handle (c : blocking_transfer) : handle :=
  match c with
  | serial_Read _ | serial_Write _ => serial_port
  | socket_Read _ | socket_Write _ => tcp_socket
  end.

(** What C2 says of one blocking transfer on handle [h] that returned
    [ret] after the events [tr]: which completion came first, both
    completions and the result of run() are on record; a timer that came
    first and expired has the transfer cancelled; and a cancelled transfer
    for which run() reports no error returns its byte count, as an int. *)
Definition timeout_is_a_short_count (h : handle) (ret : Z) (tr : list event) : Prop :=
  exists (first : winner) (t e : error_code) (n : Z) (ec : error_code),
    observe first_answer tr = Some first /\
    observe timer_answer tr = Some t /\
    observe transfer_answer tr = Some (e, n) /\
    observe run_answer tr = Some ec /\
    (first = timer_first -> t = success -> existsb (is_cancel h) tr = true) /\
    (e = operation_aborted -> failed ec = false -> ret = to_int n).

(** In every environment Open works on the accepting side only, or on the
    connecting side only. *)
Definition opens_as_server (s : ComSocket.t) : Prop :=
  forall (E : environment) (w : world E),
    existsb is_accept_side (trace (exec E (ComSocket.Open s) w)) = true /\
    existsb is_connect_side (trace (exec E (ComSocket.Open s) w)) = false.

Definition opens_as_client (s : ComSocket.t) : Prop :=
  forall (E : environment) (w : world E),
    existsb is_connect_side (trace (exec E (ComSocket.Open s) w)) = true /\
    existsb is_accept_side (trace (exec E (ComSocket.Open s) w)) = false.

(** ** Further observations on traces *)

Definition handle_eqb (a b : handle) : bool :=
  match a, b with
  | serial_port, serial_port => true
  | tcp_socket, tcp_socket => true
  | tcp_acceptor, tcp_acceptor => true
  | _, _ => false
  end.

Definition is_close (h : handle) (e : event) : bool :=
  match e with
  | Ev c _ => match c with close h' => handle_eqb h h' | _ => false end
  end.

Definition close_answer (h : handle) (e : event) : option error_code :=
  match e with
  | Ev c r =>
      match c in request R return R -> option error_code with
      | close h' => fun r => if handle_eqb h h' then Some r else None
      | _ => fun _ => None
      end r
  end.

Definition cancel_answer (h : handle) (e : event) : option error_code :=
  match e with
  | Ev c r =>
      match c in request R return R -> option error_code with
      | cancel h' => fun r => if handle_eqb h h' then Some r else None
      | _ => fun _ => None
      end r
  end.




Definition is_timer_cancel (e : event) : bool :=
  match e with Ev c _ => match c with timer_cancel => true | _ => false end end.

(** A request that belongs to [io_service::run]. *)
Definition is_run (e : event) : bool :=
  match e with
  | Ev c _ =>
      match c with
      | next_completion | transfer_completion | open_completion
      | timer_completion | io_service_run => true
      | _ => false
      end
  end.

(** The duration the timer is armed with. *)
Definition armed_duration (e : event) : option time_duration :=
  match e with
  | Ev c _ => match c with timer_expires_from_now d => Some d | _ => None end
  end.

(** The endpoint of a connect, the port of a bind. *)
Definition connect_target (e : event) : option (address * Z) :=
  match e with
  | Ev c _ => match c with async_connect a p => Some (a, p) | _ => None end
  end.

Definition bind_port (e : event) : option Z :=
  match e with
  | Ev c _ => match c with acceptor_bind p => Some p | _ => None end
  end.

Definition opened_device (e : event) : option string :=
  match e with
  | Ev c _ => match c with serial_open d => Some d | _ => None end
  end.

Definition option_set (e : event) : option serial_option :=
  match e with
  | Ev c _ => match c with set_option o => Some o | _ => None end
  end.

(** The options a run passes to [set_option], in order. *)
Fixpoint options_set (tr : list event) : list serial_option :=
  match tr with
  | [] => []
  | e :: rest =>
      match option_set e with
      | Some o => o :: options_set rest
      | None => options_set rest
      end
  end.

Definition is_exclusive_request (e : event) : bool :=
  match e with
  | Ev c _ =>
      match c with
      | ioctl_TIOCEXCL | flock_LOCK_EX_NB => true
      | _ => false
      end
  end.

Definition is_flock (e : event) : bool :=
  match e with Ev c _ => match c with flock_LOCK_EX_NB => true | _ => false end end.

Definition tiocexcl_answer (e : event) : option Z :=
  match e with
  | Ev c r =>
      match c in request R return R -> option Z with
      | ioctl_TIOCEXCL => fun r => Some r
      | _ => fun _ => None
      end r
  end.

(** The lower-case letter of an upper-case letter; any other character
    itself. *)
Definition lower_case (c : ascii) : ascii :=
  let n := nat_of_ascii c in
  if Nat.leb 65 n && Nat.leb n 90 then ascii_of_nat (n + 32) else c.

(** The characters SetFlowControl has a case label for. *)
Definition flow_control_code (c : ascii) : Prop :=
  c = "h"%char \/ c = "H"%char \/ c = "s"%char \/ c = "S"%char \/
  c = "n"%char \/ c = "N"%char.

(** ** Sequences of calls on a ComSocket *)

Module SocketSession.
Import ComSocket.

Inductive method : Type :=
| call_Open
| call_Close
| call_ReadSome (len : Z)
| call_WriteSome (len : Z)
| call_Read (len : Z)
| call_Write (len : Z)
| call_Abort
| call_SetWriteTimeout (write_timeout : Z)
| call_SetReadTimeout (read_timeout : Z)
| call_SetOpenTimeout (open_timeout : Z)
| call_SetAddress (address : string)
| call_SetPort (port : Z).

Definition invoke (m : method) (s : t) : prog t :=
  match m with
  | call_Open => r <- Open s ;; Ret (snd r)
  | call_Close => r <- Close s ;; Ret (snd r)
  | call_ReadSome len => ReadSome s len ;; Ret s
  | call_WriteSome len => WriteSome s len ;; Ret s
  | call_Read len => Read s len ;; Ret s
  | call_Write len => Write s len ;; Ret s
  | call_Abort => Abort s
  | call_SetWriteTimeout x => Ret (snd (SetWriteTimeout x s))
  | call_SetReadTimeout x => Ret (snd (SetReadTimeout x s))
  | call_SetOpenTimeout x => Ret (snd (SetOpenTimeout x s))
  | call_SetAddress x => Ret (snd (SetAddress x s))
  | call_SetPort x => Ret (snd (SetPort x s))
  end.

Inductive reachable : t -> Prop :=
| reach_constructed :
    forall address port timeout s,
      ComSocket address port timeout = object s ->
      reachable s
| reach_invoke :
    forall (E : environment) (w : world E) (m : method) (s : t),
      reachable s ->
      reachable (result (exec E (invoke m s) w)).

End SocketSession.

(** ** Further environments *)

(** The peer refuses the connection: the connect completes before the
    deadline with an error of the operating system. *)
Definition connection_refused (R : Type) (c : request R) : R :=
  match c in request R return R with
  | open_completion => system_error 111
  | c' => all_well c'
  end.


(** Another process holds the serial line: TIOCEXCL fails. *)
Definition line_is_locked (R : Type) (c : request R) : R :=
  match c in request R return R with
  | ioctl_TIOCEXCL => -1
  | c' => all_well c'
  end.

(** The transfer breaks after [n] bytes with an error of the operating
    system. *)
Definition transfer_breaks (n : Z) (R : Type) (c : request R) : R :=
  match c in request R return R with
  | transfer_completion => (system_error 5, n)
  | c' => all_well c'
  end.

(** The transfer completes in full with [n] bytes before the deadline. *)
Definition transfer_completes (n : Z) (R : Type) (c : request R) : R :=
  match c in request R return R with
  | transfer_completion => (success, n)
  | c' => all_well c'
  end.


(** Cancelling from this thread is not supported. *)
Definition cancel_unsupported (R : Type) (c : request R) : R :=
  match c in request R return R with
  | cancel _ => operation_not_supported
  | c' => all_well c'
  end.

(** ** Vocabulary of the further statements *)

(** What one blocking transfer on handle [h] that returned [ret] after the
    events [tr] did: when it cancelled the transfer, and what it returned. *)
Definition transfer_outcome (h : handle) (ret : Z) (tr : list event) : Prop :=
  existsb (is_cancel h) tr
  = match observe timer_answer tr with
    | Some t => negb (error_code_eqb t operation_aborted)
    | None => false
    end /\
  (forall ec : error_code,
     observe run_answer tr = Some ec -> failed ec = true -> ret = -1) /\
  (forall n : Z,
     0 <= n <= INT_MAX ->
     observe transfer_answer tr = Some (success, n) ->
     observe run_answer tr = Some success ->
     ret = n) /\
  (forall (e : error_code) (n : Z),
     observe transfer_answer tr = Some (e, n) ->
     e <> success -> e <> operation_aborted ->
     ret = -1).

(** What a blocking transfer returns, from the completion of the transfer
    ([e] after [n] bytes) and the result [ec] of run(): the handler stores
    -1 for an error other than [operation_aborted] and the byte count, as
    an int, otherwise; an error of run() overrides it with -1. *)
Definition transfer_return (e : error_code) (n : Z) (ec : error_code) : Z :=
  if failed ec then -1
  else if failed e && negb (error_code_eqb e operation_aborted) then -1
       else to_int n.

(** A blocking transfer that returned [ret] after the events [tr] had its
    completion dispatched and the result of run() delivered, and returned
    what [transfer_return] makes of them. *)
Definition transfer_dispatched (ret : Z) (tr : list event) : Prop :=
  exists (e : error_code) (n : Z) (ec : error_code),
    observe transfer_answer tr = Some (e, n) /\
    observe run_answer tr = Some ec /\
    ret = transfer_return e n ec.

(** The timeout a blocking transfer runs under. *)
Definition transfer_timeout (c : blocking_transfer) : time_duration :=
  match c with
  | serial_Read s => ComSerial.m_read_timeout s
  | serial_Write s => ComSerial.m_write_timeout s
  | socket_Read s => ComSocket.m_read_timeout s
  | socket_Write s => ComSocket.m_write_timeout s
  end.

Definition flock_answer (e : event) : option Z :=
  match e with
  | Ev c r =>
      match c in request R return R -> option Z with
      | flock_LOCK_EX_NB => fun r => Some r
      | _ => fun _ => None
      end r
  end.

(** The options Open passes to the port, in the order of the source. *)
Definition stored_options (s : ComSerial.t) : list serial_option :=
  [opt_baud_rate (ComSerial.GetBaudRate s);
   opt_character_size (ComSerial.GetDataBits s);
   opt_stop_bits (ComSerial.m_stop_bits s);
   opt_parity (ComSerial.m_parity s);
   opt_flow_control (ComSerial.m_flow_control s)].

(** The settings of a ComSerial that the setters guard. *)
Definition serial_settings_valid (s : ComSerial.t) : Prop :=
  ComSerial.GetDevice s <> ""%string /\
  ComSerial.GetBaudRate s <> 0 /\
  5 <= ComSerial.GetDataBits s <= 8 /\
  ComSerial.m_write_timeout s <> 0 /\
  ComSerial.m_read_timeout s <> 0.

(** The settings of a ComSocket that the setters guard, and the acceptor
    being closed. *)
Definition socket_settings_valid (s : ComSocket.t) : Prop :=
  ComSocket.GetPort s <= 65535 /\
  ComSocket.m_open_timeout s <> 0 /\
  ComSocket.m_write_timeout s <> 0 /\
  ComSocket.m_read_timeout s <> 0 /\
  ComSocket.m_acceptor s = false.

(** What the events of an Open of a ComSocket must show for it to return
    true: the connect or accept completed without error or was cancelled,
    run() reported no error, closing the acceptor (server mode) reported
    none, and the socket took the non-blocking mode. *)
Definition open_went_through (tr : list event) : Prop :=
  match observe open_answer tr with
  | Some e => e = success \/ e = operation_aborted
  | None => False
  end /\
  match observe run_answer tr with
  | Some ec => failed ec = false
  | None => False
  end /\
  match observe (close_answer tcp_acceptor) tr with
  | Some ec => failed ec = false
  | None => True
  end /\
  match observe non_blocking_answer tr with
  | Some ec => failed ec = false
  | None => False
  end.

(** ** Server mode and client mode

    What Open does in each mode, step by step.  Each step is taken once the
    one before it succeeded, so the statements say that the next request is
    on record with its answer, and what follows when that answer is no
    error. *)

Definition acceptor_open_answer (e : event) : option error_code :=
  match e with
  | Ev c r =>
      match c in request R return R -> option error_code with
      | acceptor_open => fun r => Some r
      | _ => fun _ => None
      end r
  end.

Definition reuse_address_answer (e : event) : option error_code :=
  match e with
  | Ev c r =>
      match c in request R return R -> option error_code with
      | acceptor_reuse_address => fun r => Some r
      | _ => fun _ => None
      end r
  end.

(** The port of a bind and its answer. *)
Definition bind_answer (e : event) : option (Z * error_code) :=
  match e with
  | Ev c r =>
      match c in request R return R -> option (Z * error_code) with
      | acceptor_bind p => fun r => Some (p, r)
      | _ => fun _ => None
      end r
  end.

Definition listen_answer (e : event) : option error_code :=
  match e with
  | Ev c r =>
      match c in request R return R -> option error_code with
      | acceptor_listen => fun r => Some r
      | _ => fun _ => None
      end r
  end.

Definition socket_open_answer (e : event) : option error_code :=
  match e with
  | Ev c r =>
      match c in request R return R -> option error_code with
      | socket_open => fun r => Some r
      | _ => fun _ => None
      end r
  end.

(** The request observed by [f] is on record in [tr], and if its answer is
    no error then [next] holds. *)
Definition answered (f : event -> option error_code) (tr : list event)
           (next : Prop) : Prop :=
  exists ec : error_code,
    observe f tr = Some ec /\ (failed ec = false -> next).

(** An Open that returned [ret], left the socket open or not ([opened]) and
    made the requests [tr] has worked as a server on [port]: nothing was
    asked of the connecting side; the acceptor was opened, then set to
    reuse the address, then bound to [port], then made to listen, then one
    accept was started and its completion and the result of run() were
    delivered; and when a connection was accepted and run() reported no
    error, the acceptor was closed and the socket set to non-blocking mode,
    upon which Open returned true with the socket open. *)
Definition serves_on (port : Z) (ret opened : bool) (tr : list event) : Prop :=
  existsb is_connect_side tr = false /\
  answered acceptor_open_answer tr
    (answered reuse_address_answer tr
       (exists eb : error_code,
          observe bind_answer tr = Some (port, eb) /\
          (failed eb = false ->
           answered listen_answer tr
             (List.length (filter is_async_accept tr) = 1%nat /\
              exists e ec : error_code,
                observe open_answer tr = Some e /\
                observe run_answer tr = Some ec /\
                (e = success -> failed ec = false ->
                 answered (close_answer tcp_acceptor) tr
                   (answered non_blocking_answer tr
                      (ret = true /\ opened = true))))))).

(** An Open that returned [ret], left the socket open or not ([opened]) and
    made the requests [tr] has worked as a client of [a]:[port]: nothing was
    asked of the accepting side; the socket was opened, then one connect to
    [a]:[port] was started and its completion and the result of run() were
    delivered; and when the connection was made and run() reported no
    error, the socket was set to non-blocking mode, upon which Open
    returned true with the socket open. *)
Definition connects_to (a : address) (port : Z) (ret opened : bool)
           (tr : list event) : Prop :=
  existsb is_accept_side tr = false /\
  answered socket_open_answer tr
    (observe connect_target tr = Some (a, port) /\
     List.length (filter is_async_connect tr) = 1%nat /\
     exists e ec : error_code,
       observe open_answer tr = Some e /\
       observe run_answer tr = Some ec /\
       (e = success -> failed ec = false ->
        answered non_blocking_answer tr (ret = true /\ opened = true))).

(** Server mode: in every environment Open serves on the configured port.
    Client mode: in every environment Open connects to the configured
    address and port. *)
Definition server_mode (s : ComSocket.t) : Prop :=
  forall (E : environment) (w : world E),
    let call := exec E (ComSocket.Open s) w in
    serves_on (ComSocket.m_port s) (fst (result call))
      (ComSocket.Opened (snd (result call))) (trace call).

Definition client_mode (s : ComSocket.t) : Prop :=
  forall (E : environment) (w : world E),
    let call := exec E (ComSocket.Open s) w in
    connects_to (ComSocket.m_address s) (ComSocket.m_port s)
      (fst (result call)) (ComSocket.Opened (snd (result call))) (trace call).

(** * Properties *)

(** ** Running programs *)

Lemma exec_bind :
  forall (E : environment) (A B : Type) (p : prog A) (f : A -> prog B) (w : world E),
    exec E (bind p f) w =
    let '(a, w1, t1) := exec E p w in
    let '(b, w2, t2) := exec E (f a) w1 in
    (b, w2, t1 ++ t2).
Proof.
  intros E A B p f.
  induction p as [a | R c k IH]; intros w; simpl.
  - destruct (exec E (f a) w) as [[b w2] t2]. reflexivity.
  - destruct (answer E c w) as [r w1].
    rewrite IH.
    destruct (exec E (k r) w1) as [[a w2] t1].
    destruct (exec E (f a) w2) as [[b w3] t2].
    reflexivity.
Qed.

Lemma exec_then_ret :
  forall (E : environment) (A B : Type) (p : prog A) (b : B) (w : world E),
    result (exec E (bind p (fun _ => Ret b)) w) = b.
Proof.
  intros. rewrite exec_bind.
  destruct (exec E p w) as [[a w1] t1]. reflexivity.
Qed.

Lemma always_exec :
  forall (A : Type) (P : A -> list event -> Prop) (p : prog A),
    always P p ->
    forall (E : environment) (w : world E),
      P (result (exec E p w)) (trace (exec E p w)).
Proof.
  intros A P p. revert P.
  induction p as [a | R c k IH]; intros P H E w; simpl in *.
  - exact H.
  - destruct (answer E c w) as [r w1].
    specialize (IH r _ (H r) E w1).
    destruct (exec E (k r) w1) as [[a w2] tr]. exact IH.
Qed.

(** Walking through a program: take any answer, split on every test. *)
Ltac always_step :=
  match goal with
  | |- forall _, _ => intro
  | |- always _ ?p =>
      match p with
      | context [if ?b then _ else _] =>
          let Hb := fresh "Hb" in destruct b eqn:Hb
      | context [match ?x with _ => _ end] =>
          let Hx := fresh "Hx" in destruct x eqn:Hx
      end
  end.

Ltac always_steps := simpl; repeat (always_step; simpl).

(** ** Machine integers and durations *)

Lemma to_int_small : forall n : Z, 0 <= n <= INT_MAX -> to_int n = n.
Proof.
  intros n H. unfold to_int, INT_MAX in *.
  rewrite Z.mod_small by lia. lia.
Qed.

Lemma milliseconds_round_trip :
  forall ms : Z, 0 <= ms <= UINT_MAX ->
    to_uint (total_milliseconds (milliseconds ms)) = ms.
Proof.
  intros ms H.
  unfold to_uint, total_milliseconds, milliseconds, ticks_per_millisecond, UINT_MAX in *.
  rewrite Z.div_mul by lia.
  apply Z.mod_small. lia.
Qed.

(** ** Textual addresses *)

Example from_string_dotted_quad :
  from_string "192.168.1.100" = (address_v4 [192; 168; 1; 100], success).
Proof. reflexivity. Qed.

Example from_string_unspecified :
  from_string "0.0.0.0" = (default_address, success) /\
  from_string "::" = (address_v6 [0; 0; 0; 0; 0; 0; 0; 0], success).
Proof. split; reflexivity. Qed.

Example from_string_reads_a_C_string :
  from_string (String.append "127.0.0.1" (String Ascii.zero "x"))
  = (address_v4 [127; 0; 0; 1], success) /\
  from_string "fe80::1%1" = (address_v6 [65152; 0; 0; 0; 0; 0; 0; 1], success) /\
  snd (from_string "127.0.0.1%1") = invalid_argument.
Proof. repeat split; reflexivity. Qed.

Example from_string_rejects :
  snd (from_string "COM1") = invalid_argument /\
  snd (from_string "1.2.3") = invalid_argument /\
  snd (from_string "1.2.3.256") = invalid_argument /\
  snd (from_string "1::2::3") = invalid_argument.
Proof. repeat split; reflexivity. Qed.

Example to_string_examples :
  to_string (fst (from_string "127.0.0.1")) = "127.0.0.1"%string /\
  to_string (fst (from_string "fe80:0:0:0:0:0:1:2")) = "fe80::1:2"%string /\
  to_string (fst (from_string "::1")) = "::1"%string.
Proof. repeat split; reflexivity. Qed.

(** ** C5: the timeout setters *)

(** C5.  For each of the five timeout setters (Read and Write of both
    transports, Open of the socket) and every unsigned argument [t]: with
    [t = 0] the setter returns false and leaves the object as it was, so the
    getter still returns the previous value; with [t > 0] it returns true
    and the getter then returns [t]. *)
Theorem timeout_setters_reject_zero_and_store_positive :
  forall (t : Z) (ser : ComSerial.t) (sock : ComSocket.t),
    0 <= t <= UINT_MAX ->
    (t = 0 ->
       ComSerial.SetReadTimeout t ser = (false, ser) /\
       ComSerial.SetWriteTimeout t ser = (false, ser) /\
       ComSocket.SetReadTimeout t sock = (false, sock) /\
       ComSocket.SetWriteTimeout t sock = (false, sock) /\
       ComSocket.SetOpenTimeout t sock = (false, sock) /\
       ComSerial.GetReadTimeout (snd (ComSerial.SetReadTimeout t ser))
         = ComSerial.GetReadTimeout ser /\
       ComSerial.GetWriteTimeout (snd (ComSerial.SetWriteTimeout t ser))
         = ComSerial.GetWriteTimeout ser /\
       ComSocket.GetReadTimeout (snd (ComSocket.SetReadTimeout t sock))
         = ComSocket.GetReadTimeout sock /\
       ComSocket.GetWriteTimeout (snd (ComSocket.SetWriteTimeout t sock))
         = ComSocket.GetWriteTimeout sock /\
       ComSocket.GetOpenTimeout (snd (ComSocket.SetOpenTimeout t sock))
         = ComSocket.GetOpenTimeout sock) /\
    (0 < t ->
       (fst (ComSerial.SetReadTimeout t ser) = true /\
        ComSerial.GetReadTimeout (snd (ComSerial.SetReadTimeout t ser)) = t) /\
       (fst (ComSerial.SetWriteTimeout t ser) = true /\
        ComSerial.GetWriteTimeout (snd (ComSerial.SetWriteTimeout t ser)) = t) /\
       (fst (ComSocket.SetReadTimeout t sock) = true /\
        ComSocket.GetReadTimeout (snd (ComSocket.SetReadTimeout t sock)) = t) /\
       (fst (ComSocket.SetWriteTimeout t sock) = true /\
        ComSocket.GetWriteTimeout (snd (ComSocket.SetWriteTimeout t sock)) = t) /\
       (fst (ComSocket.SetOpenTimeout t sock) = true /\
        ComSocket.GetOpenTimeout (snd (ComSocket.SetOpenTimeout t sock)) = t)).
Proof.
  intros t ser sock Hrange. split.
  - intros ->.
    unfold ComSerial.SetReadTimeout, ComSerial.SetWriteTimeout,
      ComSocket.SetReadTimeout, ComSocket.SetWriteTimeout,
      ComSocket.SetOpenTimeout.
    simpl. repeat split; reflexivity.
  - intros Hpos.
    assert (Hnz : (t =? 0) = false) by (apply Z.eqb_neq; lia).
    unfold ComSerial.SetReadTimeout, ComSerial.SetWriteTimeout,
      ComSocket.SetReadTimeout, ComSocket.SetWriteTimeout,
      ComSocket.SetOpenTimeout,
      ComSerial.GetReadTimeout, ComSerial.GetWriteTimeout,
      ComSocket.GetReadTimeout, ComSocket.GetWriteTimeout,
      ComSocket.GetOpenTimeout.
    rewrite Hnz. simpl.
    repeat split; apply milliseconds_round_trip; exact Hrange.
Qed.

Lemma timeout_setters_at_0_and_1000 :
  (ComSerial.SetReadTimeout 0 example_serial = (false, example_serial) /\
   ComSocket.SetOpenTimeout 0 example_client = (false, example_client)) /\
  (fst (ComSerial.SetReadTimeout 2500 example_serial) = true /\
   ComSerial.GetReadTimeout (snd (ComSerial.SetReadTimeout 2500 example_serial)) = 2500) /\
  (fst (ComSocket.SetOpenTimeout 10000 example_client) = true /\
   ComSocket.GetOpenTimeout (snd (ComSocket.SetOpenTimeout 10000 example_client)) = 10000).
Proof.
  assert (H0 : 0 <= 0 <= UINT_MAX) by (unfold UINT_MAX; lia).
  assert (H1 : 0 <= 2500 <= UINT_MAX) by (unfold UINT_MAX; lia).
  assert (H2 : 0 <= 10000 <= UINT_MAX) by (unfold UINT_MAX; lia).
  pose proof (proj1 (timeout_setters_reject_zero_and_store_positive
                       example_serial example_client H0) eq_refl) as Z0.
  pose proof (proj2 (timeout_setters_reject_zero_and_store_positive
                       example_serial example_client H1) ltac:(lia)) as P1.
  pose proof (proj2 (timeout_setters_reject_zero_and_store_positive
                       example_serial example_client H2) ltac:(lia)) as P2.
  split; [|split].
  - split; [exact (proj1 Z0) | exact (proj1 (proj2 (proj2 (proj2 (proj2 Z0)))))].
  - exact (proj1 P1).
  - exact (proj2 (proj2 (proj2 (proj2 P2)))).
Defined.

(** ** C7: SetParity *)

Lemma SetParity_accepts :
  forall (c : ascii) (s : ComSerial.t),
    fst (ComSerial.SetParity c s) = true <-> parity_code c.
Proof.
  intros c s. unfold ComSerial.SetParity, parity_code.
  destruct (Ascii.eqb_spec c "e"); [subst; simpl; tauto|].
  destruct (Ascii.eqb_spec c "E"); [subst; simpl; tauto|].
  destruct (Ascii.eqb_spec c "o"); [subst; simpl; tauto|].
  destruct (Ascii.eqb_spec c "O"); [subst; simpl; tauto|].
  destruct (Ascii.eqb_spec c "n"); [subst; simpl; tauto|].
  destruct (Ascii.eqb_spec c "N"); [subst; simpl; tauto|].
  simpl. split; [discriminate | tauto].
Qed.

Lemma SetParity_rejects :
  forall (c : ascii) (s : ComSerial.t),
    ~ parity_code c -> ComSerial.SetParity c s = (false, s).
Proof.
  intros c s Hc. unfold ComSerial.SetParity, parity_code in *.
  destruct (Ascii.eqb_spec c "e"); [tauto|].
  destruct (Ascii.eqb_spec c "E"); [tauto|].
  destruct (Ascii.eqb_spec c "o"); [tauto|].
  destruct (Ascii.eqb_spec c "O"); [tauto|].
  destruct (Ascii.eqb_spec c "n"); [tauto|].
  destruct (Ascii.eqb_spec c "N"); [tauto|].
  reflexivity.
Qed.

(** C7 as stated fails: the upper-case letter E is none of
    'e', 'o', 'n', and SetParity returns true for it (and stores even
    parity). *)
Lemma SetParity_upper_case_E_accepted :
  "E"%char <> "e"%char /\ "E"%char <> "o"%char /\ "E"%char <> "n"%char /\
  fst (ComSerial.SetParity "E" example_serial) = true /\
  ComSerial.GetParity (snd (ComSerial.SetParity "E" example_serial)) = "e"%char.
Proof.
  repeat split; try discriminate; reflexivity.
Qed.

(** C7, amended.  SetParity returns true exactly for the six characters
    'e', 'E', 'o', 'O', 'n', 'N' and false for every other character; with
    any other character as parity the constructor throws and no object
    exists (with arguments that pass the four checks before it, the message
    is "invalid parity value").  The body of the constructor calls the
    setters and nothing else, and no setter makes a request: the throw comes
    before the port is opened. *)
Theorem SetParity_accepts_both_cases_and_constructor_rejects_the_rest :
  forall (c : ascii),
    (forall s : ComSerial.t, fst (ComSerial.SetParity c s) = true <-> parity_code c) /\
    (forall s : ComSerial.t, fst (ComSerial.SetParity c s) = false <-> ~ parity_code c) /\
    (~ parity_code c ->
     forall (device : string) (baud_rate data_bits stop_bits : Z)
            (flow_control : ascii) (timeout : Z),
       (exists what : string,
          ComSerial.ComSerial device baud_rate data_bits stop_bits c
            flow_control timeout = throws what) /\
       (fst (ComSerial.SetDevice device ComSerial.members_default) = true ->
        baud_rate <> 0 -> 5 <= data_bits <= 8 -> 1 <= stop_bits <= 3 ->
        ComSerial.ComSerial device baud_rate data_bits stop_bits c
          flow_control timeout = throws "invalid parity value")).
Proof.
  intros c. split; [|split].
  - intros s. apply SetParity_accepts.
  - intros s. rewrite <- SetParity_accepts with (s := s).
    destruct (fst (ComSerial.SetParity c s)); split; congruence.
  - intros Hc device baud_rate data_bits stop_bits flow_control timeout.
    unfold ComSerial.ComSerial.
    destruct (ComSerial.SetDevice device ComSerial.members_default) as [ok1 s1] eqn:H1.
    destruct (ComSerial.SetBaudRate baud_rate s1) as [ok2 s2] eqn:H2.
    destruct (ComSerial.SetDataBits data_bits s2) as [ok3 s3] eqn:H3.
    destruct (ComSerial.SetStopBits stop_bits s3) as [ok4 s4] eqn:H4.
    rewrite (SetParity_rejects s4 Hc).
    split.
    + destruct ok1; simpl; [|eauto].
      destruct ok2; simpl; [|eauto].
      destruct ok3; simpl; [|eauto].
      destruct ok4; simpl; eauto.
    + simpl. intros -> Hbaud Hdata Hstop. simpl.
      assert (ok2 = true) as ->.
      { unfold ComSerial.SetBaudRate in H2.
        destruct (Z.eqb_spec baud_rate 0); [contradiction|].
        inversion H2; reflexivity. }
      assert (ok3 = true) as ->.
      { unfold ComSerial.SetDataBits, character_size.make in H3.
        destruct (Z.ltb_spec data_bits 5); [lia|].
        destruct (Z.ltb_spec 8 data_bits); [lia|].
        simpl in H3. inversion H3; reflexivity. }
      assert (ok4 = true) as ->.
      { assert (stop_bits = 1 \/ stop_bits = 2 \/ stop_bits = 3) as [-> | [-> | ->]] by lia;
          vm_compute in H4; inversion H4; reflexivity. }
      reflexivity.
Qed.

Lemma SetParity_rejects_x_at_construction :
  ~ parity_code "x" /\
  ComSerial.ComSerial "COM1" 38400 8 1 "x" "h" 1000 = throws "invalid parity value".
Proof.
  assert (Hx : ~ parity_code "x").
  { unfold parity_code. intros [H | [H | [H | [H | [H | H]]]]]; discriminate H. }
  split; [exact Hx|].
  apply (proj2 (proj2 (proj2
           (SetParity_accepts_both_cases_and_constructor_rejects_the_rest "x")) Hx
           "COM1"%string 38400 8 1 "h"%char 1000)).
  - reflexivity.
  - discriminate.
  - lia.
  - lia.
Defined.

(** ** C10: the line configuration stays valid *)

Lemma exec_bind_ret :
  forall (E : environment) (A B : Type) (p : prog A) (g : A -> B) (w : world E),
    result (exec E (bind p (fun a => Ret (g a))) w) = g (result (exec E p w)).
Proof.
  intros. rewrite exec_bind.
  destruct (exec E p w) as [[a w1] t1]. reflexivity.
Qed.

Lemma enumerators_read_back :
  forall s : ComSerial.t, enumerators_stored s -> valid_line_codes s.
Proof.
  intros s (Hs & Hp & Hf).
  unfold valid_line_codes, ComSerial.GetStopBits, ComSerial.GetParity,
    ComSerial.GetFlowControl.
  repeat split.
  - destruct Hs as [-> | [-> | ->]]; simpl; auto.
  - destruct Hp as [-> | [-> | ->]]; simpl; auto.
  - destruct Hf as [-> | [-> | ->]]; simpl; auto.
Qed.

Lemma same_line_enumerators :
  forall s s' : ComSerial.t,
    same_line s s' -> enumerators_stored s -> enumerators_stored s'.
Proof.
  intros s s' (Hs & Hp & Hf) H. unfold enumerators_stored in *.
  rewrite Hs, Hp, Hf. exact H.
Qed.

Lemma same_line_refl : forall s : ComSerial.t, same_line s s.
Proof. intros s. repeat split. Qed.

Lemma SetStopBits_enumerators :
  forall (x : Z) (s : ComSerial.t),
    enumerators_stored s -> enumerators_stored (snd (ComSerial.SetStopBits x s)).
Proof.
  intros x s H. unfold ComSerial.SetStopBits.
  destruct (x =? 1); [|destruct (x =? 2); [|destruct (x =? 3)]]; simpl; trivial;
    destruct H as (_ & Hp & Hf); unfold enumerators_stored; simpl; auto.
Qed.

Lemma SetParity_enumerators :
  forall (c : ascii) (s : ComSerial.t),
    enumerators_stored s -> enumerators_stored (snd (ComSerial.SetParity c s)).
Proof.
  intros c s H. unfold ComSerial.SetParity.
  destruct (Ascii.eqb c "e" || Ascii.eqb c "E");
    [|destruct (Ascii.eqb c "o" || Ascii.eqb c "O");
      [|destruct (Ascii.eqb c "n" || Ascii.eqb c "N")]]; simpl; trivial;
    destruct H as (Hs & _ & Hf); unfold enumerators_stored; simpl; auto.
Qed.

Lemma SetFlowControl_enumerators :
  forall (c : ascii) (s : ComSerial.t),
    enumerators_stored s -> enumerators_stored (snd (ComSerial.SetFlowControl c s)).
Proof.
  intros c s H. unfold ComSerial.SetFlowControl.
  destruct (Ascii.eqb c "h" || Ascii.eqb c "H");
    [|destruct (Ascii.eqb c "s" || Ascii.eqb c "S");
      [|destruct (Ascii.eqb c "n" || Ascii.eqb c "N")]]; simpl; trivial;
    destruct H as (Hs & Hp & _); unfold enumerators_stored; simpl; auto.
Qed.

Lemma SetWriteTimeout_same_line :
  forall (x : Z) (s : ComSerial.t), same_line s (snd (ComSerial.SetWriteTimeout x s)).
Proof.
  intros. unfold ComSerial.SetWriteTimeout. destruct (x =? 0); repeat split.
Qed.

Lemma SetReadTimeout_same_line :
  forall (x : Z) (s : ComSerial.t), same_line s (snd (ComSerial.SetReadTimeout x s)).
Proof.
  intros. unfold ComSerial.SetReadTimeout. destruct (x =? 0); repeat split.
Qed.

Lemma SetDevice_same_line :
  forall (x : string) (s : ComSerial.t), same_line s (snd (ComSerial.SetDevice x s)).
Proof.
  intros. unfold ComSerial.SetDevice. destruct (String.eqb x ""); repeat split.
Qed.

Lemma SetBaudRate_same_line :
  forall (x : Z) (s : ComSerial.t), same_line s (snd (ComSerial.SetBaudRate x s)).
Proof.
  intros. unfold ComSerial.SetBaudRate. destruct (x =? 0); repeat split.
Qed.

Lemma SetDataBits_same_line :
  forall (x : Z) (s : ComSerial.t), same_line s (snd (ComSerial.SetDataBits x s)).
Proof.
  intros. unfold ComSerial.SetDataBits.
  destruct (character_size.make x); repeat split.
Qed.

Lemma Open_same_line :
  forall (pf : platform) (E : environment) (w : world E) (s : ComSerial.t),
    same_line s (snd (result (exec E (ComSerial.Open pf s) w))).
Proof.
  intros pf E w s.
  apply (always_exec (fun r _ => same_line s (snd r))).
  unfold ComSerial.Open. destruct pf; always_steps; repeat split.
Qed.

Lemma Close_serial_same_line :
  forall (E : environment) (w : world E) (s : ComSerial.t),
    same_line s (snd (result (exec E (ComSerial.Close s) w))).
Proof.
  intros E w s.
  apply (always_exec (fun r _ => same_line s (snd r))).
  unfold ComSerial.Close. always_steps; repeat split.
Qed.

Lemma invoke_keeps_enumerators :
  forall (pf : platform) (E : environment) (w : world E)
         (m : SerialSession.method) (s : ComSerial.t),
    enumerators_stored s ->
    enumerators_stored (result (exec E (SerialSession.invoke pf m s) w)).
Proof.
  intros pf E w m s H.
  destruct m; unfold SerialSession.invoke;
    try (rewrite exec_then_ret; exact H).
  - rewrite exec_bind_ret. eapply same_line_enumerators; [apply Open_same_line | exact H].
  - rewrite exec_bind_ret. eapply same_line_enumerators; [apply Close_serial_same_line | exact H].
  - simpl. eapply same_line_enumerators; [apply SetWriteTimeout_same_line | exact H].
  - simpl. eapply same_line_enumerators; [apply SetReadTimeout_same_line | exact H].
  - simpl. eapply same_line_enumerators; [apply SetDevice_same_line | exact H].
  - simpl. eapply same_line_enumerators; [apply SetBaudRate_same_line | exact H].
  - simpl. eapply same_line_enumerators; [apply SetDataBits_same_line | exact H].
  - simpl. apply SetStopBits_enumerators; exact H.
  - simpl. apply SetParity_enumerators; exact H.
  - simpl. apply SetFlowControl_enumerators; exact H.
Qed.

Lemma members_default_enumerators : enumerators_stored ComSerial.members_default.
Proof. unfold enumerators_stored. simpl. auto. Qed.

Lemma constructed_enumerators :
  forall device baud_rate data_bits stop_bits parity flow_control timeout s,
    ComSerial.ComSerial device baud_rate data_bits stop_bits parity flow_control timeout
    = object s ->
    enumerators_stored s.
Proof.
  intros device baud_rate data_bits stop_bits parity flow_control timeout s.
  unfold ComSerial.ComSerial.
  pose proof (SetDevice_same_line device ComSerial.members_default) as H1.
  destruct (ComSerial.SetDevice device ComSerial.members_default) as [ok1 s1].
  pose proof (SetBaudRate_same_line baud_rate s1) as H2.
  destruct (ComSerial.SetBaudRate baud_rate s1) as [ok2 s2].
  pose proof (SetDataBits_same_line data_bits s2) as H3.
  destruct (ComSerial.SetDataBits data_bits s2) as [ok3 s3].
  pose proof (SetStopBits_enumerators stop_bits (s := s3)) as H4.
  destruct (ComSerial.SetStopBits stop_bits s3) as [ok4 s4].
  pose proof (SetParity_enumerators parity (s := s4)) as H5.
  destruct (ComSerial.SetParity parity s4) as [ok5 s5].
  pose proof (SetFlowControl_enumerators flow_control (s := s5)) as H6.
  destruct (ComSerial.SetFlowControl flow_control s5) as [ok6 s6].
  pose proof (SetWriteTimeout_same_line timeout s6) as H7.
  destruct (ComSerial.SetWriteTimeout timeout s6) as [ok7 s7].
  pose proof (SetReadTimeout_same_line timeout s7) as H8.
  destruct (ComSerial.SetReadTimeout timeout s7) as [ok8 s8].
  simpl in *.
  destruct ok1, ok2, ok3, ok4, ok5, ok6, ok7, ok8; simpl; try discriminate.
  intros Heq. inversion Heq; subst s8.
  eapply same_line_enumerators; [exact H8|].
  eapply same_line_enumerators; [exact H7|].
  apply H6, H5, H4.
  eapply same_line_enumerators; [exact H3|].
  eapply same_line_enumerators; [exact H2|].
  eapply same_line_enumerators; [exact H1|].
  exact members_default_enumerators.
Qed.

(** C10.  In every state a ComSerial reaches after its constructor has
    returned, through any sequence of calls in any environment, GetStopBits
    returns 1, 2 or 3, GetParity returns 'e', 'o' or 'n' and GetFlowControl
    returns 'h', 's' or 'n': the stored option values are always
    enumerators, never a value that reads back as 0 or NUL. *)
Theorem reachable_serial_has_valid_line_codes :
  forall (pf : platform) (s : ComSerial.t),
    SerialSession.reachable pf s ->
    enumerators_stored s /\ valid_line_codes s.
Proof.
  intros pf s Hreach.
  assert (H : enumerators_stored s).
  { induction Hreach as [device baud_rate data_bits stop_bits parity flow_control
                           timeout s Hctor | E w m s Hreach IH].
    - eapply constructed_enumerators; exact Hctor.
    - apply invoke_keeps_enumerators; exact IH. }
  split; [exact H | apply enumerators_read_back; exact H].
Qed.

Lemma reachable_after_SetParity_and_Open :
  let s := result (exec (scripted all_well)
                     (SerialSession.invoke posix SerialSession.call_Open
                        (result (exec (scripted all_well)
                                   (SerialSession.invoke posix
                                      (SerialSession.call_SetParity "E")
                                      example_serial) tt))) tt) in
  ComSerial.Opened s = true /\ ComSerial.GetParity s = "e"%char /\
  valid_line_codes s.
Proof.
  intros s. split; [reflexivity | split; [reflexivity|]].
  apply (reachable_serial_has_valid_line_codes (pf := posix)).
  apply SerialSession.reach_invoke.
  apply SerialSession.reach_invoke.
  apply (SerialSession.reach_constructed posix "COM1" 38400 8 1 "n" "h" 1000).
  reflexivity.
Defined.

(** ** C8: closing a closed transport *)

Lemma Close_serial_leaves_closed :
  forall (E : environment) (w : world E) (s : ComSerial.t),
    ComSerial.Opened (snd (result (exec E (ComSerial.Close s) w))) = false.
Proof.
  intros E w s.
  apply (always_exec (fun r _ => ComSerial.Opened (snd r) = false)).
  unfold ComSerial.Close. always_steps; trivial.
Qed.

Lemma Close_socket_leaves_closed :
  forall (E : environment) (w : world E) (s : ComSocket.t),
    ComSocket.Opened (snd (result (exec E (ComSocket.Close s) w))) = false.
Proof.
  intros E w s.
  apply (always_exec (fun r _ => ComSocket.Opened (snd r) = false)).
  unfold ComSocket.Close. always_steps; trivial.
Qed.

Lemma Close_serial_when_closed :
  forall (E : environment) (w : world E) (s : ComSerial.t),
    ComSerial.Opened s = false ->
    exec E (ComSerial.Close s) w = ((true, s), w, []).
Proof.
  intros E w s H. unfold ComSerial.Close, ComSerial.Opened in *.
  rewrite H. reflexivity.
Qed.

Lemma Close_socket_when_closed :
  forall (E : environment) (w : world E) (s : ComSocket.t),
    ComSocket.Opened s = false ->
    exec E (ComSocket.Close s) w = ((true, s), w, []).
Proof.
  intros E w s H. unfold ComSocket.Close, ComSocket.Opened in *.
  rewrite H. reflexivity.
Qed.

(** C8.  On either transport, Close on a closed object returns true, makes
    no request and leaves the object and the environment as they were.  A
    Close leaves the object closed whatever it returns, so a second Close,
    in any environment, returns true and makes no request. *)
Theorem Close_on_closed_transport_returns_true :
  (forall (E : environment) (w : world E) (s : ComSerial.t),
     ComSerial.Opened s = false ->
     exec E (ComSerial.Close s) w = ((true, s), w, [])) /\
  (forall (E : environment) (w : world E) (s : ComSocket.t),
     ComSocket.Opened s = false ->
     exec E (ComSocket.Close s) w = ((true, s), w, [])) /\
  (forall (E E' : environment) (w : world E) (w' : world E') (s : ComSerial.t),
     let first := exec E (ComSerial.Close s) w in
     let second := exec E' (ComSerial.Close (snd (result first))) w' in
     fst (result second) = true /\ trace second = []) /\
  (forall (E E' : environment) (w : world E) (w' : world E') (s : ComSocket.t),
     let first := exec E (ComSocket.Close s) w in
     let second := exec E' (ComSocket.Close (snd (result first))) w' in
     fst (result second) = true /\ trace second = []).
Proof.
  split; [exact Close_serial_when_closed|].
  split; [exact Close_socket_when_closed|].
  split.
  - intros E E' w w' s first second. subst second.
    rewrite Close_serial_when_closed
      by (subst first; apply Close_serial_leaves_closed).
    split; reflexivity.
  - intros E E' w w' s first second. subst second.
    rewrite Close_socket_when_closed
      by (subst first; apply Close_socket_leaves_closed).
    split; reflexivity.
Qed.

Lemma Close_twice_when_the_first_fails :
  exec (scripted close_fails) (ComSocket.Close example_client) tt
    = ((true, example_client), tt, []) /\
  fst (result (exec (scripted close_fails)
                 (ComSocket.Close (ComSocket.with_socket true example_client)) tt))
    = false /\
  fst (result (exec (scripted close_fails)
                 (ComSocket.Close
                    (snd (result (exec (scripted close_fails)
                                    (ComSocket.Close
                                       (ComSocket.with_socket true example_client))
                                    tt)))) tt))
    = true.
Proof.
  split; [|split].
  - apply (proj1 (proj2 Close_on_closed_transport_returns_true)
             (scripted close_fails) tt example_client).
    reflexivity.
  - reflexivity.
  - apply (proj2 (proj2 (proj2 Close_on_closed_transport_returns_true))
             (scripted close_fails) (scripted close_fails) tt tt
             (ComSocket.with_socket true example_client)).
Defined.

(** ** C4 and C6: the non-blocking transfers of the serial port *)

Lemma pending_for_write_is_no_write :
  forall (pf : platform) (E : environment) (w : world E),
    existsb is_write_some (trace (exec E (ComSerial.pending_for_write pf) w)) = false.
Proof.
  intros pf E w.
  apply (always_exec (fun _ tr => existsb is_write_some tr = false)).
  destruct pf; always_steps; reflexivity.
Qed.

Lemma available_for_read_is_no_read :
  forall (pf : platform) (E : environment) (w : world E),
    existsb is_read_some (trace (exec E (ComSerial.available_for_read pf) w)) = false.
Proof.
  intros pf E w.
  apply (always_exec (fun _ tr => existsb is_read_some tr = false)).
  destruct pf; always_steps; reflexivity.
Qed.

(** C4.  WriteSome first runs pending_for_write.  If that reports a count
    above 0, WriteSome returns 0 and its run is the run of the query alone;
    if it reports an error (any negative value, -1 in particular) WriteSome
    returns -1, again without any further request.  Only with a count of
    exactly 0 does the run go on with write_some on the port, and the result
    is then that of the write.  The query itself writes nothing, so a write
    request in the run of WriteSome implies a count of 0. *)
Theorem WriteSome_writes_only_when_nothing_is_pending :
  forall (pf : platform) (E : environment) (w : world E) (s : ComSerial.t) (len : Z),
    let query := exec E (ComSerial.pending_for_write pf) w in
    let call := exec E (ComSerial.WriteSome pf s len) w in
    (0 < result query -> call = (0, final query, trace query)) /\
    (result query < 0 -> call = (-1, final query, trace query)) /\
    (result query = 0 ->
       let write :=
         exec E (handle_write_some serial_port (ComSerial.m_port s) len)
           (final query) in
       call = (if failed (snd (result write)) then -1
               else to_int (fst (result write)),
               final write, trace query ++ trace write)) /\
    (existsb is_write_some (trace call) = true -> result query = 0).
Proof.
  intros pf E w s len query call.
  pose proof (pending_for_write_is_no_write pf E w) as Hquiet.
  subst query call. unfold ComSerial.WriteSome. rewrite exec_bind.
  destruct (exec E (ComSerial.pending_for_write pf) w) as [[v w1] t1].
  unfold result, final, trace in *. simpl fst in *. simpl snd in *.
  destruct (Z.eqb_spec v 0) as [-> | Hv]; simpl negb; cbv iota.
  - repeat split; try lia.
    intros _. rewrite exec_bind.
    destruct (exec E (handle_write_some serial_port (ComSerial.m_port s) len) w1)
      as [[[n ec] w2] t2].
    simpl. destruct (failed ec); simpl; rewrite app_nil_r; reflexivity.
  - destruct (Z.ltb_spec 0 v); simpl; rewrite app_nil_r.
    + repeat split; try lia; try reflexivity. congruence.
    + repeat split; try lia; try reflexivity. congruence.
Qed.

Lemma WriteSome_with_four_bytes_pending :
  0 < result (exec (scripted (kernel_buffers 0 4)) (ComSerial.pending_for_write posix) tt) /\
  exec (scripted (kernel_buffers 0 4))
    (ComSerial.WriteSome posix (ComSerial.with_port true example_serial) 10) tt
  = (0, tt, [Ev ioctl_TIOCOUTQ (0, 4)]).
Proof.
  assert (H : 0 < result (exec (scripted (kernel_buffers 0 4))
                            (ComSerial.pending_for_write posix) tt))
    by (vm_compute; reflexivity).
  split; [exact H|].
  exact (proj1 (WriteSome_writes_only_when_nothing_is_pending posix
                  (scripted (kernel_buffers 0 4)) tt
                  (ComSerial.with_port true example_serial) 10) H).
Defined.

(** C6.  ReadSome first runs available_for_read.  If that returns a value
    [v <= 0], ReadSome returns [v] itself (0: nothing to read; -1: the query
    failed) and its run is the run of the query alone.  Only with [v > 0]
    does the run go on with read_some on the port, and the result is then
    that of the read.  The query itself reads nothing, so a read request in
    the run of ReadSome implies [v > 0]. *)
Theorem ReadSome_reads_only_when_bytes_are_available :
  forall (pf : platform) (E : environment) (w : world E) (s : ComSerial.t) (len : Z),
    let query := exec E (ComSerial.available_for_read pf) w in
    let call := exec E (ComSerial.ReadSome pf s len) w in
    (result query <= 0 -> call = (result query, final query, trace query)) /\
    (0 < result query ->
       let read :=
         exec E (handle_read_some serial_port (ComSerial.m_port s) len)
           (final query) in
       call = (if failed (snd (result read)) then -1
               else to_int (fst (result read)),
               final read, trace query ++ trace read)) /\
    (existsb is_read_some (trace call) = true -> 0 < result query).
Proof.
  intros pf E w s len query call.
  pose proof (available_for_read_is_no_read pf E w) as Hquiet.
  subst query call. unfold ComSerial.ReadSome. rewrite exec_bind.
  destruct (exec E (ComSerial.available_for_read pf) w) as [[v w1] t1].
  unfold result, final, trace in *. simpl fst in *. simpl snd in *.
  destruct (Z.leb_spec v 0) as [Hv | Hv]; cbv iota.
  - simpl. rewrite app_nil_r. repeat split; try lia; try reflexivity. congruence.
  - repeat split; try lia.
    intros _. rewrite exec_bind.
    destruct (exec E (handle_read_some serial_port (ComSerial.m_port s) len) w1)
      as [[[n ec] w2] t2].
    simpl. destruct (failed ec); simpl; rewrite app_nil_r; reflexivity.
Qed.

Lemma ReadSome_when_the_query_fails :
  result (exec (scripted (kernel_buffers (-1) 0)) (ComSerial.available_for_read posix) tt) <= 0 /\
  exec (scripted (kernel_buffers (-1) 0))
    (ComSerial.ReadSome posix (ComSerial.with_port true example_serial) 10) tt
  = (-1, tt, [Ev ioctl_FIONREAD (-1, 0)]).
Proof.
  assert (H : result (exec (scripted (kernel_buffers (-1) 0))
                        (ComSerial.available_for_read posix) tt) <= 0)
    by (vm_compute; discriminate).
  split; [exact H|].
  exact (proj1 (ReadSome_reads_only_when_bytes_are_available posix
                  (scripted (kernel_buffers (-1) 0)) tt
                  (ComSerial.with_port true example_serial) 10) H).
Defined.

(** ** C2: a deadline that passes shortens the count *)

Ltac short_count_leaf :=
  unfold timeout_is_a_short_count; simpl;
  repeat match goal with
         | r : (error_code * Z)%type |- _ => destruct r
         end;
  simpl in *;
  do 5 eexists;
  split; [reflexivity|];
  split; [reflexivity|];
  split; [reflexivity|];
  split; [reflexivity|];
  split;
  [ let Hfirst := fresh "Hfirst" in
    let Htimer := fresh "Htimer" in
    intros Hfirst Htimer; try reflexivity; try discriminate Hfirst;
    subst; simpl in *; discriminate
  | let He := fresh "He" in
    let Hrun := fresh "Hrun" in
    intros He Hrun; subst; simpl in *; try reflexivity; congruence ].

Lemma serial_Read_short_count :
  forall (s : ComSerial.t) (len : Z),
    always (timeout_is_a_short_count serial_port) (ComSerial.Read s len).
Proof.
  intros s len.
  unfold ComSerial.Read, ComSerial.timeout_handler, ComSerial.read_write_handler.
  always_steps; short_count_leaf.
Qed.

Lemma serial_Write_short_count :
  forall (s : ComSerial.t) (len : Z),
    always (timeout_is_a_short_count serial_port) (ComSerial.Write s len).
Proof.
  intros s len.
  unfold ComSerial.Write, ComSerial.timeout_handler, ComSerial.read_write_handler.
  always_steps; short_count_leaf.
Qed.

Lemma socket_Read_short_count :
  forall (s : ComSocket.t) (len : Z),
    always (timeout_is_a_short_count tcp_socket) (ComSocket.Read s len).
Proof.
  intros s len.
  unfold ComSocket.Read, ComSocket.timeout_handler, ComSocket.read_write_handler.
  always_steps; short_count_leaf.
Qed.

Lemma socket_Write_short_count :
  forall (s : ComSocket.t) (len : Z),
    always (timeout_is_a_short_count tcp_socket) (ComSocket.Write s len).
Proof.
  intros s len.
  unfold ComSocket.Write, ComSocket.timeout_handler, ComSocket.read_write_handler.
  always_steps; short_count_leaf.
Qed.

(** C2 as stated fails.  With the deadline passed first and the transfer
    cancelled, a Read still returns -1 when the count does not fit an int
    (4294967295 bytes read back as -1) and when run() itself reports an
    error (after 3 bytes). *)
Lemma cancelled_transfer_can_return_minus_one :
  let wide := exec (scripted (deadline_passes 4294967295))
                (ComSocket.Read (ComSocket.with_socket true example_client)
                   4294967296) tt in
  let broken := exec (scripted (run_fails_after_deadline 3))
                  (ComSerial.Read (ComSerial.with_port true example_serial) 10) tt in
  (observe first_answer (trace wide) = Some timer_first /\
   observe timer_answer (trace wide) = Some success /\
   observe transfer_answer (trace wide) = Some (operation_aborted, 4294967295) /\
   observe run_answer (trace wide) = Some success /\
   result wide = -1) /\
  (observe first_answer (trace broken) = Some timer_first /\
   observe timer_answer (trace broken) = Some success /\
   observe transfer_answer (trace broken) = Some (operation_aborted, 3) /\
   result broken = -1).
Proof.
  repeat split; reflexivity.
Qed.

(** C2, amended.  For Read and Write of both transports, in every
    environment, the run records which completion came first, the
    completion of the timer, the completion of the transfer and the result
    of run().  If the timer came first and expired, the handler asks for
    the pending transfer to be cancelled.  If the transfer completed with
    [operation_aborted] after [n] bytes and run() reported no error, the
    call returns [n] as an int: for every count up to INT_MAX it returns
    [n] itself, which is not -1. *)
Theorem cancelled_transfer_returns_its_byte_count :
  forall (E : environment) (w : world E) (c : blocking_transfer) (len : Z),
    let call := exec E (transfer_program c len) w in
    exists (first : winner) (t e : error_code) (n : Z) (ec : error_code),
      observe first_answer (trace call) = Some first /\
      observe timer_answer (trace call) = Some t /\
      observe transfer_answer (trace call) = Some (e, n) /\
      observe run_answer (trace call) = Some ec /\
      (first = timer_first -> t = success ->
       existsb (is_cancel (transfer_handle c)) (trace call) = true) /\
      (e = operation_aborted -> failed ec = false ->
       result call = to_int n /\
       (0 <= n <= INT_MAX -> result call = n /\ result call <> -1)).
Proof.
  intros E w c len call.
  assert (H : timeout_is_a_short_count (transfer_handle c) (result call) (trace call)).
  { subst call. destruct c as [s | s | s | s]; simpl.
    - exact (@always_exec _ _ _ (serial_Read_short_count s len) E w).
    - exact (@always_exec _ _ _ (serial_Write_short_count s len) E w).
    - exact (@always_exec _ _ _ (socket_Read_short_count s len) E w).
    - exact (@always_exec _ _ _ (socket_Write_short_count s len) E w). }
  destruct H as (first & t & e & n & ec & Hf & Ht & Hio & Hrun & Hcancel & Hcount).
  exists first, t, e, n, ec.
  repeat (split; [assumption|]).
  intros He Hec. pose proof (Hcount He Hec) as Hret.
  split; [exact Hret|].
  intros Hn. rewrite Hret, (to_int_small Hn). unfold INT_MAX in Hn.
  split; [reflexivity | lia].
Qed.

Lemma Read_cut_short_after_three_bytes :
  let call := exec (scripted (deadline_passes 3))
                (ComSocket.Read (ComSocket.with_socket true example_client) 10) tt in
  existsb (is_cancel tcp_socket) (trace call) = true /\ result call = 3.
Proof.
  intros call.
  destruct (@cancelled_transfer_returns_its_byte_count
              (scripted (deadline_passes 3)) tt
              (socket_Read (ComSocket.with_socket true example_client)) 10)
    as (first & t & e & n & ec & Hf & Ht & Hio & Hrun & Hcancel & Hcount).
  fold call in Hf, Ht, Hio, Hrun, Hcancel, Hcount.
  assert (Hfirst : first = timer_first) by (vm_compute in Hf; congruence).
  assert (Htimer : t = success) by (vm_compute in Ht; congruence).
  assert (He : e = operation_aborted) by (vm_compute in Hio; congruence).
  assert (Hn : n = 3) by (vm_compute in Hio; congruence).
  assert (Hec : failed ec = false) by (vm_compute in Hrun; inversion Hrun; reflexivity).
  split; [exact (Hcancel Hfirst Htimer)|].
  subst n.
  apply (proj2 (Hcount He Hec)). unfold INT_MAX. lia.
Defined.

(** ** C1: the open-timeout *)

Ltac observed :=
  repeat match goal with
         | H : Some _ = Some _ |- _ => inversion H; clear H; subst
         | H : None = Some _ |- _ => discriminate H
         end.

Ltac open_leaf :=
  simpl; intros; observed; simpl in *; try reflexivity; try discriminate;
  try congruence.

Ltac unfold_Open :=
  unfold ComSocket.Open, ComSocket.Open_finish, ComSocket.socket_async_connect,
    ComSocket.socket_set_non_blocking, ComSocket.acceptor_setup,
    ComSocket.open_handler, ComSocket.timeout_handler,
    ComSocket.timeout_accept_handler, handle_close.

Lemma Open_client_deadline :
  forall s : ComSocket.t,
    is_unspecified (ComSocket.m_address s) = false ->
    always (fun r tr =>
              observe first_answer tr = Some timer_first ->
              observe timer_answer tr = Some success ->
              observe open_answer tr = Some operation_aborted ->
              observe run_answer tr = Some success ->
              observe non_blocking_answer tr = Some success ->
              fst r = true /\ ComSocket.Opened (snd r) = true /\
              existsb (is_cancel tcp_socket) tr = true)
           (ComSocket.Open s).
Proof.
  intros s Hclient. unfold_Open.
  always_steps; open_leaf; repeat split; try reflexivity.
Qed.

Lemma Open_server_deadline :
  forall s : ComSocket.t,
    is_unspecified (ComSocket.m_address s) = true ->
    always (fun r tr =>
              observe open_answer tr = Some operation_aborted ->
              fst r = false /\ ComSocket.Opened (snd r) = false)
           (ComSocket.Open s).
Proof.
  intros s Hserver. unfold_Open.
  always_steps; open_leaf; repeat split; try reflexivity.
Qed.

(** C1, client mode: what the code does.  With a remote address
    configured, when the timer completes first and without error (the
    open-timeout passed), the connect completes with [operation_aborted],
    run() reports no error and the socket takes the non-blocking mode, Open
    returns true and the object counts as opened, although no connection
    was made. *)
Theorem Open_client_returns_true_when_the_deadline_passes :
  forall (E : environment) (w : world E) (s : ComSocket.t),
    let call := exec E (ComSocket.Open s) w in
    is_unspecified (ComSocket.m_address s) = false ->
    observe first_answer (trace call) = Some timer_first ->
    observe timer_answer (trace call) = Some success ->
    observe open_answer (trace call) = Some operation_aborted ->
    observe run_answer (trace call) = Some success ->
    observe non_blocking_answer (trace call) = Some success ->
    fst (result call) = true /\ ComSocket.Opened (snd (result call)) = true /\
    existsb (is_cancel tcp_socket) (trace call) = true.
Proof.
  intros E w s call Hclient.
  exact (@always_exec _ _ _ (Open_client_deadline s Hclient) E w).
Qed.

Lemma Open_of_the_example_client_when_the_deadline_passes :
  let call := exec (scripted (deadline_passes 0)) (ComSocket.Open example_client) tt in
  ComSocket.GetAddress example_client = "192.168.1.100"%string /\
  ComSocket.GetOpenTimeout example_client = 1000 /\
  fst (result call) = true.
Proof.
  intros call.
  split; [reflexivity | split; [reflexivity|]].
  exact (proj1 (@Open_client_returns_true_when_the_deadline_passes
                  (scripted (deadline_passes 0)) tt example_client
                  eq_refl eq_refl eq_refl eq_refl eq_refl eq_refl)).
Defined.

(** The server branch under the same deadline: the accept completes with
    [operation_aborted], no connection became the socket, and Open returns
    false. *)
Lemma Open_server_returns_false_when_the_deadline_passes :
  forall (E : environment) (w : world E) (s : ComSocket.t),
    let call := exec E (ComSocket.Open s) w in
    is_unspecified (ComSocket.m_address s) = true ->
    observe open_answer (trace call) = Some operation_aborted ->
    fst (result call) = false /\ ComSocket.Opened (snd (result call)) = false.
Proof.
  intros E w s call Hserver.
  exact (@always_exec _ _ _ (Open_server_deadline s Hserver) E w).
Qed.

(** ** C3 and C9: server mode and client mode *)

Lemma Open_works_on_one_side :
  forall s : ComSocket.t,
    always (fun _ tr =>
              if is_unspecified (ComSocket.m_address s)
              then existsb is_accept_side tr = true /\
                   existsb is_connect_side tr = false
              else existsb is_connect_side tr = true /\
                   existsb is_accept_side tr = false)
           (ComSocket.Open s).
Proof.
  intros s. unfold_Open.
  destruct (is_unspecified (ComSocket.m_address s)) eqn:Hmode;
    always_steps; simpl in *; try rewrite Hmode in *; try discriminate;
    split; reflexivity.
Qed.


Lemma specified_opens_as_client :
  forall s : ComSocket.t,
    is_unspecified (ComSocket.m_address s) = false -> opens_as_client s.
Proof.
  intros s Hmode E w.
  pose proof (@always_exec _ _ _ (Open_works_on_one_side s) E w) as H.
  simpl in H. rewrite Hmode in H. exact H.
Qed.

Lemma server_is_no_client :
  forall s : ComSocket.t, opens_as_server s -> ~ opens_as_client s.
Proof.
  intros s Hs Hc.
  destruct (Hs (scripted all_well) tt) as [Ha _].
  destruct (Hc (scripted all_well) tt) as [_ Ha'].
  congruence.
Qed.

Lemma SetAddress_empty :
  forall s : ComSocket.t,
    ComSocket.SetAddress "" s = (true, ComSocket.with_address default_address s).
Proof. intros s. reflexivity. Qed.

Lemma SetAddress_parsed :
  forall (addr : string) (a : address) (ec : error_code) (s : ComSocket.t),
    addr <> ""%string ->
    from_string addr = (a, ec) ->
    ComSocket.SetAddress addr s = (negb (failed ec), ComSocket.with_address a s).
Proof.
  intros addr a ec s Hne Hparse. unfold ComSocket.SetAddress.
  destruct (String.eqb_spec addr ""); [contradiction|].
  rewrite Hparse. destruct (failed ec); reflexivity.
Qed.

Lemma constructed_address :
  forall (addr : string) (port timeout : Z) (s : ComSocket.t),
    ComSocket.ComSocket addr port timeout = object s ->
    fst (ComSocket.SetAddress addr ComSocket.members_default) = true /\
    ComSocket.m_address s
    = ComSocket.m_address (snd (ComSocket.SetAddress addr ComSocket.members_default)).
Proof.
  intros addr port timeout s. unfold ComSocket.ComSocket.
  destruct (ComSocket.SetAddress addr ComSocket.members_default) as [ok1 s1].
  destruct ok1; simpl; [|discriminate].
  unfold ComSocket.SetPort.
  destruct (65535 <? port); simpl; [discriminate|].
  unfold ComSocket.SetOpenTimeout, ComSocket.SetWriteTimeout, ComSocket.SetReadTimeout.
  destruct (timeout =? 0); simpl; [discriminate|].
  intros H. inversion H. split; reflexivity.
Qed.

(** Walks through a statement of [serves_on] or [connects_to] on the
    events of one branch of Open: each request is read off the events, each
    assumption on an answer is set against the branch taken. *)
Ltac mode_walk :=
  simpl in *;
  lazymatch goal with
  | |- exists _, _ => eexists; mode_walk
  | |- _ /\ _ => split; [mode_walk | mode_walk]
  | |- _ -> _ =>
      let H := fresh "H" in
      intro H; try (subst; simpl in *); try (rewrite H in *; simpl in *);
      try discriminate; try congruence;
      mode_walk
  | |- _ => reflexivity
  end.

Lemma Open_mode :
  forall s : ComSocket.t,
    always (fun r tr =>
              if is_unspecified (ComSocket.m_address s)
              then serves_on (ComSocket.m_port s) (fst r)
                     (ComSocket.Opened (snd r)) tr
              else connects_to (ComSocket.m_address s) (ComSocket.m_port s)
                     (fst r) (ComSocket.Opened (snd r)) tr)
           (ComSocket.Open s).
Proof.
  intros s. unfold_Open.
  destruct (is_unspecified (ComSocket.m_address s)) eqn:Hmode;
    always_steps; simpl in *; try rewrite Hmode in *; try discriminate;
    unfold serves_on, connects_to, answered, ComSocket.Opened;
    mode_walk.
Qed.

Lemma unspecified_server_mode :
  forall s : ComSocket.t,
    is_unspecified (ComSocket.m_address s) = true -> server_mode s.
Proof.
  intros s Hmode E w.
  pose proof (@always_exec _ _ _ (Open_mode s) E w) as H.
  simpl in H. rewrite Hmode in H. exact H.
Qed.

Lemma specified_client_mode :
  forall s : ComSocket.t,
    is_unspecified (ComSocket.m_address s) = false -> client_mode s.
Proof.
  intros s Hmode E w.
  pose proof (@always_exec _ _ _ (Open_mode s) E w) as H.
  simpl in H. rewrite Hmode in H. exact H.
Qed.

Lemma server_mode_is_no_client_mode :
  forall s : ComSocket.t, server_mode s -> ~ client_mode s.
Proof.
  intros s Hs Hc.
  destruct (Hs (scripted all_well) tt) as [_ (ec & Hopen & _)].
  destruct (Hc (scripted all_well) tt) as [Hnone _].
  assert (Hsome : forall tr : list event,
             existsb is_accept_side tr = false ->
             observe acceptor_open_answer tr = None).
  { induction tr as [| [R c r] tr IH]; simpl; [reflexivity|].
    destruct c; simpl; try discriminate; exact IH. }
  rewrite (Hsome _ Hnone) in Hopen. discriminate Hopen.
Qed.

Lemma SetAddress_keeps_the_port :
  forall (addr : string) (s : ComSocket.t),
    ComSocket.GetPort (snd (ComSocket.SetAddress addr s)) = ComSocket.GetPort s.
Proof.
  intros addr s. unfold ComSocket.SetAddress.
  destruct (if String.eqb addr "" then (default_address, success)
            else from_string addr) as [a ec].
  destruct (failed ec); reflexivity.
Qed.

Lemma constructed_port :
  forall (addr : string) (port timeout : Z) (s : ComSocket.t),
    ComSocket.ComSocket addr port timeout = object s ->
    ComSocket.GetPort s = port.
Proof.
  intros addr port timeout s. unfold ComSocket.ComSocket.
  destruct (ComSocket.SetAddress addr ComSocket.members_default) as [ok1 s1].
  destruct ok1; simpl; [|discriminate].
  unfold ComSocket.SetPort.
  destruct (65535 <? port); simpl; [discriminate|].
  unfold ComSocket.SetOpenTimeout, ComSocket.SetWriteTimeout, ComSocket.SetReadTimeout.
  destruct (timeout =? 0); simpl; [discriminate|].
  intros H. inversion H. reflexivity.
Qed.

(** C3 as stated fails: "0.0.0.0" is not empty and parses, SetAddress
    accepts it and the constructor returns an object, but that object is
    the one the empty address gives, in server mode and not in client mode:
    where everything succeeds its Open binds port 3444, starts an accept
    and returns true without any connect. *)
Lemma address_0_0_0_0_yields_server_mode :
  "0.0.0.0"%string <> ""%string /\
  from_string "0.0.0.0" = (address_v4 [0; 0; 0; 0], success) /\
  fst (ComSocket.SetAddress "0.0.0.0" example_client) = true /\
  ComSocket.ComSocket "0.0.0.0" 3444 1000 = object example_server /\
  server_mode example_server /\
  ~ client_mode example_server /\
  server_mode (snd (ComSocket.SetAddress "0.0.0.0" example_client)) /\
  ~ client_mode (snd (ComSocket.SetAddress "0.0.0.0" example_client)) /\
  (let call := exec (scripted all_well)
                 (ComSocket.Open (snd (ComSocket.SetAddress "0.0.0.0" example_client)))
                 tt in
   fst (result call) = true /\
   observe bind_answer (trace call) = Some (3444, success) /\
   existsb is_async_accept (trace call) = true /\
   existsb is_async_connect (trace call) = false).
Proof.
  split; [discriminate|].
  split; [reflexivity|].
  split; [reflexivity|].
  split; [reflexivity|].
  split; [apply unspecified_server_mode; reflexivity|].
  split; [apply server_mode_is_no_client_mode, unspecified_server_mode; reflexivity|].
  split; [apply unspecified_server_mode; reflexivity|].
  split; [apply server_mode_is_no_client_mode, unspecified_server_mode; reflexivity|].
  repeat split; reflexivity.
Qed.

(** C3, amended.  Whether by SetAddress or by the constructor: the address
    "" is accepted and yields server mode, where Open asks nothing of the
    connecting side, opens the acceptor, binds it to the configured port,
    listens and starts one accept, and returns true with the socket open
    when a connection is accepted and every step succeeds.  A non-empty
    address that parses to anything but the unspecified address (0.0.0.0,
    ::) is accepted, stored, and yields client mode, where Open asks nothing
    of the accepting side, opens the socket and starts one connect to that
    address and the configured port, and returns true with the socket open
    when the connection is made and every step succeeds.  A non-empty
    address that parses neither as an IPv6 nor as a dotted-quad IPv4
    address makes SetAddress return false and the constructor throw
    "invalid IP address". *)
Theorem address_selects_the_mode :
  forall (addr : string),
    (addr = ""%string ->
     (forall s : ComSocket.t,
        let s' := snd (ComSocket.SetAddress addr s) in
        fst (ComSocket.SetAddress addr s) = true /\
        ComSocket.GetPort s' = ComSocket.GetPort s /\
        server_mode s') /\
     (forall (port timeout : Z) (s : ComSocket.t),
        ComSocket.ComSocket addr port timeout = object s ->
        ComSocket.GetPort s = port /\
        server_mode s)) /\
    (addr <> ""%string ->
     snd (from_string addr) = success ->
     is_unspecified (fst (from_string addr)) = false ->
     (forall s : ComSocket.t,
        let s' := snd (ComSocket.SetAddress addr s) in
        fst (ComSocket.SetAddress addr s) = true /\
        ComSocket.m_address s' = fst (from_string addr) /\
        ComSocket.GetPort s' = ComSocket.GetPort s /\
        client_mode s') /\
     (forall (port timeout : Z) (s : ComSocket.t),
        ComSocket.ComSocket addr port timeout = object s ->
        ComSocket.m_address s = fst (from_string addr) /\
        ComSocket.GetPort s = port /\
        client_mode s)) /\
    (addr <> ""%string ->
     snd (from_string addr) <> success ->
     (forall s : ComSocket.t, fst (ComSocket.SetAddress addr s) = false) /\
     (forall port timeout : Z,
        ComSocket.ComSocket addr port timeout = throws "invalid IP address")).
Proof.
  intros addr. split; [|split].
  - intros ->. split.
    + intros s s'. subst s'. rewrite SetAddress_empty.
      split; [reflexivity|]. split; [reflexivity|].
      apply unspecified_server_mode. reflexivity.
    + intros port timeout s Hctor.
      split; [exact (constructed_port _ _ _ Hctor)|].
      apply constructed_address in Hctor. destruct Hctor as [_ Ha].
      apply unspecified_server_mode. rewrite Ha. reflexivity.
  - intros Hne Hok Hspec.
    destruct (from_string addr) as [a ec] eqn:Hparse. simpl in Hok, Hspec. subst ec.
    split.
    + intros s s'. subst s'. rewrite (SetAddress_parsed s Hne Hparse).
      split; [reflexivity|]. split; [reflexivity|]. split; [reflexivity|].
      apply specified_client_mode. exact Hspec.
    + intros port timeout s Hctor.
      split; [|split; [exact (constructed_port _ _ _ Hctor)|]].
      * apply constructed_address in Hctor. destruct Hctor as [_ Ha].
        rewrite (SetAddress_parsed _ Hne Hparse) in Ha. exact Ha.
      * apply constructed_address in Hctor. destruct Hctor as [_ Ha].
        rewrite (SetAddress_parsed _ Hne Hparse) in Ha.
        apply specified_client_mode. rewrite Ha. exact Hspec.
  - intros Hne Hbad.
    destruct (from_string addr) as [a ec] eqn:Hparse. simpl in Hbad.
    assert (Hfailed : failed ec = true) by (destruct ec; try reflexivity; contradiction).
    split.
    + intros s. rewrite (SetAddress_parsed s Hne Hparse), Hfailed. reflexivity.
    + intros port timeout. unfold ComSocket.ComSocket.
      rewrite (SetAddress_parsed _ Hne Hparse), Hfailed. reflexivity.
Qed.

Lemma example_addresses_select_the_mode :
  (let call := exec (scripted all_well)
                 (ComSocket.Open (snd (ComSocket.SetAddress "192.168.1.100" example_server)))
                 tt in
   existsb is_accept_side (trace call) = false /\
   observe connect_target (trace call) = Some (address_v4 [192; 168; 1; 100], 3444) /\
   fst (result call) = true /\
   ComSocket.Opened (snd (result call)) = true) /\
  (let call := exec (scripted all_well)
                 (ComSocket.Open (snd (ComSocket.SetAddress "" example_client))) tt in
   existsb is_connect_side (trace call) = false /\
   observe bind_answer (trace call) = Some (3444, success) /\
   List.length (filter is_async_accept (trace call)) = 1%nat /\
   fst (result call) = true /\
   ComSocket.Opened (snd (result call)) = true) /\
  fst (ComSocket.SetAddress "COM1" example_client) = false /\
  ComSocket.ComSocket "COM1" 3444 1000 = throws "invalid IP address".
Proof.
  split; [|split; [|split]].
  - intros call.
    assert (Hne : "192.168.1.100"%string <> ""%string) by discriminate.
    destruct (proj1 (proj1 (proj2 (address_selects_the_mode "192.168.1.100"))
                       Hne eq_refl eq_refl) example_server)
      as (_ & _ & _ & Hclient).
    destruct (Hclient (scripted all_well) tt)
      as (Hside & eo & Hopen & Hnext).
    fold call in Hside, Hopen, Hnext.
    assert (Heo : failed eo = false)
      by (vm_compute in Hopen; inversion Hopen; reflexivity).
    destruct (Hnext Heo) as (Htarget & _ & e & ec & He & Hec & Hdone).
    assert (He' : e = success) by (vm_compute in He; congruence).
    assert (Hec' : failed ec = false)
      by (vm_compute in Hec; inversion Hec; reflexivity).
    destruct (Hdone He' Hec') as (nb & Hnb & Hret).
    assert (Hnb' : failed nb = false)
      by (vm_compute in Hnb; inversion Hnb; reflexivity).
    destruct (Hret Hnb') as [Hr Ho].
    split; [exact Hside|]. split; [exact Htarget|]. split; [exact Hr | exact Ho].
  - intros call.
    destruct (proj1 (proj1 (address_selects_the_mode "") eq_refl) example_client)
      as (_ & _ & Hserver).
    destruct (Hserver (scripted all_well) tt)
      as (Hside & e1 & H1 & Hnext1).
    fold call in Hside, H1, Hnext1.
    assert (G1 : failed e1 = false)
      by (vm_compute in H1; inversion H1; reflexivity).
    destruct (Hnext1 G1) as (e2 & H2 & Hnext2).
    assert (G2 : failed e2 = false)
      by (vm_compute in H2; inversion H2; reflexivity).
    destruct (Hnext2 G2) as (e3 & H3 & Hnext3).
    assert (G3 : e3 = success) by (vm_compute in H3; congruence).
    subst e3.
    destruct (Hnext3 eq_refl) as (e4 & H4 & Hnext4).
    assert (G4 : failed e4 = false)
      by (vm_compute in H4; inversion H4; reflexivity).
    destruct (Hnext4 G4) as (Hone & e & ec & He & Hec & Hdone).
    assert (He' : e = success) by (vm_compute in He; congruence).
    assert (Hec' : failed ec = false)
      by (vm_compute in Hec; inversion Hec; reflexivity).
    destruct (Hdone He' Hec') as (e5 & H5 & Hnext5).
    assert (G5 : failed e5 = false)
      by (vm_compute in H5; inversion H5; reflexivity).
    destruct (Hnext5 G5) as (nb & Hnb & Hret).
    assert (Hnb' : failed nb = false)
      by (vm_compute in Hnb; inversion Hnb; reflexivity).
    destruct (Hret Hnb') as [Hr Ho].
    split; [exact Hside|]. split; [exact H3|]. split; [exact Hone|].
    split; [exact Hr | exact Ho].
  - refine (proj1 (proj2 (proj2 (address_selects_the_mode "COM1")) _ _)
              example_client); discriminate.
  - refine (proj2 (proj2 (proj2 (address_selects_the_mode "COM1")) _ _)
              3444 1000); discriminate.
Defined.



(** * Further properties *)

(** ** The setters of ComSerial *)

Lemma SetDevice_spec :
  forall (d : string) (s : ComSerial.t),
    (d <> ""%string -> ComSerial.SetDevice d s = (true, ComSerial.with_device d s)) /\
    (d = ""%string -> ComSerial.SetDevice d s = (false, s)).
Proof.
  intros d s. unfold ComSerial.SetDevice.
  destruct (String.eqb_spec d ""); split; intros; congruence.
Qed.

Lemma SetBaudRate_spec :
  forall (b : Z) (s : ComSerial.t),
    (b <> 0 -> ComSerial.SetBaudRate b s = (true, ComSerial.with_baud_rate b s)) /\
    (b = 0 -> ComSerial.SetBaudRate b s = (false, s)).
Proof.
  intros b s. unfold ComSerial.SetBaudRate.
  destruct (Z.eqb_spec b 0); split; intros; congruence.
Qed.

Lemma SetDataBits_spec :
  forall (x : Z) (s : ComSerial.t),
    (5 <= x <= 8 -> ComSerial.SetDataBits x s = (true, ComSerial.with_data_bits x s)) /\
    (x < 5 \/ 8 < x -> ComSerial.SetDataBits x s = (false, s)).
Proof.
  intros x s. unfold ComSerial.SetDataBits, character_size.make.
  destruct (Z.ltb_spec x 5); destruct (Z.ltb_spec 8 x); simpl;
    split; intros; try reflexivity; lia.
Qed.

Lemma SetStopBits_spec :
  forall (x : Z) (s : ComSerial.t),
    (1 <= x <= 3 ->
     exists v : Z,
       ComSerial.SetStopBits x s = (true, ComSerial.with_stop_bits v s) /\
       forall s' : ComSerial.t,
         ComSerial.GetStopBits (ComSerial.with_stop_bits v s') = x) /\
    (x < 1 \/ 3 < x -> ComSerial.SetStopBits x s = (false, s)).
Proof.
  intros x s. split.
  - intros Hx.
    assert (x = 1 \/ x = 2 \/ x = 3) as [-> | [-> | ->]] by lia;
      eexists; split; reflexivity.
  - intros Hx. unfold ComSerial.SetStopBits.
    destruct (Z.eqb_spec x 1); [lia|].
    destruct (Z.eqb_spec x 2); [lia|].
    destruct (Z.eqb_spec x 3); [lia|].
    reflexivity.
Qed.

Lemma SetParity_stores :
  forall (c : ascii) (s : ComSerial.t),
    parity_code c ->
    exists v : Z,
      ComSerial.SetParity c s = (true, ComSerial.with_parity v s) /\
      forall s' : ComSerial.t,
        ComSerial.GetParity (ComSerial.with_parity v s') = lower_case c.
Proof.
  intros c s [-> | [-> | [-> | [-> | [-> | ->]]]]];
    eexists; split; reflexivity.
Qed.

Lemma SetFlowControl_stores :
  forall (c : ascii) (s : ComSerial.t),
    flow_control_code c ->
    exists v : Z,
      ComSerial.SetFlowControl c s = (true, ComSerial.with_flow_control v s) /\
      forall s' : ComSerial.t,
        ComSerial.GetFlowControl (ComSerial.with_flow_control v s') = lower_case c.
Proof.
  intros c s [-> | [-> | [-> | [-> | [-> | ->]]]]];
    eexists; split; reflexivity.
Qed.

Lemma SetFlowControl_rejects :
  forall (c : ascii) (s : ComSerial.t),
    ~ flow_control_code c -> ComSerial.SetFlowControl c s = (false, s).
Proof.
  intros c s Hc. unfold ComSerial.SetFlowControl, flow_control_code in *.
  destruct (Ascii.eqb_spec c "h"); [tauto|].
  destruct (Ascii.eqb_spec c "H"); [tauto|].
  destruct (Ascii.eqb_spec c "s"); [tauto|].
  destruct (Ascii.eqb_spec c "S"); [tauto|].
  destruct (Ascii.eqb_spec c "n"); [tauto|].
  destruct (Ascii.eqb_spec c "N"); [tauto|].
  reflexivity.
Qed.

Lemma parity_code_dec : forall c : ascii, parity_code c \/ ~ parity_code c.
Proof.
  intros c. unfold parity_code.
  destruct (Ascii.eqb_spec c "e"); [tauto|].
  destruct (Ascii.eqb_spec c "E"); [tauto|].
  destruct (Ascii.eqb_spec c "o"); [tauto|].
  destruct (Ascii.eqb_spec c "O"); [tauto|].
  destruct (Ascii.eqb_spec c "n"); [tauto|].
  destruct (Ascii.eqb_spec c "N"); tauto.
Qed.

Lemma flow_control_code_dec :
  forall c : ascii, flow_control_code c \/ ~ flow_control_code c.
Proof.
  intros c. unfold flow_control_code.
  destruct (Ascii.eqb_spec c "h"); [tauto|].
  destruct (Ascii.eqb_spec c "H"); [tauto|].
  destruct (Ascii.eqb_spec c "s"); [tauto|].
  destruct (Ascii.eqb_spec c "S"); [tauto|].
  destruct (Ascii.eqb_spec c "n"); [tauto|].
  destruct (Ascii.eqb_spec c "N"); tauto.
Qed.

(** X1.  SetDevice rejects the empty name, SetBaudRate rejects 0,
    SetDataBits accepts exactly 5 to 8 and SetStopBits exactly 1, 2 and 3
    (3 standing for one and a half).  An accepted value is what the getter
    then returns and no other member is written; a rejected call returns
    false and leaves the object as it was. *)
Theorem serial_numeric_setters_read_back :
  forall (s : ComSerial.t),
    (forall d : string,
       (d <> ""%string ->
        ComSerial.SetDevice d s = (true, ComSerial.with_device d s) /\
        ComSerial.GetDevice (snd (ComSerial.SetDevice d s)) = d) /\
       (d = ""%string -> ComSerial.SetDevice d s = (false, s))) /\
    (forall b : Z,
       (b <> 0 ->
        ComSerial.SetBaudRate b s = (true, ComSerial.with_baud_rate b s) /\
        ComSerial.GetBaudRate (snd (ComSerial.SetBaudRate b s)) = b) /\
       (b = 0 -> ComSerial.SetBaudRate b s = (false, s))) /\
    (forall x : Z,
       (5 <= x <= 8 ->
        ComSerial.SetDataBits x s = (true, ComSerial.with_data_bits x s) /\
        ComSerial.GetDataBits (snd (ComSerial.SetDataBits x s)) = x) /\
       (x < 5 \/ 8 < x -> ComSerial.SetDataBits x s = (false, s))) /\
    (forall x : Z,
       (1 <= x <= 3 ->
        (exists v : Z,
           ComSerial.SetStopBits x s = (true, ComSerial.with_stop_bits v s)) /\
        ComSerial.GetStopBits (snd (ComSerial.SetStopBits x s)) = x) /\
       (x < 1 \/ 3 < x -> ComSerial.SetStopBits x s = (false, s))).
Proof.
  intros s. split; [|split; [|split]].
  - intros d. split.
    + intros Hd. rewrite (proj1 (SetDevice_spec d s) Hd). split; reflexivity.
    + apply SetDevice_spec.
  - intros b. split.
    + intros Hb. rewrite (proj1 (SetBaudRate_spec b s) Hb). split; reflexivity.
    + apply SetBaudRate_spec.
  - intros x. split.
    + intros Hx. rewrite (proj1 (SetDataBits_spec x s) Hx). split; reflexivity.
    + apply SetDataBits_spec.
  - intros x. split.
    + intros Hx. destruct (proj1 (SetStopBits_spec x s) Hx) as (v & Hset & Hget).
      rewrite Hset. split; [eauto | apply Hget].
    + apply SetStopBits_spec.
Qed.

Lemma serial_numeric_setters_examples :
  ComSerial.GetStopBits (snd (ComSerial.SetStopBits 3 example_serial)) = 3 /\
  ComSerial.m_stop_bits (snd (ComSerial.SetStopBits 3 example_serial))
    = stop_bits.onepointfive /\
  ComSerial.SetStopBits 4 example_serial = (false, example_serial) /\
  ComSerial.SetDataBits 9 example_serial = (false, example_serial) /\
  ComSerial.GetDataBits (snd (ComSerial.SetDataBits 5 example_serial)) = 5.
Proof.
  pose proof (serial_numeric_setters_read_back example_serial)
    as (_ & _ & Hdata & Hstop).
  split; [exact (proj2 (proj1 (Hstop 3) ltac:(lia)))|].
  split; [reflexivity|].
  split; [exact (proj2 (Hstop 4) ltac:(lia))|].
  split; [exact (proj2 (Hdata 9) ltac:(lia))|].
  exact (proj2 (proj1 (Hdata 5) ltac:(lia))).
Defined.

(** X2.  SetFlowControl returns true exactly for 'h', 'H', 's', 'S', 'n'
    and 'N'.  After an accepted SetParity or SetFlowControl the getter
    returns the lower-case letter of the character given, whichever case
    was passed; a rejected SetFlowControl leaves the object as it was. *)
Theorem parity_and_flow_control_read_back_in_lower_case :
  forall (c : ascii) (s : ComSerial.t),
    (fst (ComSerial.SetFlowControl c s) = true <-> flow_control_code c) /\
    (~ flow_control_code c -> ComSerial.SetFlowControl c s = (false, s)) /\
    (flow_control_code c ->
     ComSerial.GetFlowControl (snd (ComSerial.SetFlowControl c s)) = lower_case c /\
     ComSerial.GetParity (snd (ComSerial.SetFlowControl c s)) = ComSerial.GetParity s) /\
    (parity_code c ->
     ComSerial.GetParity (snd (ComSerial.SetParity c s)) = lower_case c /\
     ComSerial.GetFlowControl (snd (ComSerial.SetParity c s))
       = ComSerial.GetFlowControl s).
Proof.
  intros c s. split; [|split; [|split]].
  - split.
    + intros Hok. destruct (flow_control_code_dec c) as [Hc | Hc]; [exact Hc|].
      rewrite (SetFlowControl_rejects s Hc) in Hok. discriminate Hok.
    + intros Hc. destruct (SetFlowControl_stores s Hc) as (v & Hset & _).
      rewrite Hset. reflexivity.
  - apply SetFlowControl_rejects.
  - intros Hc. destruct (SetFlowControl_stores s Hc) as (v & Hset & Hget).
    rewrite Hset. split; [apply Hget | reflexivity].
  - intros Hc. destruct (SetParity_stores s Hc) as (v & Hset & Hget).
    rewrite Hset. split; [apply Hget | reflexivity].
Qed.

Lemma upper_case_codes_read_back_in_lower_case :
  ComSerial.GetFlowControl (snd (ComSerial.SetFlowControl "S" example_serial)) = "s"%char /\
  ComSerial.GetParity (snd (ComSerial.SetParity "O" example_serial)) = "o"%char /\
  ComSerial.SetFlowControl "x" example_serial = (false, example_serial).
Proof.
  assert (HS : flow_control_code "S") by (unfold flow_control_code; tauto).
  assert (HO : parity_code "O") by (unfold parity_code; tauto).
  assert (Hx : ~ flow_control_code "x").
  { unfold flow_control_code. intros [H | [H | [H | [H | [H | H]]]]]; discriminate H. }
  split; [|split].
  - exact (proj1 (proj1 (proj2 (proj2
             (parity_and_flow_control_read_back_in_lower_case "S" example_serial))) HS)).
  - exact (proj1 (proj2 (proj2 (proj2
             (parity_and_flow_control_read_back_in_lower_case "O" example_serial))) HO)).
  - exact (proj1 (proj2
             (parity_and_flow_control_read_back_in_lower_case "x" example_serial)) Hx).
Defined.

(** ** The constructors *)

Lemma serial_SetWriteTimeout_spec :
  forall (t : Z) (s : ComSerial.t),
    (t <> 0 -> ComSerial.SetWriteTimeout t s
               = (true, ComSerial.with_write_timeout (milliseconds t) s)) /\
    (t = 0 -> ComSerial.SetWriteTimeout t s = (false, s)).
Proof.
  intros t s. unfold ComSerial.SetWriteTimeout.
  destruct (Z.eqb_spec t 0); split; intros; congruence.
Qed.

Lemma serial_SetReadTimeout_spec :
  forall (t : Z) (s : ComSerial.t),
    (t <> 0 -> ComSerial.SetReadTimeout t s
               = (true, ComSerial.with_read_timeout (milliseconds t) s)) /\
    (t = 0 -> ComSerial.SetReadTimeout t s = (false, s)).
Proof.
  intros t s. unfold ComSerial.SetReadTimeout.
  destruct (Z.eqb_spec t 0); split; intros; congruence.
Qed.

(** The constructor of ComSerial, case by case: the first argument that a
    setter rejects decides the message; with none rejected the object holds
    what the setters stored. *)
Lemma ComSerial_constructor_cases :
  forall (d : string) (b db sb : Z) (p f : ascii) (t : Z),
    let made := ComSerial.ComSerial d b db sb p f t in
    (d = ""%string /\ made = throws "invalid device name") \/
    (d <> ""%string /\ b = 0 /\ made = throws "invalid baud rate") \/
    (d <> ""%string /\ b <> 0 /\ (db < 5 \/ 8 < db) /\
     made = throws "invalid data bits value") \/
    (d <> ""%string /\ b <> 0 /\ 5 <= db <= 8 /\ (sb < 1 \/ 3 < sb) /\
     made = throws "invalid stop bits value") \/
    (d <> ""%string /\ b <> 0 /\ 5 <= db <= 8 /\ 1 <= sb <= 3 /\
     ~ parity_code p /\ made = throws "invalid parity value") \/
    (d <> ""%string /\ b <> 0 /\ 5 <= db <= 8 /\ 1 <= sb <= 3 /\
     parity_code p /\ ~ flow_control_code f /\
     made = throws "invalid flow control value") \/
    (d <> ""%string /\ b <> 0 /\ 5 <= db <= 8 /\ 1 <= sb <= 3 /\
     parity_code p /\ flow_control_code f /\ t = 0 /\
     made = throws "invalid timeout value") \/
    (d <> ""%string /\ b <> 0 /\ 5 <= db <= 8 /\ 1 <= sb <= 3 /\
     parity_code p /\ flow_control_code f /\ t <> 0 /\
     exists s : ComSerial.t,
       made = object s /\
       ComSerial.Opened s = false /\
       ComSerial.GetDevice s = d /\
       ComSerial.GetBaudRate s = b /\
       ComSerial.GetDataBits s = db /\
       ComSerial.GetStopBits s = sb /\
       ComSerial.GetParity s = lower_case p /\
       ComSerial.GetFlowControl s = lower_case f /\
       ComSerial.m_write_timeout s = milliseconds t /\
       ComSerial.m_read_timeout s = milliseconds t).
Proof.
  intros d b db sb p f t made. subst made. unfold ComSerial.ComSerial.
  destruct (String.eqb_spec d "") as [Hd | Hd].
  { left. split; [exact Hd|].
    rewrite (proj2 (SetDevice_spec d _) Hd). reflexivity. }
  right. rewrite (proj1 (SetDevice_spec d _) Hd). simpl negb. cbv iota.
  destruct (Z.eq_dec b 0) as [Hb | Hb].
  { left. repeat split; trivial.
    rewrite (proj2 (SetBaudRate_spec b _) Hb). reflexivity. }
  right. rewrite (proj1 (SetBaudRate_spec b _) Hb). simpl negb. cbv iota.
  assert (Hdb : 5 <= db <= 8 \/ (db < 5 \/ 8 < db)) by lia.
  destruct Hdb as [Hdb | Hdb].
  2:{ left. repeat split; trivial.
      rewrite (proj2 (SetDataBits_spec db _) Hdb). reflexivity. }
  right. rewrite (proj1 (SetDataBits_spec db _) Hdb). simpl negb. cbv iota.
  assert (Hsb : 1 <= sb <= 3 \/ (sb < 1 \/ 3 < sb)) by lia.
  destruct Hsb as [Hsb | Hsb].
  2:{ left. repeat split; trivial; try lia.
      rewrite (proj2 (SetStopBits_spec sb _) Hsb). reflexivity. }
  right.
  destruct (proj1 (SetStopBits_spec sb
              (ComSerial.with_data_bits db
                 (ComSerial.with_baud_rate b
                    (ComSerial.with_device d ComSerial.members_default)))) Hsb)
    as (vs & Hset_s & Hget_s).
  rewrite Hset_s. simpl negb. cbv iota.
  destruct (parity_code_dec p) as [Hp | Hp].
  2:{ left. repeat split; trivial; try lia.
      rewrite (SetParity_rejects _ Hp). reflexivity. }
  right.
  match goal with
  | |- context [ComSerial.SetParity p ?s0] =>
      destruct (SetParity_stores s0 Hp) as (vp & Hset_p & Hget_p)
  end.
  rewrite Hset_p. simpl negb. cbv iota.
  destruct (flow_control_code_dec f) as [Hf | Hf].
  2:{ left. repeat split; trivial; try lia.
      rewrite (SetFlowControl_rejects _ Hf). reflexivity. }
  right.
  match goal with
  | |- context [ComSerial.SetFlowControl f ?s0] =>
      destruct (SetFlowControl_stores s0 Hf) as (vf & Hset_f & Hget_f)
  end.
  rewrite Hset_f. simpl negb. cbv iota.
  destruct (Z.eq_dec t 0) as [Ht | Ht].
  { left. repeat split; trivial; try lia.
    rewrite (proj2 (serial_SetWriteTimeout_spec t _) Ht). reflexivity. }
  right. repeat split; trivial; try lia.
  rewrite (proj1 (serial_SetWriteTimeout_spec t _) Ht). simpl negb. cbv iota.
  rewrite (proj1 (serial_SetReadTimeout_spec t _) Ht). simpl negb. cbv iota.
  eexists. split; [reflexivity|].
  repeat split.
  - exact (Hget_s ComSerial.members_default).
  - exact (Hget_p ComSerial.members_default).
  - exact (Hget_f ComSerial.members_default).
Qed.

(** X3.  The constructor of ComSerial returns an object exactly when the
    device name is not empty, the baud rate is not 0, the data bits are 5 to
    8, the stop bits 1 to 3, parity and flow control are one of their six
    letters and the timeout is not 0.  The object is closed and its getters
    return the arguments (parity and flow control in lower case, both
    timeouts the one timeout given). *)
Theorem ComSerial_constructor_succeeds_iff_valid_and_reads_back :
  forall (d : string) (b db sb : Z) (p f : ascii) (t : Z),
    let made := ComSerial.ComSerial d b db sb p f t in
    ((exists s : ComSerial.t, made = object s) <->
     (d <> ""%string /\ b <> 0 /\ 5 <= db <= 8 /\ 1 <= sb <= 3 /\
      parity_code p /\ flow_control_code f /\ t <> 0)) /\
    (forall s : ComSerial.t,
       made = object s ->
       ComSerial.Opened s = false /\
       ComSerial.GetDevice s = d /\
       ComSerial.GetBaudRate s = b /\
       ComSerial.GetDataBits s = db /\
       ComSerial.GetStopBits s = sb /\
       ComSerial.GetParity s = lower_case p /\
       ComSerial.GetFlowControl s = lower_case f /\
       (0 <= t <= UINT_MAX ->
        ComSerial.GetWriteTimeout s = t /\ ComSerial.GetReadTimeout s = t)).
Proof.
  intros d b db sb p f t made.
  pose proof (ComSerial_constructor_cases d b db sb p f t) as H.
  fold made in H.
  destruct H as [(H1 & Hm) | [(H1 & H2 & Hm) | [(H1 & H2 & H3 & Hm) |
    [(H1 & H2 & H3 & H4 & Hm) | [(H1 & H2 & H3 & H4 & H5 & Hm) |
    [(H1 & H2 & H3 & H4 & H5 & H6 & Hm) |
    [(H1 & H2 & H3 & H4 & H5 & H6 & H7 & Hm) |
     (H1 & H2 & H3 & H4 & H5 & H6 & H7 & s0 & Hm & Hread)]]]]]]];
    rewrite Hm.
  1-7: split; [split; [intros [s Hs]; discriminate Hs | intros; exfalso; tauto || lia]
              | intros s Hs; discriminate Hs].
  split.
  - split; [intros _; repeat split; trivial; lia | intros _; exists s0; reflexivity].
  - intros s Hs. inversion Hs; subst s.
    destruct Hread as (Ho & Hd & Hb & Hdb & Hsb & Hp & Hf & Hw & Hr).
    repeat split; trivial.
    + unfold ComSerial.GetWriteTimeout. rewrite Hw.
      apply milliseconds_round_trip; assumption.
    + unfold ComSerial.GetReadTimeout. rewrite Hr.
      apply milliseconds_round_trip; assumption.
Qed.

Lemma ComSerial_constructor_example :
  (exists s : ComSerial.t,
     ComSerial.ComSerial "/dev/ttyS0" 9600 7 2 "E" "S" 250 = object s) /\
  ComSerial.GetParity example_serial = "n"%char /\
  ComSerial.GetFlowControl example_serial = "h"%char /\
  ComSerial.GetReadTimeout example_serial = 1000.
Proof.
  split.
  - apply (proj1 (ComSerial_constructor_succeeds_iff_valid_and_reads_back
                    "/dev/ttyS0" 9600 7 2 "E" "S" 250)).
    unfold parity_code, flow_control_code.
    repeat split; try lia; try discriminate; tauto.
  - pose proof (proj2 (ComSerial_constructor_succeeds_iff_valid_and_reads_back
                         "COM1" 38400 8 1 "n" "h" 1000) example_serial eq_refl)
      as (_ & _ & _ & _ & _ & Hp & Hf & Ht).
    split; [exact Hp | split; [exact Hf|]].
    apply Ht. unfold UINT_MAX. lia.
Defined.

(** X4.  When the constructor of ComSerial throws, the message names the
    first argument that is invalid, in the order device, baud rate, data
    bits, stop bits, parity, flow control, timeout: later arguments are not
    looked at. *)
Theorem ComSerial_constructor_reports_the_first_invalid_argument :
  forall (d : string) (b db sb : Z) (p f : ascii) (t : Z),
    let made := ComSerial.ComSerial d b db sb p f t in
    (d = ""%string -> made = throws "invalid device name") /\
    (d <> ""%string -> b = 0 -> made = throws "invalid baud rate") /\
    (d <> ""%string -> b <> 0 -> db < 5 \/ 8 < db ->
     made = throws "invalid data bits value") /\
    (d <> ""%string -> b <> 0 -> 5 <= db <= 8 -> sb < 1 \/ 3 < sb ->
     made = throws "invalid stop bits value") /\
    (d <> ""%string -> b <> 0 -> 5 <= db <= 8 -> 1 <= sb <= 3 ->
     ~ parity_code p -> made = throws "invalid parity value") /\
    (d <> ""%string -> b <> 0 -> 5 <= db <= 8 -> 1 <= sb <= 3 ->
     parity_code p -> ~ flow_control_code f ->
     made = throws "invalid flow control value") /\
    (d <> ""%string -> b <> 0 -> 5 <= db <= 8 -> 1 <= sb <= 3 ->
     parity_code p -> flow_control_code f -> t = 0 ->
     made = throws "invalid timeout value").
Proof.
  intros d b db sb p f t made.
  pose proof (ComSerial_constructor_cases d b db sb p f t) as H.
  fold made in H.
  destruct H as [(H1 & Hm) | [(H1 & H2 & Hm) | [(H1 & H2 & H3 & Hm) |
    [(H1 & H2 & H3 & H4 & Hm) | [(H1 & H2 & H3 & H4 & H5 & Hm) |
    [(H1 & H2 & H3 & H4 & H5 & H6 & Hm) |
    [(H1 & H2 & H3 & H4 & H5 & H6 & H7 & Hm) |
     (H1 & H2 & H3 & H4 & H5 & H6 & H7 & s0 & Hm & Hread)]]]]]]];
    repeat split; intros; try exact Hm; exfalso; tauto || lia.
Qed.

Lemma ComSerial_constructor_messages_example :
  ComSerial.ComSerial "" 0 0 0 "x" "x" 0 = throws "invalid device name" /\
  ComSerial.ComSerial "COM1" 38400 9 0 "x" "x" 0 = throws "invalid data bits value" /\
  ComSerial.ComSerial "COM1" 38400 8 1 "n" "h" 0 = throws "invalid timeout value".
Proof.
  assert (Hn : parity_code "n") by (unfold parity_code; tauto).
  assert (Hh : flow_control_code "h") by (unfold flow_control_code; tauto).
  split; [|split].
  - exact (proj1 (ComSerial_constructor_reports_the_first_invalid_argument
                    "" 0 0 0 "x" "x" 0) eq_refl).
  - refine (proj1 (proj2 (proj2
             (ComSerial_constructor_reports_the_first_invalid_argument
                "COM1" 38400 9 0 "x" "x" 0))) _ _ _); [discriminate | lia | lia].
  - refine (proj2 (proj2 (proj2 (proj2 (proj2 (proj2
             (ComSerial_constructor_reports_the_first_invalid_argument
                "COM1" 38400 8 1 "n" "h" 0)))))) _ _ _ _ Hn Hh eq_refl);
      [discriminate | lia | lia | lia].
Defined.

(** ** The configuration of ComSocket *)

Lemma SetPort_spec :
  forall (port : Z) (s : ComSocket.t),
    (port <= 65535 ->
     ComSocket.SetPort port s = (true, ComSocket.with_port port s)) /\
    (65535 < port -> ComSocket.SetPort port s = (false, s)).
Proof.
  intros port s. unfold ComSocket.SetPort.
  destruct (Z.ltb_spec 65535 port); split; intros; try reflexivity; lia.
Qed.

Lemma socket_timeouts_spec :
  forall (t : Z) (s : ComSocket.t),
    (t <> 0 ->
     ComSocket.SetOpenTimeout t s
       = (true, ComSocket.with_open_timeout (milliseconds t) s) /\
     ComSocket.SetWriteTimeout t s
       = (true, ComSocket.with_write_timeout (milliseconds t) s) /\
     ComSocket.SetReadTimeout t s
       = (true, ComSocket.with_read_timeout (milliseconds t) s)) /\
    (t = 0 ->
     ComSocket.SetOpenTimeout t s = (false, s) /\
     ComSocket.SetWriteTimeout t s = (false, s) /\
     ComSocket.SetReadTimeout t s = (false, s)).
Proof.
  intros t s.
  unfold ComSocket.SetOpenTimeout, ComSocket.SetWriteTimeout, ComSocket.SetReadTimeout.
  destruct (Z.eqb_spec t 0); split; intros; repeat split; congruence.
Qed.

(** X5.  SetPort accepts every port up to 65535: GetPort then returns it
    and address, timeouts and the open state are as before.  A port above
    65535 is rejected and the object stays as it was, so GetPort still
    returns the previous port. *)
Theorem SetPort_accepts_up_to_65535_and_reads_back :
  forall (port : Z) (s : ComSocket.t),
    (port <= 65535 ->
     fst (ComSocket.SetPort port s) = true /\
     ComSocket.GetPort (snd (ComSocket.SetPort port s)) = port /\
     ComSocket.GetAddress (snd (ComSocket.SetPort port s)) = ComSocket.GetAddress s /\
     ComSocket.GetOpenTimeout (snd (ComSocket.SetPort port s))
       = ComSocket.GetOpenTimeout s /\
     ComSocket.Opened (snd (ComSocket.SetPort port s)) = ComSocket.Opened s) /\
    (65535 < port ->
     ComSocket.SetPort port s = (false, s) /\
     ComSocket.GetPort (snd (ComSocket.SetPort port s)) = ComSocket.GetPort s).
Proof.
  intros port s. split; intros H.
  - rewrite (proj1 (SetPort_spec port s) H). repeat split.
  - rewrite (proj2 (SetPort_spec port s) H). split; reflexivity.
Qed.

Lemma SetPort_at_the_boundary :
  ComSocket.GetPort (snd (ComSocket.SetPort 65535 example_client)) = 65535 /\
  ComSocket.SetPort 65536 example_client = (false, example_client) /\
  ComSocket.GetPort (snd (ComSocket.SetPort 65536 example_client)) = 3444.
Proof.
  pose proof (proj1 (SetPort_accepts_up_to_65535_and_reads_back 65535 example_client)
                ltac:(lia)) as (_ & Hget & _).
  pose proof (proj2 (SetPort_accepts_up_to_65535_and_reads_back 65536 example_client)
                ltac:(lia)) as (Hrej & Hkeep).
  split; [exact Hget | split; [exact Hrej | exact Hkeep]].
Defined.

(** The constructor of ComSocket, case by case. *)
Lemma ComSocket_constructor_cases :
  forall (addr : string) (port t : Z),
    let made := ComSocket.ComSocket addr port t in
    let accepted := (addr = ""%string \/ snd (from_string addr) = success) in
    (~ accepted /\ made = throws "invalid IP address") \/
    (accepted /\ 65535 < port /\ made = throws "invalid TCP port") \/
    (accepted /\ port <= 65535 /\ t = 0 /\ made = throws "invalid timeout value") \/
    (accepted /\ port <= 65535 /\ t <> 0 /\
     exists s : ComSocket.t,
       made = object s /\
       ComSocket.Opened s = false /\
       ComSocket.m_address s
         = (if String.eqb addr "" then default_address else fst (from_string addr)) /\
       ComSocket.GetPort s = port /\
       ComSocket.m_open_timeout s = milliseconds t /\
       ComSocket.m_write_timeout s = milliseconds t /\
       ComSocket.m_read_timeout s = milliseconds t).
Proof.
  intros addr port t made accepted. subst made accepted.
  unfold ComSocket.ComSocket.
  assert (Haddr :
            (addr = ""%string \/ snd (from_string addr) = success) /\
            ComSocket.SetAddress addr ComSocket.members_default
            = (true, ComSocket.with_address
                       (if String.eqb addr "" then default_address
                        else fst (from_string addr)) ComSocket.members_default)
            \/
            ~ (addr = ""%string \/ snd (from_string addr) = success) /\
            fst (ComSocket.SetAddress addr ComSocket.members_default) = false).
  { unfold ComSocket.SetAddress.
    destruct (String.eqb_spec addr "") as [He | He].
    - left. split; [left; exact He | reflexivity].
    - destruct (from_string addr) as [a ec]. simpl.
      destruct ec; simpl;
        try (left; split; [right; reflexivity | reflexivity]);
        right; (split; [intros [H | H]; [contradiction | discriminate H] | reflexivity]). }
  destruct Haddr as [[Hacc Hset] | [Hrej Hset]].
  2:{ left. split; [exact Hrej|].
      destruct (ComSocket.SetAddress addr ComSocket.members_default) as [ok s1].
      simpl in Hset. subst ok. reflexivity. }
  right. rewrite Hset. simpl negb. cbv iota.
  destruct (Z.ltb_spec 65535 port) as [Hp | Hp].
  { left. repeat split; trivial.
    rewrite (proj2 (SetPort_spec port _) Hp). reflexivity. }
  right. rewrite (proj1 (SetPort_spec port _) Hp). simpl negb. cbv iota.
  destruct (Z.eq_dec t 0) as [Ht | Ht].
  { left. repeat split; trivial.
    rewrite (proj1 (proj2 (socket_timeouts_spec t _) Ht)). reflexivity. }
  right. repeat split; trivial.
  rewrite (proj1 (proj1 (socket_timeouts_spec t _) Ht)). simpl negb. cbv iota.
  rewrite (proj1 (proj2 (proj1 (socket_timeouts_spec t _) Ht))). simpl negb. cbv iota.
  rewrite (proj2 (proj2 (proj1 (socket_timeouts_spec t _) Ht))). simpl negb. cbv iota.
  eexists. split; [reflexivity|]. repeat split.
Qed.

(** X6.  The constructor of ComSocket returns an object exactly when the
    address is empty or parses as an IPv6 address (with or without a zone
    suffix) or as a dotted-quad IPv4 address, the port is at most 65535 and
    the timeout is not 0; otherwise it throws, naming the first of address,
    port and timeout that is invalid.  The object is closed, GetPort
    returns the port, and the open, write and read timeouts all return the
    one timeout given. *)
Theorem ComSocket_constructor_succeeds_iff_valid_and_reads_back :
  forall (addr : string) (port t : Z),
    let made := ComSocket.ComSocket addr port t in
    let accepted := (addr = ""%string \/ snd (from_string addr) = success) in
    ((exists s : ComSocket.t, made = object s) <->
     (accepted /\ port <= 65535 /\ t <> 0)) /\
    (~ accepted -> made = throws "invalid IP address") /\
    (accepted -> 65535 < port -> made = throws "invalid TCP port") /\
    (accepted -> port <= 65535 -> t = 0 -> made = throws "invalid timeout value") /\
    (forall s : ComSocket.t,
       made = object s ->
       ComSocket.Opened s = false /\
       ComSocket.GetPort s = port /\
       (0 <= t <= UINT_MAX ->
        ComSocket.GetOpenTimeout s = t /\
        ComSocket.GetWriteTimeout s = t /\
        ComSocket.GetReadTimeout s = t)).
Proof.
  intros addr port t made accepted.
  pose proof (ComSocket_constructor_cases addr port t) as H.
  fold made in H. fold accepted in H.
  destruct H as [(H1 & Hm) | [(H1 & H2 & Hm) | [(H1 & H2 & H3 & Hm) |
                 (H1 & H2 & H3 & s0 & Hm & Ho & Ha & Hp & Hot & Hwt & Hrt)]]];
    rewrite Hm.
  1-3: split; [split; [intros [s Hs]; discriminate Hs | intros; exfalso; tauto || lia]|];
       repeat split; intros; try reflexivity; try discriminate;
       exfalso; tauto || lia.
  split; [split; [intros _; tauto | intros _; exists s0; reflexivity]|].
  split; [intros; exfalso; tauto|].
  split; [intros; exfalso; lia|].
  split; [intros; exfalso; lia|].
  intros s Hs. inversion Hs; subst s.
  repeat split; trivial.
  - unfold ComSocket.GetOpenTimeout. rewrite Hot.
    apply milliseconds_round_trip; assumption.
  - unfold ComSocket.GetWriteTimeout. rewrite Hwt.
    apply milliseconds_round_trip; assumption.
  - unfold ComSocket.GetReadTimeout. rewrite Hrt.
    apply milliseconds_round_trip; assumption.
Qed.

Lemma ComSocket_constructor_examples :
  ComSocket.ComSocket "localhost" 3444 1000 = throws "invalid IP address" /\
  ComSocket.ComSocket "127.0.0.1" 70000 1000 = throws "invalid TCP port" /\
  ComSocket.ComSocket "127.0.0.1" 3444 0 = throws "invalid timeout value" /\
  ComSocket.GetOpenTimeout example_server = 1000.
Proof.
  pose proof (ComSocket_constructor_succeeds_iff_valid_and_reads_back
                "localhost" 3444 1000) as (_ & Ha & _).
  pose proof (ComSocket_constructor_succeeds_iff_valid_and_reads_back
                "127.0.0.1" 70000 1000) as (_ & _ & Hp & _).
  pose proof (ComSocket_constructor_succeeds_iff_valid_and_reads_back
                "127.0.0.1" 3444 0) as (_ & _ & _ & Ht & _).
  pose proof (ComSocket_constructor_succeeds_iff_valid_and_reads_back
                "" 3444 1000) as (_ & _ & _ & _ & Hr).
  split; [|split; [|split]].
  - apply Ha. intros [H | H]; discriminate H.
  - apply Hp; [right; reflexivity | lia].
  - apply Ht; [right; reflexivity | lia | reflexivity].
  - apply (Hr example_server eq_refl). unfold UINT_MAX. lia.
Defined.

Lemma from_string_failure_gives_the_default_address :
  forall addr : string,
    snd (from_string addr) <> success -> fst (from_string addr) = default_address.
Proof.
  intros addr. unfold from_string.
  destruct (inet_pton6 (before_zone (c_str addr))); simpl; [congruence|].
  destruct (inet_pton4 (c_str addr)); simpl; congruence.
Qed.

(** X7.  SetAddress assigns the result of the parse before it looks at the
    error code.  So a non-empty address that parses neither as an IPv6
    address (with or without a zone suffix) nor as a dotted-quad IPv4
    address makes it return false and all the same replaces the configured
    address by the default-constructed one: GetAddress then returns the empty
    string and the object is in server mode (Open binds the configured
    port, listens and accepts, and asks nothing of the connecting side),
    whatever address was set before. *)
Theorem rejected_SetAddress_leaves_server_mode :
  forall (addr : string) (s : ComSocket.t),
    addr <> ""%string ->
    snd (from_string addr) <> success ->
    let s' := snd (ComSocket.SetAddress addr s) in
    fst (ComSocket.SetAddress addr s) = false /\
    ComSocket.m_address s' = default_address /\
    ComSocket.GetAddress s' = ""%string /\
    server_mode s' /\
    ComSocket.GetPort s' = ComSocket.GetPort s.
Proof.
  intros addr s Hne Hbad s'. subst s'.
  pose proof (from_string_failure_gives_the_default_address addr Hbad) as Hdef.
  destruct (from_string addr) as [a ec] eqn:Hparse. simpl in Hbad, Hdef. subst a.
  rewrite (SetAddress_parsed s Hne Hparse).
  assert (Hfailed : failed ec = true) by (destruct ec; try reflexivity; contradiction).
  rewrite Hfailed. simpl.
  split; [reflexivity|].
  split; [reflexivity|].
  split; [reflexivity|].
  split; [apply unspecified_server_mode; reflexivity | reflexivity].
Qed.

Lemma rejected_SetAddress_on_the_example_client :
  ComSocket.GetAddress example_client = "192.168.1.100"%string /\
  fst (ComSocket.SetAddress "localhost" example_client) = false /\
  ComSocket.GetAddress (snd (ComSocket.SetAddress "localhost" example_client))
    = ""%string.
Proof.
  split; [reflexivity|].
  refine (let H := @rejected_SetAddress_leaves_server_mode
                     "localhost" example_client _ _ in
          conj (proj1 H) (proj1 (proj2 (proj2 H)))); discriminate.
Defined.

(** ** Open of ComSocket *)

Ltac socket_leaf :=
  simpl; intros; observed; simpl in *;
  unfold ComSocket.GetAddress, ComSocket.GetPort, ComSocket.Opened in *;
  simpl in *;
  repeat match goal with
         | H : ?x = _ |- context [?x] => rewrite H
         end;
  repeat split; try reflexivity; try discriminate; try congruence; auto.

Lemma Open_endpoints :
  forall s : ComSocket.t,
    always (fun _ tr =>
              (forall a p, observe connect_target tr = Some (a, p) ->
                           a = ComSocket.m_address s /\
                           to_string a = ComSocket.GetAddress s /\
                           p = ComSocket.GetPort s) /\
              (forall p, observe bind_port tr = Some p -> p = ComSocket.GetPort s))
           (ComSocket.Open s).
Proof.
  intros s. unfold_Open.
  always_steps; split; socket_leaf.
Qed.

(** X8.  Open uses the configuration of the object: a connect it starts
    goes to the stored address, whose text is what GetAddress returns, and
    to the port GetPort returns; a bind it makes is on the port GetPort
    returns. *)
Theorem Open_connects_and_binds_as_configured :
  forall (E : environment) (w : world E) (s : ComSocket.t),
    let call := exec E (ComSocket.Open s) w in
    (forall (a : address) (p : Z),
       observe connect_target (trace call) = Some (a, p) ->
       a = ComSocket.m_address s /\
       to_string a = ComSocket.GetAddress s /\
       p = ComSocket.GetPort s) /\
    (forall p : Z,
       observe bind_port (trace call) = Some p -> p = ComSocket.GetPort s).
Proof.
  intros E w s.
  exact (@always_exec _ _ _ (Open_endpoints s) E w).
Qed.

Lemma Open_of_the_examples_uses_their_endpoints :
  observe connect_target
    (trace (exec (scripted all_well) (ComSocket.Open example_client) tt))
  = Some (address_v4 [192; 168; 1; 100], 3444) /\
  to_string (address_v4 [192; 168; 1; 100]) = ComSocket.GetAddress example_client /\
  observe bind_port
    (trace (exec (scripted all_well) (ComSocket.Open example_server) tt))
  = Some 3444.
Proof.
  split; [reflexivity|].
  split.
  - exact (proj1 (proj2 (proj1 (@Open_connects_and_binds_as_configured
                                  (scripted all_well) tt example_client)
                           (address_v4 [192; 168; 1; 100]) 3444 eq_refl))).
  - reflexivity.
Defined.

Lemma Open_true_means_opened :
  forall s : ComSocket.t,
    always (fun r tr =>
              (fst r = true <-> open_went_through tr) /\
              (fst r = true -> ComSocket.Opened (snd r) = true))
           (ComSocket.Open s).
Proof.
  intros s. unfold_Open.
  always_steps; unfold open_went_through; simpl in *;
    (split; [split|]); intros; try discriminate; try reflexivity;
    repeat match goal with
           | H : _ /\ _ |- _ => destruct H
           | H : False |- _ => destruct H
           end;
    try congruence;
    repeat match goal with
           | |- _ /\ _ => split
           end; trivial;
    try match goal with
        | |- ?e = success \/ ?e = operation_aborted =>
            destruct e; simpl in *; auto; discriminate
        | H : failed (if failed ?a then ?a else ?b) = false |- failed ?b = false =>
            let Ha := fresh "Ha" in
            destruct (failed a) eqn:Ha; [congruence | exact H]
        | H : failed (if failed ?a then ?a else ?b) = false |- failed ?a = false =>
            let Ha := fresh "Ha" in
            destruct (failed a) eqn:Ha; [congruence | reflexivity]
        | H : failed (if failed ?a then ?a else ?b) = true,
          Ha : failed ?a = false, Hb : failed ?b = false |- _ =>
            rewrite Ha in H; congruence
        | H : ?e = success \/ ?e = operation_aborted |- _ =>
            destruct H; subst; simpl in *; try reflexivity; congruence
        end.
Qed.

(** X9.  Open of a ComSocket returns true exactly when the connect or
    accept completed without error or with [operation_aborted], run()
    reported no error, closing the acceptor (server mode) reported none and
    the socket was put in non-blocking mode without error.  Whenever Open
    returns true the object is opened. *)
Theorem Open_returns_true_exactly_when_it_went_through :
  forall (E : environment) (w : world E) (s : ComSocket.t),
    let call := exec E (ComSocket.Open s) w in
    (fst (result call) = true <-> open_went_through (trace call)) /\
    (fst (result call) = true -> ComSocket.Opened (snd (result call)) = true).
Proof.
  intros E w s.
  exact (@always_exec _ _ _ (Open_true_means_opened s) E w).
Qed.

Lemma Open_of_the_example_server_accepts :
  let call := exec (scripted all_well) (ComSocket.Open example_server) tt in
  fst (result call) = true /\ ComSocket.Opened (snd (result call)) = true /\
  observe open_answer (trace call) = Some success.
Proof.
  intros call.
  assert (Hret : fst (result call) = true) by reflexivity.
  split; [exact Hret|].
  split; [|reflexivity].
  exact (proj2 (@Open_returns_true_exactly_when_it_went_through
                  (scripted all_well) tt example_server) Hret).
Defined.

Lemma Open_client_failed_connect :
  forall s : ComSocket.t,
    is_unspecified (ComSocket.m_address s) = false ->
    always (fun r tr =>
              forall e : error_code,
                observe open_answer tr = Some e ->
                e <> success -> e <> operation_aborted ->
                observe run_answer tr = Some success ->
                observe non_blocking_answer tr = Some success ->
                fst r = false /\ ComSocket.Opened (snd r) = true)
           (ComSocket.Open s).
Proof.
  intros s Hclient. unfold_Open.
  always_steps; simpl in *; observed; simpl in *; try discriminate;
    try congruence;
    try match goal with
        | |- context [failed ?e && negb (error_code_eqb ?e operation_aborted)] =>
            destruct e; simpl in *; try congruence
        end;
    split; reflexivity.
Qed.

(** X10.  In client mode, when the connect completes with an error other
    than [operation_aborted] (the peer refuses, say), run() reports no
    error and the socket takes the non-blocking mode, Open returns false but
    leaves the socket that the connect opened open: Opened then returns
    true although Open failed. *)
Theorem Open_client_leaves_the_socket_open_when_the_connect_fails :
  forall (E : environment) (w : world E) (s : ComSocket.t) (e : error_code),
    let call := exec E (ComSocket.Open s) w in
    is_unspecified (ComSocket.m_address s) = false ->
    observe open_answer (trace call) = Some e ->
    e <> success -> e <> operation_aborted ->
    observe run_answer (trace call) = Some success ->
    observe non_blocking_answer (trace call) = Some success ->
    fst (result call) = false /\ ComSocket.Opened (snd (result call)) = true.
Proof.
  intros E w s e call Hclient.
  exact (@always_exec _ _ _ (Open_client_failed_connect s Hclient) E w e).
Qed.

Lemma Open_of_the_example_client_when_refused :
  let call := exec (scripted connection_refused) (ComSocket.Open example_client) tt in
  ComSocket.Opened example_client = false /\
  fst (result call) = false /\ ComSocket.Opened (snd (result call)) = true.
Proof.
  intros call. split; [reflexivity|].
  refine (@Open_client_leaves_the_socket_open_when_the_connect_fails
            (scripted connection_refused) tt example_client (system_error 111)
            eq_refl eq_refl _ _ eq_refl eq_refl); discriminate.
Defined.






(** ** The blocking transfers *)

Ltac outcome_leaf :=
  unfold transfer_outcome; simpl;
  split; [repeat match goal with
                 | H : error_code_eqb _ _ = _ |- _ => rewrite H; clear H
                 end; reflexivity|];
  split; [intros; observed; simpl in *; try reflexivity; congruence|];
  split; [ let n := fresh "n" in
           let Hn := fresh "Hn" in
           intros n Hn; intros; observed; simpl in *; try discriminate;
           apply (to_int_small Hn)
         | intros; observed; simpl in *; try reflexivity;
           match goal with
           | |- context [failed ?e && negb (error_code_eqb ?e operation_aborted)] =>
               destruct e; simpl in *; try reflexivity; congruence
           end ].

Lemma serial_Read_outcome :
  forall (s : ComSerial.t) (len : Z),
    always (fun ret tr =>
              transfer_outcome serial_port ret tr /\
              observe armed_duration tr = Some (ComSerial.m_read_timeout s))
           (ComSerial.Read s len).
Proof.
  intros s len.
  unfold ComSerial.Read, ComSerial.timeout_handler, ComSerial.read_write_handler.
  always_steps; (split; [outcome_leaf | reflexivity]).
Qed.

Lemma serial_Write_outcome :
  forall (s : ComSerial.t) (len : Z),
    always (fun ret tr =>
              transfer_outcome serial_port ret tr /\
              observe armed_duration tr = Some (ComSerial.m_write_timeout s))
           (ComSerial.Write s len).
Proof.
  intros s len.
  unfold ComSerial.Write, ComSerial.timeout_handler, ComSerial.read_write_handler.
  always_steps; (split; [outcome_leaf | reflexivity]).
Qed.

Lemma socket_Read_outcome :
  forall (s : ComSocket.t) (len : Z),
    always (fun ret tr =>
              transfer_outcome tcp_socket ret tr /\
              observe armed_duration tr = Some (ComSocket.m_read_timeout s))
           (ComSocket.Read s len).
Proof.
  intros s len.
  unfold ComSocket.Read, ComSocket.timeout_handler, ComSocket.read_write_handler.
  always_steps; (split; [outcome_leaf | reflexivity]).
Qed.

Lemma socket_Write_outcome :
  forall (s : ComSocket.t) (len : Z),
    always (fun ret tr =>
              transfer_outcome tcp_socket ret tr /\
              observe armed_duration tr = Some (ComSocket.m_write_timeout s))
           (ComSocket.Write s len).
Proof.
  intros s len.
  unfold ComSocket.Write, ComSocket.timeout_handler, ComSocket.read_write_handler.
  always_steps; (split; [outcome_leaf | reflexivity]).
Qed.

Lemma transfer_outcome_of_every_run :
  forall (E : environment) (w : world E) (c : blocking_transfer) (len : Z),
    let call := exec E (transfer_program c len) w in
    transfer_outcome (transfer_handle c) (result call) (trace call) /\
    observe armed_duration (trace call) = Some (transfer_timeout c).
Proof.
  intros E w c len call. subst call. destruct c as [s | s | s | s]; simpl.
  - exact (@always_exec _ _ _ (serial_Read_outcome s len) E w).
  - exact (@always_exec _ _ _ (serial_Write_outcome s len) E w).
  - exact (@always_exec _ _ _ (socket_Read_outcome s len) E w).
  - exact (@always_exec _ _ _ (socket_Write_outcome s len) E w).
Qed.

Ltac dispatched_leaf :=
  unfold transfer_dispatched, transfer_return; simpl;
  repeat match goal with
         | r : (error_code * Z)%type |- _ => destruct r
         end;
  simpl in *;
  do 3 eexists;
  split; [reflexivity|];
  split; [reflexivity|];
  repeat match goal with
         | H : ?b = _ |- context [?b] => rewrite H
         end;
  reflexivity.

Lemma serial_Read_dispatched :
  forall (s : ComSerial.t) (len : Z),
    always transfer_dispatched (ComSerial.Read s len).
Proof.
  intros s len.
  unfold ComSerial.Read, ComSerial.timeout_handler, ComSerial.read_write_handler.
  always_steps; dispatched_leaf.
Qed.

Lemma serial_Write_dispatched :
  forall (s : ComSerial.t) (len : Z),
    always transfer_dispatched (ComSerial.Write s len).
Proof.
  intros s len.
  unfold ComSerial.Write, ComSerial.timeout_handler, ComSerial.read_write_handler.
  always_steps; dispatched_leaf.
Qed.

Lemma socket_Read_dispatched :
  forall (s : ComSocket.t) (len : Z),
    always transfer_dispatched (ComSocket.Read s len).
Proof.
  intros s len.
  unfold ComSocket.Read, ComSocket.timeout_handler, ComSocket.read_write_handler.
  always_steps; dispatched_leaf.
Qed.

Lemma socket_Write_dispatched :
  forall (s : ComSocket.t) (len : Z),
    always transfer_dispatched (ComSocket.Write s len).
Proof.
  intros s len.
  unfold ComSocket.Write, ComSocket.timeout_handler, ComSocket.read_write_handler.
  always_steps; dispatched_leaf.
Qed.

(** X13.  What Read and Write of both transports return.  In every
    environment the completion of the transfer (an error code [e] and a
    byte count [n]) is dispatched and run() delivers its result [ec], and
    the value returned is a function of the three: -1 when run() reports
    an error; otherwise -1 when the transfer completed with an error other
    than [operation_aborted], whatever was transferred before the error;
    otherwise the byte count as an int, so for a transfer that completed
    without error the count itself when it is at most INT_MAX. *)
Theorem blocking_transfer_returns_count_or_minus_one :
  forall (E : environment) (w : world E) (c : blocking_transfer) (len : Z),
    let call := exec E (transfer_program c len) w in
    exists (e : error_code) (n : Z) (ec : error_code),
      observe transfer_answer (trace call) = Some (e, n) /\
      observe run_answer (trace call) = Some ec /\
      result call
      = (if failed ec then -1
         else if failed e && negb (error_code_eqb e operation_aborted) then -1
              else to_int n) /\
      (failed ec = true -> result call = -1) /\
      (e <> success -> e <> operation_aborted -> result call = -1) /\
      (ec = success -> e = success -> 0 <= n <= INT_MAX -> result call = n).
Proof.
  intros E w c len call.
  assert (H : transfer_dispatched (result call) (trace call)).
  { subst call. destruct c as [s | s | s | s]; simpl.
    - exact (@always_exec _ _ _ (serial_Read_dispatched s len) E w).
    - exact (@always_exec _ _ _ (serial_Write_dispatched s len) E w).
    - exact (@always_exec _ _ _ (socket_Read_dispatched s len) E w).
    - exact (@always_exec _ _ _ (socket_Write_dispatched s len) E w). }
  destruct H as (e & n & ec & Hio & Hrun & Hret).
  unfold transfer_return in Hret.
  exists e, n, ec.
  split; [exact Hio|]. split; [exact Hrun|]. split; [exact Hret|].
  rewrite Hret. split; [|split].
  - intros Hec. rewrite Hec. reflexivity.
  - intros He1 He2. destruct (failed ec); [reflexivity|].
    destruct e; try reflexivity; contradiction.
  - intros Hec He Hn. subst ec e. simpl. apply (to_int_small Hn).
Qed.

Lemma Write_in_full_and_Read_broken_after_five_bytes :
  result (exec (scripted (transfer_completes 4))
            (ComSocket.Write (ComSocket.with_socket true example_client) 4) tt) = 4 /\
  result (exec (scripted (transfer_breaks 5))
            (ComSerial.Read (ComSerial.with_port true example_serial) 10) tt) = -1.
Proof.
  split.
  - destruct (@blocking_transfer_returns_count_or_minus_one
                (scripted (transfer_completes 4)) tt
                (socket_Write (ComSocket.with_socket true example_client)) 4)
      as (e & n & ec & Hio & Hrun & _ & _ & _ & Hok).
    assert (He : e = success) by (vm_compute in Hio; congruence).
    assert (Hn : n = 4) by (vm_compute in Hio; congruence).
    assert (Hec : ec = success) by (vm_compute in Hrun; congruence).
    subst n. apply (Hok Hec He). unfold INT_MAX. lia.
  - destruct (@blocking_transfer_returns_count_or_minus_one
                (scripted (transfer_breaks 5)) tt
                (serial_Read (ComSerial.with_port true example_serial)) 10)
      as (e & n & ec & Hio & _ & _ & _ & Herr & _).
    assert (He : e = system_error 5) by (vm_compute in Hio; congruence).
    apply Herr; rewrite He; discriminate.
Defined.

(** X14.  Read and Write ask for the pending transfer to be cancelled
    exactly when the timer completes with anything but
    [operation_aborted]: a timer that was itself cancelled, because the
    transfer completed first or Abort was called, never cancels the
    transfer. *)
Theorem transfer_is_cancelled_exactly_when_the_timer_expires :
  forall (E : environment) (w : world E) (c : blocking_transfer) (len : Z),
    let call := exec E (transfer_program c len) w in
    exists t : error_code,
      observe timer_answer (trace call) = Some t /\
      (existsb (is_cancel (transfer_handle c)) (trace call) = true <->
       t <> operation_aborted).
Proof.
  intros E w c len call.
  destruct (transfer_outcome_of_every_run E w c len) as ((Hcancel & _) & _).
  fold call in Hcancel.
  assert (Htimer : exists t, observe timer_answer (trace call) = Some t).
  { subst call.
    assert (H : forall (A : Type) (p : prog A),
               always (fun _ tr => exists t, observe timer_answer tr = Some t) p ->
               exists t, observe timer_answer (trace (exec E p w)) = Some t)
      by (intros A p Hp; exact (@always_exec _ _ _ Hp E w)).
    apply H.
    destruct c as [s | s | s | s]; simpl;
      unfold ComSerial.Read, ComSerial.Write, ComSocket.Read, ComSocket.Write,
        ComSerial.timeout_handler, ComSerial.read_write_handler,
        ComSocket.timeout_handler, ComSocket.read_write_handler;
      always_steps; eexists; reflexivity. }
  destruct Htimer as [t Ht]. exists t. split; [exact Ht|].
  rewrite Hcancel, Ht.
  destruct t; simpl; split; intros; congruence.
Qed.

(** X15.  Each blocking call arms the timer with its own timeout, as last
    set: after the three timeouts of a ComSocket are set to different
    values, Open runs under the open-timeout, Read under the read timeout
    and Write under the write timeout; likewise Read and Write of a
    ComSerial. *)
Theorem each_call_runs_under_its_own_timeout :
  forall (E : environment) (w : world E) (len t_open t_write t_read : Z)
         (ser : ComSerial.t) (sock : ComSocket.t),
    t_open <> 0 -> t_write <> 0 -> t_read <> 0 ->
    let sock' :=
      snd (ComSocket.SetReadTimeout t_read
             (snd (ComSocket.SetWriteTimeout t_write
                     (snd (ComSocket.SetOpenTimeout t_open sock))))) in
    let ser' :=
      snd (ComSerial.SetReadTimeout t_read
             (snd (ComSerial.SetWriteTimeout t_write ser))) in
    observe armed_duration (trace (exec E (ComSocket.Open sock') w))
      = Some (milliseconds t_open) /\
    observe armed_duration (trace (exec E (ComSocket.Read sock' len) w))
      = Some (milliseconds t_read) /\
    observe armed_duration (trace (exec E (ComSocket.Write sock' len) w))
      = Some (milliseconds t_write) /\
    observe armed_duration (trace (exec E (ComSerial.Read ser' len) w))
      = Some (milliseconds t_read) /\
    observe armed_duration (trace (exec E (ComSerial.Write ser' len) w))
      = Some (milliseconds t_write).
Proof.
  intros E w len t_open t_write t_read ser sock Ho Hw Hr sock' ser'.
  assert (Hsock : ComSocket.m_open_timeout sock' = milliseconds t_open /\
                  ComSocket.m_read_timeout sock' = milliseconds t_read /\
                  ComSocket.m_write_timeout sock' = milliseconds t_write).
  { subst sock'.
    rewrite (proj1 (proj1 (socket_timeouts_spec t_open sock) Ho)). simpl.
    rewrite (proj1 (proj2 (proj1 (socket_timeouts_spec t_write _) Hw))). simpl.
    rewrite (proj2 (proj2 (proj1 (socket_timeouts_spec t_read _) Hr))). simpl.
    repeat split. }
  assert (Hser : ComSerial.m_read_timeout ser' = milliseconds t_read /\
                 ComSerial.m_write_timeout ser' = milliseconds t_write).
  { subst ser'.
    rewrite (proj1 (serial_SetWriteTimeout_spec t_write ser) Hw). simpl.
    rewrite (proj1 (serial_SetReadTimeout_spec t_read _) Hr). simpl.
    repeat split. }
  destruct Hsock as (Hso & Hsr & Hsw). destruct Hser as (Hrr & Hrw).
  split; [|split; [|split; [|split]]].
  - rewrite <- Hso.
    apply (always_exec (fun _ tr => observe armed_duration tr
                                    = Some (ComSocket.m_open_timeout sock'))).
    unfold_Open. always_steps; reflexivity.
  - rewrite <- Hsr.
    exact (proj2 (transfer_outcome_of_every_run E w (socket_Read sock') len)).
  - rewrite <- Hsw.
    exact (proj2 (transfer_outcome_of_every_run E w (socket_Write sock') len)).
  - rewrite <- Hrr.
    exact (proj2 (transfer_outcome_of_every_run E w (serial_Read ser') len)).
  - rewrite <- Hrw.
    exact (proj2 (transfer_outcome_of_every_run E w (serial_Write ser') len)).
Qed.

Lemma timeouts_of_the_example_program :
  let sock := snd (ComSocket.SetOpenTimeout 10000 example_server) in
  observe armed_duration (trace (exec (scripted all_well) (ComSocket.Open sock) tt))
    = Some (milliseconds 10000) /\
  observe armed_duration (trace (exec (scripted all_well) (ComSocket.Read sock 127) tt))
    = Some (milliseconds 1000).
Proof.
  intros sock.
  pose proof (@each_call_runs_under_its_own_timeout (scripted all_well) tt 127
                10000 1000 1000 example_serial example_server
                ltac:(discriminate) ltac:(discriminate) ltac:(discriminate))
    as (Hopen & Hread & _).
  split; [exact Hopen | exact Hread].
Defined.

(** ** Open of ComSerial *)

Ltac booleans :=
  repeat match goal with
         | H : negb _ = true |- _ => apply negb_true_iff in H
         | H : negb _ = false |- _ => apply negb_false_iff in H
         | H : (_ =? _) = true |- _ => apply Z.eqb_eq in H
         | H : (_ =? _) = false |- _ => apply Z.eqb_neq in H
         end.

Lemma Open_serial_outcome :
  forall (pf : platform) (s : ComSerial.t),
    always (fun r tr =>
              ComSerial.Opened (snd r) = fst r /\
              (fst r = true ->
               observe opened_device tr = Some (ComSerial.GetDevice s) /\
               options_set tr = stored_options s /\
               (pf = posix ->
                observe tiocexcl_answer tr = Some 0 /\
                observe flock_answer tr = Some 0)) /\
              (pf = windows -> existsb is_exclusive_request tr = false) /\
              (forall rc : Z,
                 observe tiocexcl_answer tr = Some rc -> rc <> 0 ->
                 fst r = false /\
                 existsb is_flock tr = false /\
                 options_set tr = [] /\
                 existsb (is_close serial_port) tr = true))
           (ComSerial.Open pf s).
Proof.
  intros pf s. unfold ComSerial.Open, ComSerial.claim_exclusive, handle_close.
  destruct pf; always_steps; simpl in *; booleans; subst;
    unfold stored_options, ComSerial.GetDevice, ComSerial.GetBaudRate,
      ComSerial.GetDataBits, ComSerial.Opened; simpl;
    (split; [try assumption; reflexivity|]);
    (split; [intros; try discriminate; repeat split; try reflexivity; discriminate|]);
    (split; [intros; try discriminate; reflexivity|]);
    intros; observed; try congruence; repeat split; reflexivity.
Qed.

(** X16.  Open of a ComSerial leaves the port open exactly when it returns
    true, in every environment: each failure after the port was opened
    (exclusive access refused, an option rejected) closes it again, so
    after Open the value of Opened is the value Open returned. *)
Theorem serial_Open_leaves_the_port_open_iff_it_returns_true :
  forall (pf : platform) (E : environment) (w : world E) (s : ComSerial.t),
    let call := exec E (ComSerial.Open pf s) w in
    ComSerial.Opened (snd (result call)) = fst (result call).
Proof.
  intros pf E w s.
  exact (proj1 (@always_exec _ _ _ (Open_serial_outcome pf s) E w)).
Qed.

(** X17.  When Open of a ComSerial returns true it has opened the device
    GetDevice returns and has passed to the port exactly the stored baud
    rate, character size, stop bits, parity and flow control, in this
    order; outside Windows both requests for exclusive access (TIOCEXCL and
    flock) were answered 0. *)
Theorem serial_Open_applies_the_stored_configuration :
  forall (pf : platform) (E : environment) (w : world E) (s : ComSerial.t),
    let call := exec E (ComSerial.Open pf s) w in
    fst (result call) = true ->
    observe opened_device (trace call) = Some (ComSerial.GetDevice s) /\
    options_set (trace call) = stored_options s /\
    (pf = posix ->
     observe tiocexcl_answer (trace call) = Some 0 /\
     observe flock_answer (trace call) = Some 0).
Proof.
  intros pf E w s.
  exact (proj1 (proj2 (@always_exec _ _ _ (Open_serial_outcome pf s) E w))).
Qed.

Lemma serial_Open_of_the_example :
  let call := exec (scripted all_well) (ComSerial.Open posix example_serial) tt in
  fst (result call) = true /\
  observe opened_device (trace call) = Some "COM1"%string /\
  options_set (trace call)
  = [opt_baud_rate 38400; opt_character_size 8; opt_stop_bits stop_bits.one;
     opt_parity parity.none; opt_flow_control flow_control.hardware].
Proof.
  intros call.
  assert (Hret : fst (result call) = true) by reflexivity.
  destruct (@serial_Open_applies_the_stored_configuration posix
              (scripted all_well) tt example_serial Hret) as (Hdev & Hopts & _).
  split; [exact Hret | split; [exact Hdev | exact Hopts]].
Defined.

(** X18.  Outside Windows, when TIOCEXCL is refused Open of a ComSerial
    returns false without trying flock and without setting any option, and
    closes the port it had opened.  On Windows Open asks for neither
    lock. *)
Theorem serial_Open_gives_up_when_exclusive_access_is_refused :
  forall (pf : platform) (E : environment) (w : world E) (s : ComSerial.t),
    let call := exec E (ComSerial.Open pf s) w in
    (forall rc : Z,
       observe tiocexcl_answer (trace call) = Some rc -> rc <> 0 ->
       fst (result call) = false /\
       ComSerial.Opened (snd (result call)) = false /\
       existsb is_flock (trace call) = false /\
       options_set (trace call) = [] /\
       existsb (is_close serial_port) (trace call) = true) /\
    (pf = windows -> existsb is_exclusive_request (trace call) = false).
Proof.
  intros pf E w s call.
  destruct (@always_exec _ _ _ (Open_serial_outcome pf s) E w)
    as (Hopened & _ & Hwin & Hexcl).
  fold call in Hopened, Hwin, Hexcl.
  split; [|exact Hwin].
  intros rc Hrc Hnz. destruct (Hexcl rc Hrc Hnz) as (Hret & Hflock & Hopts & Hclose).
  repeat split; trivial. rewrite Hopened. exact Hret.
Qed.

Lemma serial_Open_on_a_locked_line :
  let call := exec (scripted line_is_locked) (ComSerial.Open posix example_serial) tt in
  fst (result call) = false /\ ComSerial.Opened (snd (result call)) = false /\
  existsb is_flock (trace call) = false.
Proof.
  intros call.
  destruct (proj1 (@serial_Open_gives_up_when_exclusive_access_is_refused posix
                     (scripted line_is_locked) tt example_serial)
              (-1) eq_refl ltac:(discriminate)) as (Hret & Hopen & Hflock & _).
  split; [exact Hret | split; [exact Hopen | exact Hflock]].
Defined.

(** X19.  Open of a ComSerial is Close followed by Open, whether the port
    was open or not: in every environment the two runs return the same
    value, leave the same object and the same environment, and make the
    same requests. *)
Theorem serial_Open_is_Close_then_Open :
  forall (pf : platform) (E : environment) (w : world E) (s : ComSerial.t),
    exec E (ComSerial.Open pf s) w
    = exec E (bind (ComSerial.Close s) (fun r => ComSerial.Open pf (snd r))) w.
Proof.
  intros pf E w s.
  unfold ComSerial.Close, ComSerial.Open at 1, handle_close.
  destruct (ComSerial.m_port s) eqn:Hport; simpl.
  - destruct (answer E (close serial_port) w) as [ec w1].
    destruct (failed ec); simpl; unfold ComSerial.Open; simpl; reflexivity.
  - unfold ComSerial.Open. rewrite Hport. reflexivity.
Qed.

(** ** Non-blocking transfers of ComSocket, Close and Abort *)





Lemma serial_Close_outcome :
  forall s : ComSerial.t,
    always (fun r tr =>
              fst r = match observe (close_answer serial_port) tr with
                      | Some ec => negb (failed ec)
                      | None => true
                      end /\
              ComSerial.Opened (snd r) = false /\
              existsb (is_close serial_port) tr = ComSerial.Opened s)
           (ComSerial.Close s).
Proof.
  intros s. unfold ComSerial.Close, handle_close, ComSerial.Opened.
  always_steps; simpl in *;
    repeat match goal with H : failed _ = _ |- _ => rewrite H end;
    repeat split; auto.
Qed.

Lemma socket_Close_outcome :
  forall s : ComSocket.t,
    always (fun r tr =>
              fst r = match observe (close_answer tcp_socket) tr with
                      | Some ec => negb (failed ec)
                      | None => true
                      end /\
              ComSocket.Opened (snd r) = false /\
              existsb (is_close tcp_socket) tr = ComSocket.Opened s)
           (ComSocket.Close s).
Proof.
  intros s. unfold ComSocket.Close, handle_close, ComSocket.Opened.
  always_steps; simpl in *;
    repeat match goal with H : failed _ = _ |- _ => rewrite H end;
    repeat split; auto.
Qed.

(** X21.  Close of either transport asks for the handle to be closed
    exactly when the object is open, returns false exactly when that
    request is answered with an error, and leaves the object closed in
    every case. *)
Theorem Close_returns_false_only_when_the_close_fails :
  forall (E : environment) (w : world E) (ser : ComSerial.t) (sock : ComSocket.t),
    let c1 := exec E (ComSerial.Close ser) w in
    let c2 := exec E (ComSocket.Close sock) w in
    (fst (result c1) = match observe (close_answer serial_port) (trace c1) with
                       | Some ec => negb (failed ec)
                       | None => true
                       end /\
     ComSerial.Opened (snd (result c1)) = false /\
     existsb (is_close serial_port) (trace c1) = ComSerial.Opened ser) /\
    (fst (result c2) = match observe (close_answer tcp_socket) (trace c2) with
                       | Some ec => negb (failed ec)
                       | None => true
                       end /\
     ComSocket.Opened (snd (result c2)) = false /\
     existsb (is_close tcp_socket) (trace c2) = ComSocket.Opened sock).
Proof.
  intros E w ser sock. split.
  - exact (@always_exec _ _ _ (serial_Close_outcome ser) E w).
  - exact (@always_exec _ _ _ (socket_Close_outcome sock) E w).
Qed.

Lemma socket_Abort_outcome :
  forall s : ComSocket.t,
    always (fun s' tr =>
              existsb is_timer_cancel tr = true /\
              existsb is_run tr = false /\
              (exists ec : error_code,
                 observe (cancel_answer tcp_socket) tr = Some ec /\
                 ComSocket.Opened s'
                 = ComSocket.Opened s
                   && negb (error_code_eqb ec operation_not_supported) /\
                 existsb (is_close tcp_socket) tr
                 = ComSocket.Opened s
                   && error_code_eqb ec operation_not_supported) /\
              ComSocket.GetPort s' = ComSocket.GetPort s /\
              ComSocket.GetAddress s' = ComSocket.GetAddress s /\
              ComSocket.GetOpenTimeout s' = ComSocket.GetOpenTimeout s /\
              ComSocket.GetReadTimeout s' = ComSocket.GetReadTimeout s /\
              ComSocket.GetWriteTimeout s' = ComSocket.GetWriteTimeout s)
           (ComSocket.Abort s).
Proof.
  intros s. unfold ComSocket.Abort, handle_close, ComSocket.Opened.
  always_steps; simpl in *;
    (split; [reflexivity|]); (split; [reflexivity|]);
    (split; [eexists; split; [reflexivity|];
             repeat match goal with
                    | H : error_code_eqb _ _ = _ |- _ => rewrite H
                    | H : ComSocket.m_socket _ = _ |- _ => rewrite H
                    end;
             try destruct (ComSocket.m_socket s); split; reflexivity|]);
    repeat split.
Qed.

(** X22.  Abort of a ComSocket cancels the timer and asks for the socket
    operations to be cancelled; it never runs the io_service.  It leaves
    the socket open unless the cancel is answered with
    [operation_not_supported], in which case it closes an open socket.
    Port, address and the three timeouts are as before. *)
Theorem socket_Abort_closes_only_when_cancel_is_not_supported :
  forall (E : environment) (w : world E) (s : ComSocket.t),
    let call := exec E (ComSocket.Abort s) w in
    existsb is_timer_cancel (trace call) = true /\
    existsb is_run (trace call) = false /\
    (exists ec : error_code,
       observe (cancel_answer tcp_socket) (trace call) = Some ec /\
       ComSocket.Opened (result call)
       = ComSocket.Opened s && negb (error_code_eqb ec operation_not_supported) /\
       existsb (is_close tcp_socket) (trace call)
       = ComSocket.Opened s && error_code_eqb ec operation_not_supported) /\
    ComSocket.GetPort (result call) = ComSocket.GetPort s /\
    ComSocket.GetAddress (result call) = ComSocket.GetAddress s /\
    ComSocket.GetOpenTimeout (result call) = ComSocket.GetOpenTimeout s /\
    ComSocket.GetReadTimeout (result call) = ComSocket.GetReadTimeout s /\
    ComSocket.GetWriteTimeout (result call) = ComSocket.GetWriteTimeout s.
Proof.
  intros E w s.
  exact (@always_exec _ _ _ (socket_Abort_outcome s) E w).
Qed.

(** ** What every reachable object keeps *)

Lemma serial_Open_keeps_settings :
  forall (pf : platform) (s : ComSerial.t),
    serial_settings_valid s ->
    always (fun r _ => serial_settings_valid (snd r)) (ComSerial.Open pf s).
Proof.
  intros pf s H. unfold ComSerial.Open, ComSerial.claim_exclusive, handle_close.
  destruct pf; always_steps; exact H.
Qed.

Lemma serial_Close_keeps_settings :
  forall (s : ComSerial.t),
    serial_settings_valid s ->
    always (fun r _ => serial_settings_valid (snd r)) (ComSerial.Close s).
Proof.
  intros s H. unfold ComSerial.Close, handle_close.
  always_steps; exact H.
Qed.

Lemma milliseconds_not_zero : forall t : Z, t <> 0 -> milliseconds t <> 0.
Proof.
  intros t Ht. unfold milliseconds, ticks_per_millisecond. lia.
Qed.

Lemma serial_invoke_keeps_settings :
  forall (pf : platform) (E : environment) (w : world E)
         (m : SerialSession.method) (s : ComSerial.t),
    serial_settings_valid s ->
    serial_settings_valid (result (exec E (SerialSession.invoke pf m s) w)).
Proof.
  intros pf E w m s H.
  destruct m; unfold SerialSession.invoke;
    try (rewrite exec_then_ret; exact H).
  - rewrite exec_bind_ret.
    exact (@always_exec _ _ _ (serial_Open_keeps_settings pf H) E w).
  - rewrite exec_bind_ret.
    exact (@always_exec _ _ _ (serial_Close_keeps_settings H) E w).
  - simpl. unfold ComSerial.SetWriteTimeout.
    destruct (Z.eqb_spec write_timeout 0); [exact H|].
    destruct H as (K1 & K2 & K3 & K4 & K5).
    repeat split; trivial; simpl; try apply K3.
    apply milliseconds_not_zero; assumption.
  - simpl. unfold ComSerial.SetReadTimeout.
    destruct (Z.eqb_spec read_timeout 0); [exact H|].
    destruct H as (K1 & K2 & K3 & K4 & K5).
    repeat split; trivial; simpl; try apply K3.
    apply milliseconds_not_zero; assumption.
  - simpl. unfold ComSerial.SetDevice.
    destruct (String.eqb_spec device ""); [exact H|].
    destruct H as (K1 & K2 & K3 & K4 & K5).
    repeat split; trivial; simpl; apply K3.
  - simpl. unfold ComSerial.SetBaudRate.
    destruct (Z.eqb_spec baud_rate 0); [exact H|].
    destruct H as (K1 & K2 & K3 & K4 & K5).
    repeat split; trivial; simpl; apply K3.
  - simpl. unfold ComSerial.SetDataBits, character_size.make.
    destruct (Z.ltb_spec data_bits 5); [exact H|].
    destruct (Z.ltb_spec 8 data_bits); [exact H|].
    destruct H as (K1 & K2 & K3 & K4 & K5).
    repeat split; trivial; simpl; lia.
  - simpl. unfold ComSerial.SetStopBits.
    destruct (stop_bits =? 1); [|destruct (stop_bits =? 2); [|destruct (stop_bits =? 3)]];
      exact H.
  - simpl. unfold ComSerial.SetParity.
    destruct (Ascii.eqb parity "e" || Ascii.eqb parity "E");
      [|destruct (Ascii.eqb parity "o" || Ascii.eqb parity "O");
        [|destruct (Ascii.eqb parity "n" || Ascii.eqb parity "N")]]; exact H.
  - simpl. unfold ComSerial.SetFlowControl.
    destruct (Ascii.eqb flow_control "h" || Ascii.eqb flow_control "H");
      [|destruct (Ascii.eqb flow_control "s" || Ascii.eqb flow_control "S");
        [|destruct (Ascii.eqb flow_control "n" || Ascii.eqb flow_control "N")]];
      exact H.
Qed.

Lemma serial_constructed_settings :
  forall d b db sb p f t s,
    ComSerial.ComSerial d b db sb p f t = object s -> serial_settings_valid s.
Proof.
  intros d b db sb p f t s Hs.
  pose proof (ComSerial_constructor_cases d b db sb p f t) as H. simpl in H.
  rewrite Hs in H.
  destruct H as [(_ & Hm) | [(_ & _ & Hm) | [(_ & _ & _ & Hm) |
    [(_ & _ & _ & _ & Hm) | [(_ & _ & _ & _ & _ & Hm) |
    [(_ & _ & _ & _ & _ & _ & Hm) |
    [(_ & _ & _ & _ & _ & _ & _ & Hm) |
     (H1 & H2 & H3 & H4 & H5 & H6 & H7 & s0 & Hm & Hread)]]]]]]];
    try discriminate Hm.
  inversion Hm; subst s0.
  destruct Hread as (_ & Hd & Hb & Hdb & _ & _ & _ & Hw & Hr).
  unfold serial_settings_valid. rewrite Hd, Hb, Hdb, Hw, Hr.
  repeat split; trivial; try lia; apply milliseconds_not_zero; assumption.
Qed.

(** X23.  In every state a ComSerial reaches after its constructor has
    returned, through any sequence of calls in any environment, the device
    name is not empty, the baud rate is not 0, the data bits are 5 to 8 and
    neither timeout is zero; so every Read and Write runs under a deadline
    that is not zero, and Open never opens an empty device name. *)
Theorem reachable_serial_keeps_valid_settings :
  forall (pf : platform) (s : ComSerial.t),
    SerialSession.reachable pf s ->
    serial_settings_valid s /\
    (forall (E : environment) (w : world E) (len : Z),
       exists d : time_duration,
         d <> 0 /\
         observe armed_duration (trace (exec E (ComSerial.Read s len) w)) = Some d) /\
    (forall (E : environment) (w : world E) (len : Z),
       exists d : time_duration,
         d <> 0 /\
         observe armed_duration (trace (exec E (ComSerial.Write s len) w)) = Some d).
Proof.
  intros pf s Hreach.
  assert (H : serial_settings_valid s).
  { induction Hreach as [d b db sb p f t s Hctor | E w m s Hreach IH].
    - eapply serial_constructed_settings; exact Hctor.
    - apply serial_invoke_keeps_settings; exact IH. }
  split; [exact H|].
  destruct H as (_ & _ & _ & Hw & Hr).
  split; intros E w len.
  - exists (ComSerial.m_read_timeout s). split; [exact Hr|].
    exact (proj2 (transfer_outcome_of_every_run E w (serial_Read s) len)).
  - exists (ComSerial.m_write_timeout s). split; [exact Hw|].
    exact (proj2 (transfer_outcome_of_every_run E w (serial_Write s) len)).
Qed.

Lemma reachable_serial_settings_example :
  let s := result (exec (scripted all_well)
                     (SerialSession.invoke posix (SerialSession.call_SetDataBits 4)
                        (result (exec (scripted all_well)
                                   (SerialSession.invoke posix
                                      (SerialSession.call_SetReadTimeout 0)
                                      example_serial) tt))) tt) in
  ComSerial.GetDataBits s = 8 /\ ComSerial.GetReadTimeout s = 1000 /\
  serial_settings_valid s.
Proof.
  intros s. split; [reflexivity | split; [reflexivity|]].
  apply (proj1 (@reachable_serial_keeps_valid_settings posix s
                  (SerialSession.reach_invoke _ _ _
                     (SerialSession.reach_invoke _ _ _
                        (SerialSession.reach_constructed posix
                           "COM1" 38400 8 1 "n" "h" 1000 eq_refl))))).
Defined.

Lemma socket_Open_keeps_settings :
  forall (s : ComSocket.t),
    socket_settings_valid s ->
    always (fun r _ => socket_settings_valid (snd r)) (ComSocket.Open s).
Proof.
  intros s (K1 & K2 & K3 & K4 & K5). unfold_Open.
  always_steps; unfold socket_settings_valid; simpl; repeat split; assumption.
Qed.

Lemma socket_Close_keeps_settings :
  forall (s : ComSocket.t),
    socket_settings_valid s ->
    always (fun r _ => socket_settings_valid (snd r)) (ComSocket.Close s).
Proof.
  intros s H. unfold ComSocket.Close, handle_close.
  always_steps; exact H.
Qed.

Lemma socket_Abort_keeps_settings :
  forall (s : ComSocket.t),
    socket_settings_valid s ->
    always (fun s' _ => socket_settings_valid s') (ComSocket.Abort s).
Proof.
  intros s (K1 & K2 & K3 & K4 & K5). unfold ComSocket.Abort, handle_close.
  always_steps; unfold socket_settings_valid; simpl; repeat split; assumption.
Qed.

Lemma socket_invoke_keeps_settings :
  forall (E : environment) (w : world E)
         (m : SocketSession.method) (s : ComSocket.t),
    socket_settings_valid s ->
    socket_settings_valid (result (exec E (SocketSession.invoke m s) w)).
Proof.
  intros E w m s H.
  destruct m as [ | | len | len | len | len | | write_timeout | read_timeout
                | open_timeout | addr | port];
    unfold SocketSession.invoke;
    try (rewrite exec_then_ret; exact H).
  - rewrite exec_bind_ret.
    exact (@always_exec _ _ _ (socket_Open_keeps_settings H) E w).
  - rewrite exec_bind_ret.
    exact (@always_exec _ _ _ (socket_Close_keeps_settings H) E w).
  - exact (@always_exec _ _ _ (socket_Abort_keeps_settings H) E w).
  - simpl. unfold ComSocket.SetWriteTimeout.
    destruct (Z.eqb_spec write_timeout 0); [exact H|].
    destruct H as (K1 & K2 & K3 & K4 & K5).
    repeat split; trivial. apply milliseconds_not_zero; assumption.
  - simpl. unfold ComSocket.SetReadTimeout.
    destruct (Z.eqb_spec read_timeout 0); [exact H|].
    destruct H as (K1 & K2 & K3 & K4 & K5).
    repeat split; trivial. apply milliseconds_not_zero; assumption.
  - simpl. unfold ComSocket.SetOpenTimeout.
    destruct (Z.eqb_spec open_timeout 0); [exact H|].
    destruct H as (K1 & K2 & K3 & K4 & K5).
    repeat split; trivial. apply milliseconds_not_zero; assumption.
  - simpl. unfold ComSocket.SetAddress.
    destruct (if String.eqb addr "" then (default_address, success)
              else from_string addr) as [a ec].
    destruct (failed ec); exact H.
  - simpl. unfold ComSocket.SetPort.
    destruct (Z.ltb_spec 65535 port); [exact H|].
    destruct H as (K1 & K2 & K3 & K4 & K5).
    repeat split; trivial.
Qed.

Lemma socket_constructed_settings :
  forall addr port t s,
    ComSocket.ComSocket addr port t = object s -> socket_settings_valid s.
Proof.
  intros addr port t s Hs.
  pose proof (ComSocket_constructor_cases addr port t) as H. simpl in H.
  rewrite Hs in H.
  destruct H as [(_ & Hm) | [(_ & _ & Hm) | [(_ & _ & _ & Hm) |
                 (H1 & H2 & H3 & s0 & Hm & _ & _ & Hp & Hot & Hwt & Hrt)]]];
    try discriminate Hm.
  inversion Hm; subst s0.
  unfold socket_settings_valid. rewrite Hp, Hot, Hwt, Hrt.
  repeat split; trivial; try (apply milliseconds_not_zero; assumption).
  revert Hs. unfold ComSocket.ComSocket.
  destruct (ComSocket.SetAddress addr ComSocket.members_default) as [ok1 s1] eqn:Ha.
  assert (Hacc : ComSocket.m_acceptor s1 = false).
  { unfold ComSocket.SetAddress in Ha.
    destruct (if String.eqb addr "" then (default_address, success)
              else from_string addr) as [a ec].
    destruct (failed ec); inversion Ha; reflexivity. }
  destruct ok1; simpl; [|discriminate].
  unfold ComSocket.SetPort. destruct (65535 <? port); simpl; [discriminate|].
  unfold ComSocket.SetOpenTimeout, ComSocket.SetWriteTimeout, ComSocket.SetReadTimeout.
  destruct (t =? 0); simpl; [discriminate|].
  intros Heq. inversion Heq. simpl. exact Hacc.
Qed.

(** X24.  In every state a ComSocket reaches after its constructor has
    returned, through any sequence of calls in any environment, the port is
    at most 65535, none of the three timeouts is zero and the acceptor is
    closed.  So whatever port Open binds or connects to fits 16 bits, and
    the object is never left listening between calls. *)
Theorem reachable_socket_keeps_valid_settings :
  forall (s : ComSocket.t),
    SocketSession.reachable s ->
    socket_settings_valid s /\
    (forall (E : environment) (w : world E) (p : Z),
       observe bind_port (trace (exec E (ComSocket.Open s) w)) = Some p ->
       p <= 65535) /\
    (forall (E : environment) (w : world E) (a : address) (p : Z),
       observe connect_target (trace (exec E (ComSocket.Open s) w)) = Some (a, p) ->
       p <= 65535).
Proof.
  intros s Hreach.
  assert (H : socket_settings_valid s).
  { induction Hreach as [addr port t s Hctor | E w m s Hreach IH].
    - eapply socket_constructed_settings; exact Hctor.
    - apply socket_invoke_keeps_settings; exact IH. }
  split; [exact H|].
  destruct H as (Hp & _).
  split.
  - intros E w p Hb.
    rewrite (proj2 (@always_exec _ _ _ (Open_endpoints s) E w) p Hb). exact Hp.
  - intros E w a p Hc.
    destruct (proj1 (@always_exec _ _ _ (Open_endpoints s) E w) a p Hc) as (_ & _ & ->).
    exact Hp.
Qed.

Lemma reachable_socket_settings_example :
  let s := result (exec (scripted cancel_unsupported)
                     (SocketSession.invoke SocketSession.call_Abort
                        (result (exec (scripted all_well)
                                   (SocketSession.invoke
                                      (SocketSession.call_SetPort 70000)
                                      example_client) tt))) tt) in
  ComSocket.GetPort s = 3444 /\ socket_settings_valid s.
Proof.
  intros s. split; [reflexivity|].
  apply (proj1 (@reachable_socket_keeps_valid_settings s
                  (SocketSession.reach_invoke _ _ _
                     (SocketSession.reach_invoke _ _ _
                        (SocketSession.reach_constructed
                           "192.168.1.100" 3444 1000 eq_refl))))).
Defined.
